(** * monitor5.py: hybrid extraction, deduplication and seen-state bookkeeping

    A shallow embedding of [src/monitor5.py] and the properties of its
    specification.  Python values are modelled as follows.

    - [str] is a list of Unicode code points ([pystr]); [len] is [length].
    - the merge dictionary of [find_notes] is an association list in
      insertion order (Python dictionaries iterate in insertion order);
    - the seen-state dictionary is a finite map ([gmap]) from hex digests to
      records;
    - a parsed page ([BeautifulSoup]) is a tree of tags and strings;
    - the network, the clock, the seen-state file and the environment are
      what a run reads from outside: the fields of [world];
    - the HTML parser and the resolution of a reference against a base URL
      are library functions outside the repository: the variables
      [html_parser] and [urljoin_nonempty] of the sections. *)

From Stdlib Require Import NArith ZArith List Lia Bool String Ascii.
From Stdlib Require Import Sorting.Permutation Sorting.Sorted.
From stdpp Require Import base option list gmap.
Import ListNotations.

Local Open Scope N_scope.

(** ** Python strings *)

Module PyStr.

(** One Unicode code point. *)
Abbreviation char := N (only parsing).

(** A Python [str]. *)
Abbreviation pystr := (list N) (only parsing).

(** Decoder for the UTF-8 bytes of a Rocq string literal, so that the
    constants of the program can be written as they are in the source. *)
Fixpoint utf8_decode (fuel : nat) (bs : list N) : pystr :=
  match fuel with
  | O => []
  | S fuel' =>
    match bs with
    | [] => []
    | b0 :: r0 =>
      if b0 <? 0x80 then b0 :: utf8_decode fuel' r0
      else if b0 <? 0xE0 then
        match r0 with
        | b1 :: r1 =>
            (N.land b0 0x1F * 64 + N.land b1 0x3F) :: utf8_decode fuel' r1
        | _ => []
        end
      else if b0 <? 0xF0 then
        match r0 with
        | b1 :: b2 :: r2 =>
            (N.land b0 0x0F * 4096 + N.land b1 0x3F * 64 + N.land b2 0x3F)
              :: utf8_decode fuel' r2
        | _ => []
        end
      else
        match r0 with
        | b1 :: b2 :: b3 :: r3 =>
            (N.land b0 0x07 * 262144 + N.land b1 0x3F * 4096
             + N.land b2 0x3F * 64 + N.land b3 0x3F)
              :: utf8_decode fuel' r3
        | _ => []
        end
    end
  end.

Definition bytes_of_string (s : string) : list N :=
  List.map N_of_ascii (list_ascii_of_string s).

(** The [str] written by a literal. *)
Definition lit (s : string) : pystr :=
  let bs := bytes_of_string s in utf8_decode (List.length bs) bs.

(** [s.encode("utf-8")]. *)
Definition utf8_encode_char (c : char) : list N :=
  if c <? 0x80 then [c]
  else if c <? 0x800 then
    [N.lor 0xC0 (N.shiftr c 6); N.lor 0x80 (N.land c 0x3F)]
  else if c <? 0x10000 then
    [N.lor 0xE0 (N.shiftr c 12);
     N.lor 0x80 (N.land (N.shiftr c 6) 0x3F);
     N.lor 0x80 (N.land c 0x3F)]
  else
    [N.lor 0xF0 (N.shiftr c 18);
     N.lor 0x80 (N.land (N.shiftr c 12) 0x3F);
     N.lor 0x80 (N.land (N.shiftr c 6) 0x3F);
     N.lor 0x80 (N.land c 0x3F)].

Definition encode_utf8 (s : pystr) : list N :=
  List.flat_map utf8_encode_char s.

(** [str.isspace] for one character (Unicode 14 white space, as used by
    [str.strip] and [str.split] without arguments). *)
Definition isspace (c : char) : bool :=
  ((0x09 <=? c) && (c <=? 0x0D)) || ((0x1C <=? c) && (c <=? 0x20))
  || (c =? 0x85) || (c =? 0xA0) || (c =? 0x1680)
  || ((0x2000 <=? c) && (c <=? 0x200A))
  || (c =? 0x2028) || (c =? 0x2029) || (c =? 0x202F) || (c =? 0x205F)
  || (c =? 0x3000).

(** [s.lstrip()], [s.rstrip()] and [s.strip()]. *)
Fixpoint lstrip (s : pystr) : pystr :=
  match s with
  | c :: s' => if isspace c then lstrip s' else s
  | [] => []
  end.

Definition rstrip (s : pystr) : pystr := List.rev (lstrip (List.rev s)).

Definition strip (s : pystr) : pystr := rstrip (lstrip s).

(** [s.split()]: the maximal runs of non-space characters. [cur] is the
    word being read, reversed. *)
Fixpoint split_go (cur : pystr) (s : pystr) : list pystr :=
  match s with
  | [] => match cur with [] => [] | _ => [List.rev cur] end
  | c :: s' =>
      if isspace c
      then match cur with
           | [] => split_go [] s'
           | _ => List.rev cur :: split_go [] s'
           end
      else split_go (c :: cur) s'
  end.

Definition split (s : pystr) : list pystr := split_go [] s.

(** [sep.join(parts)]. *)
Fixpoint join (sep : pystr) (parts : list pystr) : pystr :=
  match parts with
  | [] => []
  | [p] => p
  | p :: rest => p ++ sep ++ join sep rest
  end.

End PyStr.

Import PyStr.

(** ** SHA-256 (FIPS 180-4), for [hashlib.sha256(...).hexdigest()] *)

Module SHA256.

Definition mask32 : N := 0xFFFFFFFF.
Definition add32 (a b : N) : N := N.land (a + b) mask32.
Definition rotr (n x : N) : N :=
  N.lor (N.shiftr x n) (N.land (N.shiftl x (32 - n)) mask32).
Definition not32 (x : N) : N := N.lxor x mask32.

Definition Ch (x y z : N) : N := N.lxor (N.land x y) (N.land (not32 x) z).
Definition Maj (x y z : N) : N :=
  N.lxor (N.lxor (N.land x y) (N.land x z)) (N.land y z).
Definition Sigma0 (x : N) : N := N.lxor (N.lxor (rotr 2 x) (rotr 13 x)) (rotr 22 x).
Definition Sigma1 (x : N) : N := N.lxor (N.lxor (rotr 6 x) (rotr 11 x)) (rotr 25 x).
Definition sigma0 (x : N) : N := N.lxor (N.lxor (rotr 7 x) (rotr 18 x)) (N.shiftr x 3).
Definition sigma1 (x : N) : N := N.lxor (N.lxor (rotr 17 x) (rotr 19 x)) (N.shiftr x 10).

Definition K : list N :=
  [0x428A2F98; 0x71374491; 0xB5C0FBCF; 0xE9B5DBA5; 0x3956C25B; 0x59F111F1;
   0x923F82A4; 0xAB1C5ED5; 0xD807AA98; 0x12835B01; 0x243185BE; 0x550C7DC3;
   0x72BE5D74; 0x80DEB1FE; 0x9BDC06A7; 0xC19BF174; 0xE49B69C1; 0xEFBE4786;
   0x0FC19DC6; 0x240CA1CC; 0x2DE92C6F; 0x4A7484AA; 0x5CB0A9DC; 0x76F988DA;
   0x983E5152; 0xA831C66D; 0xB00327C8; 0xBF597FC7; 0xC6E00BF3; 0xD5A79147;
   0x06CA6351; 0x14292967; 0x27B70A85; 0x2E1B2138; 0x4D2C6DFC; 0x53380D13;
   0x650A7354; 0x766A0ABB; 0x81C2C92E; 0x92722C85; 0xA2BFE8A1; 0xA81A664B;
   0xC24B8B70; 0xC76C51A3; 0xD192E819; 0xD6990624; 0xF40E3585; 0x106AA070;
   0x19A4C116; 0x1E376C08; 0x2748774C; 0x34B0BCB5; 0x391C0CB3; 0x4ED8AA4A;
   0x5B9CCA4F; 0x682E6FF3; 0x748F82EE; 0x78A5636F; 0x84C87814; 0x8CC70208;
   0x90BEFFFA; 0xA4506CEB; 0xBEF9A3F7; 0xC67178F2].

(** Padding: a 1 bit, zeros up to 56 mod 64 bytes, the bit length on 8 bytes. *)
Definition be_bytes (n : nat) (x : N) : list N :=
  List.map (fun i => N.land (N.shiftr x (8 * N.of_nat i)) 0xFF)
           (List.rev (List.seq 0 n)).

Definition pad (msg : list N) : list N :=
  let len := List.length msg in
  let zeros := ((64 + 55 - len mod 64) mod 64)%nat in
  msg ++ [0x80] ++ List.repeat 0 zeros ++ be_bytes 8 (8 * N.of_nat len).

Fixpoint words_of_bytes (fuel : nat) (bs : list N) : list N :=
  match fuel, bs with
  | S fuel', b0 :: b1 :: b2 :: b3 :: r =>
      (b0 * 16777216 + b1 * 65536 + b2 * 256 + b3) :: words_of_bytes fuel' r
  | _, _ => []
  end.

(** The message schedule, most recent word first. *)
Fixpoint schedule (n : nat) (w : list N) : list N :=
  match n with
  | O => w
  | S n' =>
      let x := add32 (add32 (sigma1 (List.nth 1 w 0)) (List.nth 6 w 0))
                     (add32 (sigma0 (List.nth 14 w 0)) (List.nth 15 w 0)) in
      schedule n' (x :: w)
  end.

Definition state := (N * N * N * N * N * N * N * N)%type.

Definition round (s : state) (kw : N * N) : state :=
  let '(a, b, c, d, e, f, g, h) := s in
  let t1 := add32 (add32 (add32 h (Sigma1 e)) (add32 (Ch e f g) (fst kw))) (snd kw) in
  let t2 := add32 (Sigma0 a) (Maj a b c) in
  (add32 t1 t2, a, b, c, add32 d t1, e, f, g).

Definition compress (s : state) (block : list N) : state :=
  let w := List.rev (schedule 48 (List.rev block)) in
  let '(a, b, c, d, e, f, g, h) := List.fold_left round (List.combine K w) s in
  let '(a0, b0, c0, d0, e0, f0, g0, h0) := s in
  (add32 a0 a, add32 b0 b, add32 c0 c, add32 d0 d,
   add32 e0 e, add32 f0 f, add32 g0 g, add32 h0 h).

Fixpoint blocks (fuel : nat) (ws : list N) : list (list N) :=
  match fuel with
  | O => []
  | S fuel' =>
      match ws with
      | [] => []
      | _ => List.firstn 16 ws :: blocks fuel' (List.skipn 16 ws)
      end
  end.

Definition init : state :=
  (0x6A09E667, 0xBB67AE85, 0x3C6EF372, 0xA54FF53A,
   0x510E527F, 0x9B05688C, 0x1F83D9AB, 0x5BE0CD19).

Definition digest_words (msg : list N) : list N :=
  let bs := pad msg in
  let ws := words_of_bytes (List.length bs) bs in
  let '(a, b, c, d, e, f, g, h) :=
    List.fold_left compress (blocks (List.length ws) ws) init in
  [a; b; c; d; e; f; g; h].

Definition hex_digit (x : N) : char :=
  if x <? 10 then 0x30 + x else 0x61 + (x - 10).

Definition hex_word (w : N) : pystr :=
  List.map (fun i => hex_digit (N.land (N.shiftr w (4 * N.of_nat i)) 0xF))
           (List.rev (List.seq 0 8)).

Definition hexdigest (msg : list N) : pystr :=
  List.flat_map hex_word (digest_words msg).

End SHA256.

Example sha256_abc :
  SHA256.hexdigest (encode_utf8 (lit "abc"))
  = lit "ba7816bf8f01cfea414140de5dae2223b00361a396177a9cb410ff61f20015ad".
Proof. vm_compute. reflexivity. Qed.

Example sha256_empty :
  SHA256.hexdigest []
  = lit "e3b0c44298fc1c149afbf4c8996fb92427ae41e4649b934ca495991b7852b855".
Proof. vm_compute. reflexivity. Qed.

(** ** Regular expressions of the program *)

Module Re.

(** The code points that start a run of ten decimal digits (Unicode
    category Nd, Unicode 14): [\d] in a [str] pattern matches exactly the
    characters of these runs, and [int] reads them by their offset. *)
Definition Nd_zeros : list N :=
  [0x30; 0x660; 0x6f0; 0x7c0; 0x966; 0x9e6; 0xa66; 0xae6;
   0xb66; 0xbe6; 0xc66; 0xce6; 0xd66; 0xde6; 0xe50; 0xed0;
   0xf20; 0x1040; 0x1090; 0x17e0; 0x1810; 0x1946; 0x19d0; 0x1a80;
   0x1a90; 0x1b50; 0x1bb0; 0x1c40; 0x1c50; 0xa620; 0xa8d0; 0xa900;
   0xa9d0; 0xa9f0; 0xaa50; 0xabf0; 0xff10; 0x104a0; 0x10d30; 0x11066;
   0x110f0; 0x11136; 0x111d0; 0x112f0; 0x11450; 0x114d0; 0x11650; 0x116c0;
   0x11730; 0x118e0; 0x11950; 0x11c50; 0x11d50; 0x11da0; 0x16a60; 0x16ac0;
   0x16b50; 0x1d7ce; 0x1d7d8; 0x1d7e2; 0x1d7ec; 0x1d7f6; 0x1e140; 0x1e2f0;
   0x1e950; 0x1fbf0].

Definition decimal_value (c : char) : option N :=
  match List.find (fun z => (z <=? c) && (c <? z + 10)) Nd_zeros with
  | Some z => Some (c - z)
  | None => None
  end.

(** [\d] *)
Definition is_digit (c : char) : bool :=
  match decimal_value c with Some _ => true | None => false end.

(** [re.IGNORECASE] on a literal character. The literals of the three
    patterns are the letters a-z, e-acute, space and underscore; a text
    character matches one of them when both have the same image here
    (I with dot above and dotless i are matched by the letter i). *)
Definition lower_ci (c : char) : char :=
  if (0x41 <=? c) && (c <=? 0x5A) then c + 32
  else if c =? 0xC9 then 0xE9
  else if (c =? 0x130) || (c =? 0x131) then 0x69
  else c.

Definition lit_ci (p c : char) : bool := lower_ci c =? lower_ci p.

(** The literal [pat] matches, ignoring case, at the start of [s]. *)
Fixpoint prefix_ci (pat s : pystr) : bool :=
  match pat, s with
  | [], _ => true
  | p :: pat', c :: s' => lit_ci p c && prefix_ci pat' s'
  | _ :: _, [] => false
  end.

(** An alternation of literals at the start of [s]: the first alternative
    that matches, as the length it consumes. *)
Fixpoint alt_at (alts : list pystr) (s : pystr) : option nat :=
  match alts with
  | [] => None
  | p :: alts' => if prefix_ci p s then Some (List.length p) else alt_at alts' s
  end.

End Re.

Import Re.

(** ** The patterns (lines 48-59) *)

(** [PATTERN]: the four keyword phrases, ignoring case. *)
Definition PATTERN_alts : list pystr :=
  [lit "nota técnica"; lit "nota_tecnica"; lit "informe técnico";
   lit "informe tecnico"].

(** [PATTERN.search(text)] as a truth value: some position of [text]
    starts one of the phrases. *)
Fixpoint PATTERN_search (text : pystr) : bool :=
  match alt_at PATTERN_alts text with
  | Some _ => true
  | None =>
      match text with
      | [] => false
      | _ :: rest => PATTERN_search rest
      end
  end.

(** [\d{2}/\d{2}/\d{4}] at the start of [s]: the ten characters matched. *)
Definition date_at (s : pystr) : option pystr :=
  match s with
  | d1 :: d2 :: s1 :: m1 :: m2 :: s2 :: y1 :: y2 :: y3 :: y4 :: _ =>
      if is_digit d1 && is_digit d2 && (s1 =? 0x2F)
         && is_digit m1 && is_digit m2 && (s2 =? 0x2F)
         && is_digit y1 && is_digit y2 && is_digit y3 && is_digit y4
      then Some [d1; d2; s1; m1; m2; s2; y1; y2; y3; y4]
      else None
  | _ => None
  end.

(** [DATE_PATTERN.search(text)]: group 1 of the leftmost match. *)
Fixpoint DATE_PATTERN_search (text : pystr) : option pystr :=
  match date_at text with
  | Some d => Some d
  | None =>
      match text with
      | [] => None
      | _ :: rest => DATE_PATTERN_search rest
      end
  end.

(** [REGEX_DATA_TITULO_AGRESSIVO]: a keyword, then as few characters as
    possible (DOTALL, so any character), then "Publicada em " and a date;
    the trailing lazy [.*?] matches nothing. *)
Definition AGRESSIVO_alts : list pystr :=
  [lit "Nota Técnica"; lit "Informe Técnico"; lit "Informe_tecnico";
   lit "Nota_tecnica"; lit "MDFE_Nota_Tecnica"].

Definition PUBLICADA_EM : pystr := lit "Publicada em ".

(** "Publicada em " followed by a date at the start of [s]: the date. *)
Definition marker_at (s : pystr) : option pystr :=
  if prefix_ci PUBLICADA_EM s
  then date_at (List.skipn (List.length PUBLICADA_EM) s)
  else None.

(** The lazy [.*?] before the marker: the least number of characters to
    skip so that the marker follows, and the date found there. *)
Fixpoint find_marker (s : pystr) : option (nat * pystr) :=
  match marker_at s with
  | Some d => Some (O, d)
  | None =>
      match s with
      | [] => None
      | _ :: rest =>
          match find_marker rest with
          | Some (j, d) => Some (S j, d)
          | None => None
          end
      end
  end.

(** A match object: [group(0)] and [group(2)]. *)
Record re_match := { group0 : pystr; group2 : pystr }.

(** The alternatives are tried in order at the start of [s]; the first one
    after which the marker can be reached gives the match. *)
Fixpoint agressivo_alts_at (alts : list pystr) (s : pystr) : option re_match :=
  match alts with
  | [] => None
  | p :: alts' =>
      if prefix_ci p s then
        match find_marker (List.skipn (List.length p) s) with
        | Some (j, d) =>
            Some {| group0 :=
                      List.firstn (List.length p + j
                                   + List.length PUBLICADA_EM + 10)%nat s;
                    group2 := d |}
        | None => agressivo_alts_at alts' s
        end
      else agressivo_alts_at alts' s
  end.

Definition agressivo_at (s : pystr) : option re_match :=
  agressivo_alts_at AGRESSIVO_alts s.

(** [REGEX_DATA_TITULO_AGRESSIVO.finditer(text)]: the non-overlapping
    matches from left to right. [skip] counts the characters of the
    previous match that are still to be passed. *)
Fixpoint finditer_go (skip : nat) (s : pystr) : list re_match :=
  match s with
  | [] => []
  | _ :: rest =>
      match skip with
      | S k => finditer_go k rest
      | O =>
          match agressivo_at s with
          | Some m => m :: finditer_go (List.length (group0 m) - 1) rest
          | None => finditer_go O rest
          end
      end
  end.

Definition AGRESSIVO_finditer (text : pystr) : list re_match :=
  finditer_go O text.

(** ** Dates (lines 86-94) *)

(** A [datetime] at midnight: every one the program builds is. Python
    compares them field by field. *)
Record datetime := { year : N; month : N; day : N }.

Definition datetime_ltb (a b : datetime) : bool :=
  (year a <? year b)
  || ((year a =? year b)
      && ((month a <? month b)
          || ((month a =? month b) && (day a <? day b)))).

Definition datetime_leb (a b : datetime) : bool := negb (datetime_ltb b a).

Definition is_leap (y : N) : bool :=
  ((y mod 4 =? 0) && negb (y mod 100 =? 0)) || (y mod 400 =? 0).

Definition days_in_month (y m : N) : N :=
  if m =? 2 then (if is_leap y then 29 else 28)
  else if (m =? 4) || (m =? 6) || (m =? 9) || (m =? 11) then 30
  else 31.

(** [int] of a string of decimal digits. *)
Definition int_of_digits (ds : pystr) : N :=
  List.fold_left
    (fun acc c => 10 * acc + match decimal_value c with Some v => v | None => 0 end)
    ds 0.

(** The directives of [strptime]: [%d] accepts 01-09, 1x, 2x, 30 and 31 and
    [%m] accepts 01-09 and 10-12; the digits these write out are ASCII,
    an x is any digit. [%Y] accepts any four digits. *)
Definition directive_d (d1 d2 : char) : bool :=
  ((d1 =? 0x33) && ((d2 =? 0x30) || (d2 =? 0x31)))
  || (((d1 =? 0x31) || (d1 =? 0x32)) && is_digit d2)
  || ((d1 =? 0x30) && (0x31 <=? d2) && (d2 <=? 0x39)).

Definition directive_m (m1 m2 : char) : bool :=
  ((m1 =? 0x31) && (0x30 <=? m2) && (m2 <=? 0x32))
  || ((m1 =? 0x30) && (0x31 <=? m2) && (m2 <=? 0x39)).

Definition directive_Y (y1 y2 y3 y4 : char) : bool :=
  is_digit y1 && is_digit y2 && is_digit y3 && is_digit y4.

(** [datetime.strptime(date_str, "%d/%m/%Y")] on a string of the shape
    matched by [DATE_PATTERN], the only ones it is called with; [None] is
    [ValueError]. The fields are read with [int] and the date is checked
    against the calendar, years starting at 1. *)
Definition strptime_dmY (date_str : pystr) : option datetime :=
  match date_str with
  | [d1; d2; s1; m1; m2; s2; y1; y2; y3; y4] =>
      if directive_d d1 d2 && (s1 =? 0x2F) && directive_m m1 m2
         && (s2 =? 0x2F) && directive_Y y1 y2 y3 y4 then
        let d := int_of_digits [d1; d2] in
        let m := int_of_digits [m1; m2] in
        let y := int_of_digits [y1; y2; y3; y4] in
        if (1 <=? y) && (d <=? days_in_month y m)
        then Some {| year := y; month := m; day := d |}
        else None
      else None
  | _ => None
  end.

(** [extract_date_from_text] *)
Definition extract_date_from_text (text : pystr) : option datetime :=
  match DATE_PATTERN_search text with
  | Some date_str => strptime_dmY date_str
  | None => None
  end.

(** ** Parsed pages (BeautifulSoup) *)

(** A page element. Plain text is a [NavigableString]; comments, doctypes
    and the strings inside script, style and template elements are the
    special string classes, which [get_text] leaves out. *)
#[local] Unset Elimination Schemes.
Inductive node :=
| NavigableString (s : pystr)
| SpecialString (s : pystr)
| Tag (name : pystr) (attrs : list (pystr * pystr)) (contents : list node).
#[local] Set Elimination Schemes.

(** The [BeautifulSoup] object is the root tag, named "[document]". *)
Definition BeautifulSoup (contents : list node) : node :=
  Tag (lit "[document]") [] contents.

(** The strings of [get_text(..., strip=True)]: every plain string below
    the element, stripped, the empty ones dropped, in document order. *)
Fixpoint stripped_strings (n : node) : list pystr :=
  match n with
  | NavigableString s =>
      match strip s with
      | [] => []
      | t => [t]
      end
  | SpecialString _ => []
  | Tag _ _ cs => List.flat_map stripped_strings cs
  end.

(** [n.get_text(sep, strip=True)] *)
Definition get_text (sep : pystr) (n : node) : pystr :=
  join sep (stripped_strings n).

(** [tag.string is not None]: the element has exactly one child, which is
    a string of any class or again such an element. *)
Fixpoint has_string (n : node) : bool :=
  match n with
  | NavigableString _ => true
  | SpecialString _ => true
  | Tag _ _ [c] => has_string c
  | Tag _ _ _ => false
  end.

Definition tag_named (nm : pystr) (n : node) : bool :=
  match n with
  | Tag nm' _ _ => bool_decide (nm' = nm)
  | _ => false
  end.

(** The elements below [n] in document order, each with its ancestors,
    nearest first. *)
Fixpoint descendants (parents : list node) (n : node) : list (node * list node) :=
  match n with
  | Tag _ _ cs =>
      List.flat_map (fun c => (c, n :: parents) :: descendants (n :: parents) c) cs
  | _ => []
  end.

(** [soup.find_all("a", string=True)]: the [a] elements whose [.string]
    is defined. *)
Definition find_all_a (soup : node) : list (node * list node) :=
  List.filter (fun ap => tag_named (lit "a") (fst ap) && has_string (fst ap))
              (descendants [] soup).

(** [a.find_parent(names)]: the nearest ancestor with one of the names. *)
Definition find_parent (names : list pystr) (parents : list node) : option node :=
  List.find (fun p => List.existsb (fun nm => tag_named nm p) names) parents.

(** [a.get("href") or ""] *)
Definition get_href (n : node) : pystr :=
  match n with
  | Tag _ attrs _ =>
      match List.find (fun kv => bool_decide (fst kv = lit "href")) attrs with
      | Some kv => snd kv
      | None => []
      end
  | _ => []
  end.

(** ** [sha256_text] (lines 74-75) *)

Definition sha256_text (s : pystr) : pystr := SHA256.hexdigest (encode_utf8 s).

(** ** The merge dictionary *)

(** A value of [dated_notes]. *)
Record note := { title : pystr; url : pystr; date : option datetime }.

(** An element of the list [find_notes] returns. *)
Record item := { item_title : pystr; item_url : pystr }.

(** [dated_notes]: keys with their values, in insertion order. *)
Definition notes_dict := list (pystr * note).

Definition dict_has (k : pystr) (d : notes_dict) : bool :=
  List.existsb (fun kv => bool_decide (fst kv = k)) d.

Definition dict_get (k : pystr) (d : notes_dict) : option note :=
  match List.find (fun kv => bool_decide (fst kv = k)) d with
  | Some kv => Some (snd kv)
  | None => None
  end.

(** [if hash_key not in dated_notes: dated_notes[hash_key] = value] *)
Definition insert_if_absent (kv : pystr * note) (d : notes_dict) : notes_dict :=
  if dict_has (fst kv) d then d else d ++ [kv].

(** The separator of the hash inputs. *)
Definition BARS : pystr := lit "||".

(** The sort key of line 151: the date, or 1 January 1900 without one. *)
Definition SENTINEL : datetime := {| year := 1900; month := 1; day := 1 |}.

Definition sort_key (n : note) : datetime :=
  match date n with
  | Some d => d
  | None => SENTINEL
  end.

(** [list.sort(key=..., reverse=True)]: the stable sort into descending
    key order. An element is placed before the first element whose key is
    not greater, so elements of equal keys keep their order. *)
Fixpoint insert_desc (x : note) (l : list note) : list note :=
  match l with
  | [] => [x]
  | y :: l' =>
      if datetime_ltb (sort_key x) (sort_key y)
      then y :: insert_desc x l'
      else x :: l
  end.

Definition sort_desc (l : list note) : list note :=
  List.fold_right insert_desc [] l.

Section Extraction.

(** [urllib.parse.urljoin] on two non-empty strings: the reference
    resolution of the library, outside the repository. *)
Variable urljoin_nonempty : pystr -> pystr -> pystr.

(** [urljoin(base, url)]: the two guards that open the library function,
    then the resolution. *)
Definition urljoin (base url_ : pystr) : pystr :=
  match base, url_ with
  | [], _ => url_
  | _, [] => base
  | _, _ => urljoin_nonempty base url_
  end.

(** *** Pass 1: links (lines 101-121) *)

(** What the loop body builds for one link when [PATTERN] matches its
    text: the hash key and the value. *)
Definition structural_candidate (base_url : pystr) (ap : node * list node)
  : option (pystr * note) :=
  let (a, parents) := ap in
  let text := get_text [] a in
  if PATTERN_search text then
    let href := get_href a in
    let full_url := urljoin base_url href in
    let item_container :=
      match find_parent [lit "tr"] parents with
      | Some c => Some c
      | None => find_parent [lit "li"; lit "div"; lit "p"] parents
      end in
    let item_text :=
      match item_container with
      | Some c => get_text (lit " ") c
      | None => text
      end in
    let date_obj := extract_date_from_text item_text in
    let hash_key := sha256_text (text ++ BARS ++ full_url) in
    Some (hash_key, {| title := text; url := full_url; date := date_obj |})
  else None.

Definition structural_step (base_url : pystr) (dated_notes : notes_dict)
  (ap : node * list node) : notes_dict :=
  match structural_candidate base_url ap with
  | Some kv => insert_if_absent kv dated_notes
  | None => dated_notes
  end.

(** *** Pass 2: the aggressive pattern (lines 123-144) *)

(** [' '.join(soup.get_text(" ", strip=True).split())] *)
Definition texto_simples (soup : node) : pystr :=
  join (lit " ") (split (get_text (lit " ") soup)).

Definition aggressive_candidate (base_url : pystr) (m : re_match)
  : option (pystr * note) :=
  let titulo_completo := strip (group0 m) in
  let data_publicacao_str := group2 m in
  if (50 <? List.length titulo_completo)%nat
     && (List.length titulo_completo <? 1000)%nat then
    let date_obj := extract_date_from_text data_publicacao_str in
    let hash_key :=
      sha256_text (List.firstn 150 titulo_completo ++ BARS ++ base_url) in
    Some (hash_key,
          {| title := titulo_completo; url := base_url; date := date_obj |})
  else None.

Definition aggressive_step (base_url : pystr) (dated_notes : notes_dict)
  (m : re_match) : notes_dict :=
  match aggressive_candidate base_url m with
  | Some kv => insert_if_absent kv dated_notes
  | None => dated_notes
  end.

(** *** [find_notes] on a parsed page *)

(** [dated_notes] after the first loop and after both. *)
Definition structural_pass (soup : node) (base_url : pystr) : notes_dict :=
  List.fold_left (structural_step base_url) (find_all_a soup) [].

Definition merged (soup : node) (base_url : pystr) : notes_dict :=
  List.fold_left (aggressive_step base_url)
                 (AGRESSIVO_finditer (texto_simples soup))
                 (structural_pass soup base_url).

(** [final_list] after the sort. *)
Definition final_list (soup : node) (base_url : pystr) : list note :=
  sort_desc (List.map snd (merged soup base_url)).

Definition find_notes_soup (soup : node) (base_url : pystr) : list item :=
  List.map (fun n => {| item_title := title n; item_url := url n |})
           (final_list soup base_url).

(** [BeautifulSoup(html, "html.parser")]: the parser, outside the
    repository, gives the top-level elements of the page. *)
Variable html_parser : pystr -> list node.

(** [find_notes] (lines 96-156) *)
Definition find_notes (html base_url : pystr) : list item :=
  find_notes_soup (BeautifulSoup (html_parser html)) base_url.

End Extraction.

(** ** The run (lines 30-42, 64-84, 288-334) *)

(** [URLS_PORTAIS], in the order of the dictionary literal. *)
Definition URLS_PORTAIS : list (pystr * pystr) :=
  [(lit "Nota Técnica NF-e e NFC-e - Ambiente Nacional",
    lit "https://www.nfe.fazenda.gov.br/portal/listaConteudo.aspx?tipoConteudo=04BIflQt1aY=");
   (lit "Informe Técnico NF-e e NFC-e - Ambiente Nacional",
    lit "https://www.nfe.fazenda.gov.br/portal/listaConteudo.aspx?tipoConteudo=hXzemuyNHW4=");
   (lit "Nota Técnica MDFe - Ambiente Padrão e Nacional",
    lit "https://dfe-portal.svrs.rs.gov.br/Mdfe/Documentos");
   (lit "Nota Técnica CTe - Ambiente Padrão e Nacional",
    lit "https://www.cte.fazenda.gov.br/portal/listaConteudo.aspx?tipoConteudo=Y0nErnoZpsg=");
   (lit "Nota Técnica NFCom - MG",
    lit "https://portalsped.fazenda.mg.gov.br/spedmg/nfcom/Documentos/");
   (lit "Nota Técnica NF3e - MG",
    lit "https://portalsped.fazenda.mg.gov.br/spedmg/nf3e/Documentos/");
   (lit "Nota Técnica NF-e - MG",
    lit "https://portalsped.fazenda.mg.gov.br/spedmg/nfe/");
   (lit "Nota Técnica NFC-e - MG",
    lit "https://portalsped.fazenda.mg.gov.br/spedmg/nfce/");
   (lit "Nota Técnica MDFe - MG",
    lit "https://portalsped.fazenda.mg.gov.br/spedmg/mdfe/");
   (lit "Nota Técnica CTe - MG",
    lit "https://portalsped.fazenda.gov.br/spedmg/cte/")].

(** A value of the seen-state dictionary. *)
Record seen_record := {
  sr_title : pystr;
  sr_url : pystr;
  sr_portal : pystr;
  sr_first_seen : pystr
}.

(** What [requests.get(url, headers=HEADERS, timeout=20)] does: it raises
    (time-out, connection or transport error, too many redirects) or it
    returns a response with a status code and a body. *)
Inductive http_outcome :=
| Raises (e : pystr)
| Response (status_code : N) (text : pystr).

(** [resp.raise_for_status()] raises [HTTPError] for the client and server
    error codes, 400 to 599. *)
Definition raises_for_status (status_code : N) : bool :=
  (400 <=? status_code) && (status_code <? 600).

(** What the run reads from outside: the network, the clock (the value of
    [datetime.now().isoformat()] at its n-th reading in the run), the
    content of [seen_hashes.json] when the file exists, and the
    environment variable [SENHA_APP]. *)
Record world := {
  requests_get : pystr -> http_outcome;
  now_isoformat : nat -> pystr;
  seen_file : option (gmap pystr seen_record);
  SENHA_EMAIL : option pystr
}.

(** The lines the program prints. *)
Inductive log_line :=
| LogStart
| LogNoPassword
| LogChecking (portal url_ : pystr)
| LogWarn (url_ e : pystr)
| LogNewItems (n : nat) (portal : pystr)
| LogSending (total : nat)
| LogNothingNew.

(** [load_seen] *)
Definition load_seen (w : world) : gmap pystr seen_record :=
  match seen_file w with
  | None => ∅
  | Some data => data
  end.

(** [fetch_url]: the page text, or [None] with a warning when the request
    or the status check raised. *)
Definition fetch_url (w : world) (url_ : pystr) : option pystr * list log_line :=
  match requests_get w url_ with
  | Raises e => (None, [LogWarn url_ e])
  | Response status_code text =>
      if raises_for_status status_code
      then (None, [LogWarn url_ (lit "HTTPError")])
      else (Some text, [])
  end.

(** The variables of [main] that its loops update. *)
Record run_state := {
  updated_seen : gmap pystr seen_record;
  new_found_by_portal : list (pystr * list item);
  stdout : list log_line;
  clock_reads : nat
}.

(** [d[k] = v] on a dictionary kept in insertion order. *)
Fixpoint dict_set {V : Type} (k : pystr) (v : V) (d : list (pystr * V))
  : list (pystr * V) :=
  match d with
  | [] => [(k, v)]
  | (k', v') :: d' =>
      if bool_decide (k' = k) then (k, v) :: d' else (k', v') :: dict_set k v d'
  end.

(** The key of the seen-state check (lines 310-311). *)
Definition seen_key (n : item) : pystr :=
  sha256_text (item_title n ++ BARS ++ item_url n).

Section Run.

Variable urljoin_nonempty : pystr -> pystr -> pystr.
Variable html_parser : pystr -> list node.
Variable w : world.

(** The body of [for n in notes] (lines 308-320); the state is
    [updated_seen], [portal_new_items] and the clock readings so far. *)
Definition note_step (seen : gmap pystr seen_record) (portal : pystr)
  (st : gmap pystr seen_record * list item * nat) (n : item)
  : gmap pystr seen_record * list item * nat :=
  let '(upd, portal_new_items, reads) := st in
  let h := seen_key n in
  match seen !! h with
  | None =>
      (<[h := {| sr_title := item_title n; sr_url := item_url n;
                 sr_portal := portal;
                 sr_first_seen := now_isoformat w reads |}]> upd,
       portal_new_items ++ [n],
       S reads)
  | Some _ => st
  end.

(** The body of [for portal, url in URLS_PORTAIS.items()] (lines 297-324). *)
Definition portal_step (seen : gmap pystr seen_record) (st : run_state)
  (pu : pystr * pystr) : run_state :=
  let (portal, url_) := pu in
  let (html, warn) := fetch_url w url_ in
  let out := stdout st ++ [LogChecking portal url_] ++ warn in
  match html with
  | None | Some [] =>
      {| updated_seen := updated_seen st;
         new_found_by_portal := new_found_by_portal st;
         stdout := out;
         clock_reads := clock_reads st |}
  | Some html =>
      let notes := find_notes urljoin_nonempty html_parser html url_ in
      let '(upd, portal_new_items, reads) :=
        List.fold_left (note_step seen portal) notes
                       (updated_seen st, [], clock_reads st) in
      match portal_new_items with
      | [] =>
          {| updated_seen := upd;
             new_found_by_portal := new_found_by_portal st;
             stdout := out;
             clock_reads := reads |}
      | _ =>
          {| updated_seen := upd;
             new_found_by_portal :=
               dict_set portal portal_new_items (new_found_by_portal st);
             stdout := out ++ [LogNewItems (List.length portal_new_items) portal];
             clock_reads := reads |}
      end
  end.

(** The loop over a registry, from the state before it. *)
Definition run_portals (seen : gmap pystr seen_record)
  (portals : list (pystr * pystr)) (st : run_state) : run_state :=
  List.fold_left (portal_step seen) portals st.

(** What a run leaves behind: the dictionary written by [save_seen], the
    argument of [send_email] when it is called, and the printed lines. *)
Record run_result := {
  saved : gmap pystr seen_record;
  emailed : option (list (pystr * list item));
  printed : list log_line
}.

Definition total_new (found : list (pystr * list item)) : nat :=
  List.fold_right (fun kv acc => (List.length (snd kv) + acc)%nat) O found.

(** The state before the loop (lines 289-295). *)
Definition initial_state : run_state :=
  {| updated_seen := load_seen w;
     new_found_by_portal := [];
     stdout := LogStart ::
               match SENHA_EMAIL w with
               | None | Some [] => [LogNoPassword]
               | Some _ => []
               end;
     clock_reads := O |}.

(** [main] over a registry. *)
Definition main_on (portals : list (pystr * pystr)) : run_result :=
  let seen := load_seen w in
  let st := run_portals seen portals initial_state in
  let total_new_items := total_new (new_found_by_portal st) in
  {| saved := updated_seen st;
     emailed := if (0 <? total_new_items)%nat
                then Some (new_found_by_portal st) else None;
     printed := stdout st ++
                [if (0 <? total_new_items)%nat
                 then LogSending total_new_items else LogNothingNew] |}.

(** [main] (lines 288-334) *)
Definition main : run_result := main_on URLS_PORTAIS.

End Run.

(** ** The message (lines 158-245) *)

(** [CLEANUP_PATTERN.sub('', s)]: the matches of "Publicada em " and a
    date, ignoring case, are removed from left to right. [skip] counts the
    characters of the current match that are still to be dropped. *)
Fixpoint cleanup_go (skip : nat) (s : pystr) : pystr :=
  match s with
  | [] => []
  | c :: rest =>
      match skip with
      | S k => cleanup_go k rest
      | O =>
          match marker_at s with
          | Some _ => cleanup_go 22 rest
          | None => c :: cleanup_go O rest
          end
      end
  end.

Definition CLEANUP_sub (s : pystr) : pystr := cleanup_go O s.

(** [s.startswith(p)] *)
Fixpoint startswith (p s : pystr) : bool :=
  match p, s with
  | [], _ => true
  | c :: p', c' :: s' => (c =? c') && startswith p' s'
  | _ :: _, [] => false
  end.

(** [s.strip(chars)] *)
Fixpoint lstrip_chars (chars s : pystr) : pystr :=
  match s with
  | c :: s' => if List.existsb (N.eqb c) chars then lstrip_chars chars s' else s
  | [] => []
  end.

Definition strip_chars (chars s : pystr) : pystr :=
  List.rev (lstrip_chars chars (List.rev (lstrip_chars chars s))).

(** The title that a row shows (lines 218-234). *)
Definition clean_title (portal raw_title : pystr) : pystr :=
  let title_clean := strip (CLEANUP_sub raw_title) in
  let title_clean :=
    if (80 <? List.length title_clean)%nat then
      let title_clean :=
        if startswith portal title_clean
        then strip_chars (lit " -:") (List.skipn (List.length portal) title_clean)
        else title_clean in
      if (80 <? List.length title_clean)%nat
      then List.firstn 77 title_clean ++ lit "..."
      else title_clean
    else title_clean in
  match title_clean with
  | [] => raw_title
  | _ => title_clean
  end.

(** [URLS_PORTAIS[portal]]; [None] is [KeyError]. *)
Definition registry_get (portal : pystr) : option pystr :=
  match List.find (fun pu => bool_decide (fst pu = portal)) URLS_PORTAIS with
  | Some pu => Some (snd pu)
  | None => None
  end.

(** A row of the table of the message: the portal, the title shown, the
    target of its link, the page of the portal, and whether the row has
    the light background ([i % 2 == 0]). *)
Record email_row := {
  row_portal : pystr;
  row_title : pystr;
  row_href : pystr;
  row_origin : pystr;
  row_light : bool
}.

(** The rows for the items of one portal, from row counter [i]; the
    counter after them. *)
Fixpoint rows_items (portal : pystr) (i : nat) (items : list item)
  : option (list email_row * nat) :=
  match items with
  | [] => Some ([], i)
  | it :: rest =>
      match registry_get portal with
      | None => None
      | Some origin =>
          match rows_items portal (S i) rest with
          | Some (rows, i') =>
              Some ({| row_portal := portal;
                       row_title := clean_title portal (item_title it);
                       row_href := item_url it;
                       row_origin := origin;
                       row_light := Nat.even i |} :: rows, i')
          | None => None
          end
      end
  end.

(** The loop of lines 215-245: at most three items of each portal. *)
Fixpoint rows_table (i : nat) (table : list (pystr * list item))
  : option (list email_row) :=
  match table with
  | [] => Some []
  | (portal, items) :: rest =>
      match rows_items portal i (List.firstn 3 items) with
      | Some (rows, i') =>
          match rows_table i' rest with
          | Some more => Some (rows ++ more)
          | None => None
          end
      | None => None
      end
  end.

(** What [send_email] composes: the number announced in the subject and
    the rows; [None] when a portal of the table is not in the registry. *)
Record email_message := { msg_total : nat; msg_rows : list email_row }.

Definition compose_email (new_items_by_portal : list (pystr * list item))
  : option email_message :=
  match rows_table O new_items_by_portal with
  | Some rows =>
      Some {| msg_total := total_new new_items_by_portal; msg_rows := rows |}
  | None => None
  end.

(** * Vocabulary of the properties *)

(** ** Dates *)

(** Two digits, slash, two digits, slash, four digits. *)
Definition date_shaped (ds : pystr) : Prop :=
  exists d1 d2 m1 m2 y1 y2 y3 y4,
    ds = [d1; d2; 0x2F; m1; m2; 0x2F; y1; y2; y3; y4]
    /\ is_digit d1 = true /\ is_digit d2 = true
    /\ is_digit m1 = true /\ is_digit m2 = true
    /\ is_digit y1 = true /\ is_digit y2 = true
    /\ is_digit y3 = true /\ is_digit y4 = true.

(** The three fields of a shaped string, read as numbers. *)
Definition day_field (ds : pystr) : N := int_of_digits (List.firstn 2 ds).
Definition month_field (ds : pystr) : N :=
  int_of_digits (List.firstn 2 (List.skipn 3 ds)).
Definition year_field (ds : pystr) : N :=
  int_of_digits (List.firstn 4 (List.skipn 6 ds)).

(** A date of the calendar: years from 1, months 1 to 12, days within the
    month. *)
Definition calendar_valid (y m d : N) : Prop :=
  1 <= y /\ 1 <= m <= 12 /\ 1 <= d <= days_in_month y m.

Definition ascii_digits (ds : pystr) : Prop :=
  List.Forall (fun c => c = 0x2F \/ 0x30 <= c <= 0x39) ds.

#[global] Instance datetime_eq_dec : EqDecision datetime.
Proof. solve_decision. Defined.

(** ** The order of the result *)

(** Non-increasing sort keys: every element's key is at least the key of
    each element after it. *)
Definition key_geb (a b : note) : Prop :=
  datetime_leb (sort_key b) (sort_key a) = true.

Definition sorted_desc (l : list note) : Prop := StronglySorted key_geb l.

(** No candidate without date comes before a dated one. *)
Definition undated_last (l : list note) : Prop :=
  forall i j u d,
    l !! i = Some u -> l !! j = Some d ->
    date u = None -> is_Some (date d) -> (j < i)%nat.

(** ** The merge *)

(** Inserting a list of candidates in order, each only under a new key. *)
Definition merge_all (cands : list (pystr * note)) (d : notes_dict) : notes_dict :=
  List.fold_left (fun d kv => insert_if_absent kv d) cands d.

Definition has_key (k : pystr) (kv : pystr * note) : bool :=
  bool_decide (fst kv = k).

(** The element of the result for a value of the dictionary. *)
Definition to_item (n : note) : item :=
  {| item_title := title n; item_url := url n |}.

Section ExtractionVocabulary.

Variable urljoin_nonempty : pystr -> pystr -> pystr.

Local Abbreviation structural_candidate := (structural_candidate urljoin_nonempty).

(** What each loop offers to the dictionary, in order. *)
Definition structural_candidates (soup : node) (base_url : pystr)
  : list (pystr * note) :=
  omap (structural_candidate base_url) (find_all_a soup).

End ExtractionVocabulary.

(** What the second loop offers to the dictionary, in order. *)
Definition aggressive_candidates (soup : node) (base_url : pystr)
  : list (pystr * note) :=
  omap (aggressive_candidate base_url) (AGRESSIVO_finditer (texto_simples soup)).

(** ** Runs *)

Section RunVocabulary.

Variable urljoin_nonempty : pystr -> pystr -> pystr.
Variable html_parser : pystr -> list node.

Local Abbreviation find_notes := (find_notes urljoin_nonempty html_parser).

(** The notes found at a portal: none when the fetch gives no page. *)
Definition portal_notes (w : world) (pu : pystr * pystr) : list item :=
  match fst (fetch_url w (snd pu)) with
  | Some (c :: html) => find_notes (c :: html) (snd pu)
  | _ => []
  end.

(** A note whose key is not in the dictionary loaded at the start. *)
Definition is_new (seen : gmap pystr seen_record) (n : item) : bool :=
  bool_decide (seen !! seen_key n = None).

Definition news (w : world) (seen : gmap pystr seen_record) (pu : pystr * pystr)
  : list item :=
  List.filter (is_new seen) (portal_notes w pu).

(** The new notes of a run with their portals, in the order in which the
    run meets them. *)
Definition observations (w : world) (seen : gmap pystr seen_record)
  (portals : list (pystr * pystr)) : list (pystr * item) :=
  List.flat_map (fun pu => List.map (pair (fst pu)) (news w seen pu)) portals.

(** The record written for the observation that reads the clock for the
    [r]-th time. *)
Definition record_of (w : world) (portal : pystr) (n : item) (r : nat) : seen_record :=
  {| sr_title := item_title n; sr_url := item_url n; sr_portal := portal;
     sr_first_seen := now_isoformat w r |}.

Definition record_obs (w : world) (st : gmap pystr seen_record * nat)
  (pn : pystr * item) : gmap pystr seen_record * nat :=
  (<[seen_key (snd pn) := record_of w (fst pn) (snd pn) (snd st)]> (fst st),
   S (snd st)).

(** What the loop does to the table of new items at one portal. *)
Definition found_step (w : world) (seen : gmap pystr seen_record)
  (d : list (pystr * list item)) (pu : pystr * pystr) : list (pystr * list item) :=
  match news w seen pu with
  | [] => d
  | l => dict_set (fst pu) l d
  end.

(** [requests.get] raised, or the status check did. *)
Definition fetch_raises (w : world) (url_ : pystr) : bool :=
  match requests_get w url_ with
  | Raises _ => true
  | Response status_code _ => raises_for_status status_code
  end.

(** The entry of the table of new items for a portal. *)
Definition found_entry (w : world) (seen : gmap pystr seen_record)
  (pu : pystr * pystr) : option (pystr * list item) :=
  match news w seen pu with
  | [] => None
  | l => Some (fst pu, l)
  end.

(** The items that a run reports for a portal. *)
Definition reported (r : run_result) (portal : pystr) : list item :=
  match emailed r with
  | Some found =>
      match List.find (fun kv => bool_decide (fst kv = portal)) found with
      | Some kv => snd kv
      | None => []
      end
  | None => []
  end.

End RunVocabulary.

(** ** Pages and collaborators of the examples *)

Module Fixtures.

(** A reference resolution for the examples: a reference that names a
    scheme is the result; any other reference replaces what follows the
    last slash of the base. *)
Fixpoint contains (sub s : pystr) : bool :=
  match s with
  | [] => bool_decide (sub = [])
  | _ :: rest =>
      bool_decide (List.firstn (List.length sub) s = sub) || contains sub rest
  end.

Fixpoint drop_last_segment (rev_base : pystr) : pystr :=
  match rev_base with
  | [] => []
  | c :: rest => if c =? 0x2F then rev_base else drop_last_segment rest
  end.

Definition resolve_reference (base ref : pystr) : pystr :=
  if contains (lit "://") ref then ref
  else List.rev (drop_last_segment (List.rev base)) ++ ref.

Definition base_test : pystr := lit "https://portal.test/docs/".

Definition link (href text : pystr) : node :=
  Tag (lit "a") [(lit "href", href)] [NavigableString text].

(** The scenario of the specification: a link in a table row whose text
    also gives the publication date. *)
Definition page_row : list node :=
  [Tag (lit "table") []
     [Tag (lit "tr") []
        [Tag (lit "td") [] [link (lit "doc1.pdf") (lit "Nota Técnica 2024.001")];
         Tag (lit "td") [] [NavigableString (lit "Publicada em 29/09/2024")]]]].

(** A link without target whose text is also a match of the aggressive
    pattern: both passes compute the same key. *)
Definition title_both : pystr :=
  lit "Nota Técnica 2024.001 - Leiaute da NF-e Publicada em 29/09/2024".

Definition page_both : list node :=
  [Tag (lit "p") [] [Tag (lit "a") [] [NavigableString title_both]]].

(** A link without date, then a link dated before 1900. *)
Definition page_1899 : list node :=
  [link (lit "a.pdf") (lit "Nota Técnica 1");
   Tag (lit "p") []
     [link (lit "b.pdf") (lit "Nota Técnica 2");
      NavigableString (lit " de 31/12/1899")]].

(** A link whose content is a string followed by an element. *)
Definition page_mixed : list node :=
  [Tag (lit "a") [(lit "href", lit "z.pdf")]
     [NavigableString (lit "Nota Técnica ");
      Tag (lit "b") [] [NavigableString (lit "2024")]]].

(** The candidate that both passes build from [page_both]. *)
Definition cand_both : pystr * note :=
  (sha256_text (title_both ++ BARS ++ base_test),
   {| title := title_both; url := base_test;
      date := Some {| year := 2024; month := 9; day := 29 |} |}).

End Fixtures.

(** ** Worlds of the examples *)

Module Worlds.

Import Fixtures.

(** The text of the page of the scenario and of a page whose link has an
    absolute target. *)
Definition html_row : pystr :=
  lit "<table><tr><td><a href='doc1.pdf'>Nota Técnica 2024.001</a></td><td>Publicada em 29/09/2024</td></tr></table>".

Definition html_abs : pystr :=
  lit "<a href='https://www.nfe.fazenda.gov.br/docs/NT2024.001.pdf'>Nota Técnica 2024.001</a>".

Definition page_abs : list node :=
  [link (lit "https://www.nfe.fazenda.gov.br/docs/NT2024.001.pdf")
        (lit "Nota Técnica 2024.001")].

(** The trees that the parser builds for the two pages. *)
Definition parser (html : pystr) : list node :=
  if bool_decide (html = html_row) then page_row
  else if bool_decide (html = html_abs) then page_abs
  else [].

(** Successive readings of the clock. *)
Definition clock (r : nat) : pystr :=
  lit "2024-10-01T08:00:0" ++ [0x30 + N.of_nat r].

Definition portal_1 : pystr * pystr := List.nth 0 URLS_PORTAIS ([], []).
Definition portal_2 : pystr * pystr := List.nth 1 URLS_PORTAIS ([], []).

(** Only the first portal answers, with the page of the scenario; the
    seen-state file does not exist. *)
Definition world_first : world :=
  {| requests_get := fun u =>
       if bool_decide (u = snd portal_1) then Response 200 html_row
       else Raises (lit "ReadTimeout");
     now_isoformat := clock;
     seen_file := None;
     SENHA_EMAIL := Some (lit "senha") |}.

(** The next run: the same answers, the file that the first run saved. *)
Definition world_second (saved_before : gmap pystr seen_record) : world :=
  {| requests_get := requests_get world_first;
     now_isoformat := fun r => lit "2024-10-02T08:00:0" ++ [0x30 + N.of_nat r];
     seen_file := Some saved_before;
     SENHA_EMAIL := Some (lit "senha") |}.

(** The first two portals list the same document by an absolute link. *)
Definition world_shared : world :=
  {| requests_get := fun u =>
       if bool_decide (u = snd portal_1) || bool_decide (u = snd portal_2)
       then Response 200 html_abs
       else Raises (lit "ReadTimeout");
     now_isoformat := clock;
     seen_file := None;
     SENHA_EMAIL := Some (lit "senha") |}.

(** The first portal answers the page of the scenario with status 300. *)
Definition world_300 : world :=
  {| requests_get := fun u =>
       if bool_decide (u = snd portal_1) then Response 300 html_row
       else Raises (lit "ReadTimeout");
     now_isoformat := clock;
     seen_file := None;
     SENHA_EMAIL := Some (lit "senha") |}.

(** The first portal answers with an empty text, the second with the page
    of the scenario. *)
Definition world_blank : world :=
  {| requests_get := fun u =>
       if bool_decide (u = snd portal_1) then Response 200 []
       else if bool_decide (u = snd portal_2) then Response 200 html_row
       else Raises (lit "ReadTimeout");
     now_isoformat := clock;
     seen_file := None;
     SENHA_EMAIL := Some (lit "senha") |}.

Definition note_row : item :=
  {| item_title := lit "Nota Técnica 2024.001";
     item_url := lit "https://www.nfe.fazenda.gov.br/portal/doc1.pdf" |}.

Definition note_abs : item :=
  {| item_title := lit "Nota Técnica 2024.001";
     item_url := lit "https://www.nfe.fazenda.gov.br/docs/NT2024.001.pdf" |}.

End Worlds.

(** ** Vocabulary of the further properties *)

(** A lower-case hexadecimal digit. *)
Definition is_lower_hex (c : char) : bool :=
  ((0x30 <=? c) && (c <=? 0x39)) || ((0x61 <=? c) && (c <=? 0x66)).

(** The length filter of the second loop, on a match. *)
Definition length_ok (m : re_match) : bool :=
  (50 <? List.length (group0 m))%nat && (List.length (group0 m) <? 1000)%nat.

(** The text made of gaps and matches in turn, then a tail. *)
Fixpoint interleave (gaps ms : list pystr) (tail : pystr) : pystr :=
  match gaps, ms with
  | g :: gaps', m :: ms' => g ++ m ++ interleave gaps' ms' tail
  | _, _ => tail
  end.

(** A text reads as words and single spaces: after a space ([after_space])
    a word must start, and the text does not end after a space. *)
Fixpoint spaced (after_space : bool) (t : pystr) : bool :=
  match t with
  | [] => negb after_space
  | c :: t' =>
      if c =? 0x20 then negb after_space && spaced true t'
      else negb (isspace c) && spaced false t'
  end.

(** The number of rows of the message for a table: at most three for
    each portal. *)
Definition rows_count (table : list (pystr * list item)) : nat :=
  List.fold_right (fun kv acc => (Nat.min 3 (List.length (snd kv)) + acc)%nat)
                  O table.

(** The lines that the loop of [main] prints at one portal: the line that
    announces the check, the warning of [fetch_url] if there is one, and
    the count of the new notes if there are any. *)
Section LogVocabulary.

Variable urljoin_nonempty : pystr -> pystr -> pystr.
Variable html_parser : pystr -> list node.

Definition portal_log (w : world) (seen : gmap pystr seen_record)
  (pu : pystr * pystr) : list log_line :=
  [LogChecking (fst pu) (snd pu)]
  ++ snd (fetch_url w (snd pu))
  ++ match news urljoin_nonempty html_parser w seen pu with
     | [] => []
     | l => [LogNewItems (List.length l) (fst pu)]
     end.

End LogVocabulary.

(** The world that differs in the password only. *)
Definition with_password (w : world) (pw : option pystr) : world :=
  {| requests_get := requests_get w;
     now_isoformat := now_isoformat w;
     seen_file := seen_file w;
     SENHA_EMAIL := pw |}.

(** * Properties *)

(** ** The model on concrete inputs *)

Example PATTERN_search_upper : PATTERN_search (lit "INFORME TECNICO 3") = true.
Proof. vm_compute. reflexivity. Qed.

Example PATTERN_search_no_accent : PATTERN_search (lit "nota tecnica 3") = false.
Proof. vm_compute. reflexivity. Qed.

Example PATTERN_search_underscore :
  PATTERN_search (lit "MDFE_Nota_Tecnica_2024") = true.
Proof. vm_compute. reflexivity. Qed.

Example finditer_two_matches :
  List.map (fun m => (group0 m, group2 m))
    (AGRESSIVO_finditer
       (lit "Portal NOTA TÉCNICA 2023.004 v1.10 publicada em 01/02/2023 e Informe_Tecnico 2024.001 Publicada em 31/04/2024 fim"))
  = [(lit "NOTA TÉCNICA 2023.004 v1.10 publicada em 01/02/2023", lit "01/02/2023");
     (lit "Informe_Tecnico 2024.001 Publicada em 31/04/2024", lit "31/04/2024")].
Proof. vm_compute. reflexivity. Qed.

Example finditer_leftmost_keyword :
  List.map group0
    (AGRESSIVO_finditer (lit "Nota Técnica A Nota Técnica B Publicada em 05/06/2024"))
  = [lit "Nota Técnica A Nota Técnica B Publicada em 05/06/2024"].
Proof. vm_compute. reflexivity. Qed.

Example split_join_collapses :
  join (lit " ") (split (lit "  Nota   Técnica  1 ")) = lit "Nota Técnica 1".
Proof. vm_compute. reflexivity. Qed.

Example strptime_leap_day :
  strptime_dmY (lit "29/02/2024") = Some {| year := 2024; month := 2; day := 29 |}
  /\ strptime_dmY (lit "29/02/2023") = None
  /\ strptime_dmY (lit "00/01/2024") = None
  /\ strptime_dmY (lit "01/13/2024") = None
  /\ strptime_dmY (lit "01/01/0000") = None.
Proof. vm_compute. repeat split. Qed.

Example sha256_text_accent :
  sha256_text (lit "Nota Técnica 2024.001||https://portal.test/docs/doc1.pdf")
  = lit "f3ffd619548c1a5c4547e4084d4c96404270d5517f2806355d78adb80c89c1e4".
Proof. vm_compute. reflexivity. Qed.

(** ** Characters *)

Lemma isspace_cases (c : char) :
  isspace c = true ->
  In c [0x09; 0x0A; 0x0B; 0x0C; 0x0D; 0x1C; 0x1D; 0x1E; 0x1F; 0x20; 0x85;
        0xA0; 0x1680; 0x2000; 0x2001; 0x2002; 0x2003; 0x2004; 0x2005;
        0x2006; 0x2007; 0x2008; 0x2009; 0x200A; 0x2028; 0x2029; 0x202F;
        0x205F; 0x3000].
Proof.
  unfold isspace. intros H.
  repeat (apply orb_prop in H; destruct H as [H | H]);
    repeat (apply andb_prop in H; destruct H as [H ?]);
    repeat match goal with
           | X : (_ <=? _) = true |- _ => apply N.leb_le in X
           | X : (_ =? _) = true |- _ => apply N.eqb_eq in X
           end;
    cbn [In]; lia.
Qed.

Lemma digit_not_space (c : char) : is_digit c = true -> isspace c = false.
Proof.
  intros Hd. destruct (isspace c) eqn:Hs; [| reflexivity].
  apply isspace_cases in Hs. cbn [In] in Hs.
  repeat (destruct Hs as [Hs | Hs]; [subst c; vm_compute in Hd; discriminate |]).
  destruct Hs.
Qed.

Lemma decimal_value_ascii (c : char) :
  0x30 <= c <= 0x39 -> decimal_value c = Some (c - 0x30).
Proof.
  intros H.
  assert (Hc : In c [0x30; 0x31; 0x32; 0x33; 0x34; 0x35; 0x36; 0x37; 0x38; 0x39])
    by (cbn [In]; lia).
  cbn [In] in Hc.
  repeat (destruct Hc as [Hc | Hc]; [subst c; reflexivity |]).
  destruct Hc.
Qed.

Lemma decimal_value_lt (c : char) (v : N) : decimal_value c = Some v -> v < 10.
Proof.
  unfold decimal_value.
  destruct (List.find _ Nd_zeros) as [z |] eqn:Hf; [| discriminate].
  apply List.find_some in Hf. destruct Hf as [_ Hz].
  apply andb_prop in Hz. destruct Hz as [Hz1 Hz2].
  apply N.leb_le in Hz1. apply N.ltb_lt in Hz2.
  intros [= <-]. lia.
Qed.

(** ** The date resolver *)

Lemma date_at_Some (s d : pystr) :
  date_at s = Some d -> date_shaped d /\ exists post, s = d ++ post.
Proof.
  unfold date_at.
  destruct s as [| d1 [| d2 [| s1 [| m1 [| m2 [| s2 [| y1 [| y2 [| y3 [| y4 post]]]]]]]]]];
    try discriminate.
  destruct (_ && _) eqn:Hc; [| discriminate].
  intros [= <-].
  repeat (apply andb_prop in Hc; destruct Hc as [Hc ?]).
  repeat match goal with
         | X : (_ =? _) = true |- _ => apply N.eqb_eq in X; subst
         end.
  split; [| exists post; reflexivity].
  do 8 eexists. repeat split; eassumption.
Qed.

Lemma date_at_shaped (d post : pystr) :
  date_shaped d -> date_at (d ++ post) = Some d.
Proof.
  intros (d1 & d2 & m1 & m2 & y1 & y2 & y3 & y4 & -> & H).
  destruct H as (H1 & H2 & H3 & H4 & H5 & H6 & H7 & H8).
  cbn [app date_at]. rewrite H1, H2, H3, H4, H5, H6, H7, H8. reflexivity.
Qed.

Lemma date_at_None (s d post : pystr) :
  date_at s = None -> s = d ++ post -> ~ date_shaped d.
Proof.
  intros Hn -> Hs. rewrite (date_at_shaped _ _ Hs) in Hn. discriminate.
Qed.

(** No match: no substring has the shape. *)
Lemma DATE_PATTERN_search_None (text : pystr) :
  DATE_PATTERN_search text = None <->
  (forall pre ds post, text = pre ++ ds ++ post -> ~ date_shaped ds).
Proof.
  induction text as [| c text IH]; cbn [DATE_PATTERN_search].
  - split; [| reflexivity]. intros _ pre ds post Heq Hs.
    destruct Hs as (d1 & ? & ? & ? & ? & ? & ? & ? & -> & _).
    destruct pre; discriminate.
  - destruct (date_at (c :: text)) as [d |] eqn:Hd.
    + split; [discriminate |]. intros H. exfalso.
      apply date_at_Some in Hd. destruct Hd as [Hs [post Heq]].
      apply (H [] d post); [exact Heq | exact Hs].
    + rewrite IH. split.
      * intros H pre ds post Heq Hs. destruct pre as [| c' pre].
        -- cbn [app] in Heq. exact (date_at_None _ ds post Hd Heq Hs).
        -- cbn in Heq. injection Heq as _ Heq. exact (H pre ds post Heq Hs).
      * intros H pre ds post Heq. apply (H (c :: pre) ds post).
        cbn. rewrite Heq. reflexivity.
Qed.

(** A match: it is a shaped substring and no shaped substring starts
    before it. *)
Lemma DATE_PATTERN_search_Some (text ds : pystr) :
  DATE_PATTERN_search text = Some ds ->
  date_shaped ds /\
  exists pre post,
    text = pre ++ ds ++ post /\
    forall pre' ds' post',
      text = pre' ++ ds' ++ post' -> date_shaped ds' ->
      (List.length pre <= List.length pre')%nat.
Proof.
  induction text as [| c text IH]; cbn [DATE_PATTERN_search].
  - discriminate.
  - destruct (date_at (c :: text)) as [d |] eqn:Hd.
    + intros [= ->]. apply date_at_Some in Hd. destruct Hd as [Hs [post Heq]].
      split; [exact Hs |]. exists [], post. split; [exact Heq |].
      intros. cbn. lia.
    + intros H. destruct (IH H) as [Hs (pre & post & Heq & Hmin)].
      split; [exact Hs |]. exists (c :: pre), post. split.
      * cbn. rewrite Heq. reflexivity.
      * intros pre' ds' post' Heq' Hs'. destruct pre' as [| c' pre'].
        -- exfalso. cbn [app] in Heq'. exact (date_at_None _ ds' post' Hd Heq' Hs').
        -- cbn in Heq'. injection Heq' as _ Heq'.
           specialize (Hmin pre' ds' post' Heq' Hs'). cbn. lia.
Qed.

(** The leftmost shaped substring is the one the search returns. *)
Lemma DATE_PATTERN_search_leftmost (text pre ds post : pystr) :
  text = pre ++ ds ++ post -> date_shaped ds ->
  (forall pre' ds' post',
      text = pre' ++ ds' ++ post' -> date_shaped ds' ->
      (List.length pre <= List.length pre')%nat) ->
  DATE_PATTERN_search text = Some ds.
Proof.
  revert text. induction pre as [| c pre IH]; intros text -> Hs Hmin.
  - cbn [app]. destruct ds as [| c ds].
    + destruct Hs as (? & ? & ? & ? & ? & ? & ? & ? & [=] & _).
    + cbn [app DATE_PATTERN_search].
      change (c :: ds ++ post) with ((c :: ds) ++ post).
      rewrite (date_at_shaped _ _ Hs). reflexivity.
  - cbn [app DATE_PATTERN_search].
    destruct (date_at (c :: pre ++ ds ++ post)) as [d |] eqn:Hd.
    + exfalso. apply date_at_Some in Hd. destruct Hd as [Hs' [post' Heq]].
      specialize (Hmin [] d post' Heq Hs'). cbn in Hmin. lia.
    + apply IH; [reflexivity | exact Hs |].
      intros pre' ds' post' Heq Hs'.
      specialize (Hmin (c :: pre') ds' post').
      cbn in Hmin. rewrite Heq in Hmin. specialize (Hmin eq_refl Hs'). lia.
Qed.

Lemma int_of_digits_2 (c1 c2 : char) (v1 v2 : N) :
  decimal_value c1 = Some v1 -> decimal_value c2 = Some v2 ->
  int_of_digits [c1; c2] = 10 * v1 + v2.
Proof.
  intros H1 H2. unfold int_of_digits. cbn [List.fold_left].
  rewrite H1, H2. lia.
Qed.

Lemma is_digit_value (c : char) :
  is_digit c = true -> exists v, decimal_value c = Some v /\ v < 10.
Proof.
  unfold is_digit. destruct (decimal_value c) as [v |] eqn:Hv; [| discriminate].
  intros _. exists v. split; [reflexivity | exact (decimal_value_lt _ _ Hv)].
Qed.

Ltac bool_hyps :=
  repeat match goal with
         | X : (_ || _) = true |- _ => apply orb_prop in X; destruct X as [X | X]
         | X : (_ && _) = true |- _ =>
             let Y := fresh X in apply andb_prop in X; destruct X as [X Y]
         | X : (_ <=? _) = true |- _ => apply N.leb_le in X
         | X : (_ <? _) = true |- _ => apply N.ltb_lt in X
         | X : (_ =? _) = true |- _ => apply N.eqb_eq in X
         end.

Lemma directive_d_range (d1 d2 : char) :
  directive_d d1 d2 = true -> 1 <= int_of_digits [d1; d2] <= 31.
Proof.
  unfold directive_d. intros H. bool_hyps; subst.
  - vm_compute. split; discriminate.
  - vm_compute. split; discriminate.
  - destruct (is_digit_value _ H0) as (v & Hv & Hlt).
    rewrite (int_of_digits_2 0x31 d2 1 v eq_refl Hv). lia.
  - destruct (is_digit_value _ H0) as (v & Hv & Hlt).
    rewrite (int_of_digits_2 0x32 d2 2 v eq_refl Hv). lia.
  - rewrite (int_of_digits_2 0x30 d2 0 (d2 - 0x30) eq_refl
               (decimal_value_ascii d2 ltac:(lia))). lia.
Qed.

Lemma directive_m_range (m1 m2 : char) :
  directive_m m1 m2 = true -> 1 <= int_of_digits [m1; m2] <= 12.
Proof.
  unfold directive_m. intros H. bool_hyps; subst.
  - rewrite (int_of_digits_2 0x31 m2 1 (m2 - 0x30) eq_refl
               (decimal_value_ascii m2 ltac:(lia))). lia.
  - rewrite (int_of_digits_2 0x30 m2 0 (m2 - 0x30) eq_refl
               (decimal_value_ascii m2 ltac:(lia))). lia.
Qed.

(** What [strptime] returns is the date written by the fields, day first,
    and a date of the calendar. *)
Lemma strptime_dmY_sound (ds : pystr) (dt : datetime) :
  strptime_dmY ds = Some dt ->
  dt = {| year := year_field ds; month := month_field ds; day := day_field ds |}
  /\ calendar_valid (year_field ds) (month_field ds) (day_field ds).
Proof.
  unfold strptime_dmY.
  destruct ds as [| d1 [| d2 [| s1 [| m1 [| m2 [| s2 [| y1 [| y2 [| y3 [| y4 [| ? ?]]]]]]]]]]];
    try discriminate.
  destruct (_ && _) eqn:Hc; [| discriminate].
  destruct ((1 <=? _) && _) eqn:Hv; [| discriminate].
  intros [= <-].
  unfold year_field, month_field, day_field. cbn [List.firstn List.skipn].
  split; [reflexivity |].
  repeat (apply andb_prop in Hc; destruct Hc as [Hc ?]).
  apply andb_prop in Hv. destruct Hv as [Hy Hd].
  apply N.leb_le in Hy. apply N.leb_le in Hd.
  pose proof (directive_d_range _ _ Hc).
  pose proof (directive_m_range m1 m2 ltac:(assumption)).
  unfold calendar_valid. lia.
Qed.

(** A shaped string that does not write a date of the calendar is
    rejected. *)
Lemma strptime_dmY_invalid (ds : pystr) :
  ~ calendar_valid (year_field ds) (month_field ds) (day_field ds) ->
  strptime_dmY ds = None.
Proof.
  intros Hn. destruct (strptime_dmY ds) as [dt |] eqn:H; [| reflexivity].
  exfalso. apply Hn. exact (proj2 (strptime_dmY_sound _ _ H)).
Qed.

Lemma ascii_digit_cases (c : char) :
  0x30 <= c <= 0x39 ->
  In c [0x30; 0x31; 0x32; 0x33; 0x34; 0x35; 0x36; 0x37; 0x38; 0x39].
Proof. intros H. cbn [In]. lia. Qed.

Lemma days_in_month_le (y m : N) : days_in_month y m <= 31.
Proof.
  unfold days_in_month.
  destruct (m =? 2); [destruct (is_leap y); lia |].
  destruct (_ || _); lia.
Qed.

Lemma directive_d_ascii (d1 d2 : char) :
  0x30 <= d1 <= 0x39 -> 0x30 <= d2 <= 0x39 ->
  1 <= int_of_digits [d1; d2] <= 31 -> directive_d d1 d2 = true.
Proof.
  intros H1 H2.
  apply ascii_digit_cases in H1. apply ascii_digit_cases in H2.
  cbn [In] in H1, H2.
  intros [Hlo Hhi].
  repeat (destruct H1 as [H1 | H1]; [subst d1 |]); [.. | destruct H1];
    (repeat (destruct H2 as [H2 | H2]; [subst d2 |]); [.. | destruct H2]);
    vm_compute in Hlo, Hhi |- *;
    first [reflexivity | exfalso; apply Hlo; reflexivity
           | exfalso; apply Hhi; reflexivity].
Qed.

Lemma directive_m_ascii (m1 m2 : char) :
  0x30 <= m1 <= 0x39 -> 0x30 <= m2 <= 0x39 ->
  1 <= int_of_digits [m1; m2] <= 12 -> directive_m m1 m2 = true.
Proof.
  intros H1 H2.
  apply ascii_digit_cases in H1. apply ascii_digit_cases in H2.
  cbn [In] in H1, H2.
  intros [Hlo Hhi].
  repeat (destruct H1 as [H1 | H1]; [subst m1 |]); [.. | destruct H1];
    (repeat (destruct H2 as [H2 | H2]; [subst m2 |]); [.. | destruct H2]);
    vm_compute in Hlo, Hhi |- *;
    first [reflexivity | exfalso; apply Hlo; reflexivity
           | exfalso; apply Hhi; reflexivity].
Qed.

Lemma is_digit_ascii (c : char) : 0x30 <= c <= 0x39 -> is_digit c = true.
Proof.
  intros H. unfold is_digit. rewrite (decimal_value_ascii c H). reflexivity.
Qed.

(** A shaped string of ASCII digits that writes a date of the calendar is
    parsed to that date. *)
Lemma strptime_dmY_ascii (ds : pystr) :
  date_shaped ds -> ascii_digits ds ->
  calendar_valid (year_field ds) (month_field ds) (day_field ds) ->
  strptime_dmY ds
  = Some {| year := year_field ds; month := month_field ds; day := day_field ds |}.
Proof.
  intros (d1 & d2 & m1 & m2 & y1 & y2 & y3 & y4 & -> & Hdig) Ha.
  unfold year_field, month_field, day_field, calendar_valid, ascii_digits in *.
  cbn [List.firstn List.skipn]. intros (Hy & Hm & Hd).
  repeat match goal with
         | X : List.Forall _ (_ :: _) |- _ => inversion X; clear X; subst
         end.
  destruct Hdig as (D1 & D2 & D3 & D4 & D5 & D6 & D7 & D8).
  assert (A : forall c, is_digit c = true -> c = 0x2F \/ 0x30 <= c <= 0x39 ->
                        0x30 <= c <= 0x39).
  { intros c Hc [-> | ?]; [vm_compute in Hc; discriminate | assumption]. }
  unfold strptime_dmY.
  rewrite (directive_d_ascii d1 d2) by
    (try apply A; try assumption;
     pose proof (days_in_month_le (int_of_digits [y1; y2; y3; y4])
                                  (int_of_digits [m1; m2])); lia).
  rewrite (directive_m_ascii m1 m2) by (try apply A; assumption).
  unfold directive_Y. rewrite D5, D6, D7, D8. cbn [andb N.eqb Pos.eqb].
  replace (1 <=? int_of_digits [y1; y2; y3; y4]) with true
    by (symmetry; apply N.leb_le; lia).
  replace (int_of_digits [d1; d2] <=? _) with true
    by (symmetry; apply N.leb_le; lia).
  reflexivity.
Qed.


(** The date of the scenario of the specification, a day that its month
    does not have, and a first substring that hides a later, valid one. *)
Example extract_date_29_09_2024 :
  extract_date_from_text (lit "Publicada em 29/09/2024")
  = Some {| year := 2024; month := 9; day := 29 |}.
Proof. vm_compute. reflexivity. Qed.

Example extract_date_31_04 :
  extract_date_from_text (lit "Nota de 31/04/2024") = None.
Proof. vm_compute. reflexivity. Qed.

Example extract_date_first_only :
  extract_date_from_text (lit "99/99/9999 e 01/01/2024") = None.
Proof. vm_compute. reflexivity. Qed.

(** ** The order of dates and the sort *)

Ltac dt_bool :=
  unfold datetime_leb, datetime_ltb in *; cbn [year month day] in *;
  repeat (progress
    (rewrite ?negb_true_iff, ?negb_false_iff, ?orb_true_iff, ?orb_false_iff,
       ?andb_true_iff, ?andb_false_iff, ?N.ltb_lt, ?N.ltb_ge, ?N.eqb_eq,
       ?N.eqb_neq in *)).

Lemma datetime_ltb_irrefl (a : datetime) : datetime_ltb a a = false.
Proof. destruct a. dt_bool. lia. Qed.

Lemma datetime_ltb_asym (a b : datetime) :
  datetime_ltb a b = true -> datetime_ltb b a = false.
Proof. destruct a, b. intros H. dt_bool. lia. Qed.

Lemma datetime_leb_trans (a b c : datetime) :
  datetime_leb a b = true -> datetime_leb b c = true -> datetime_leb a c = true.
Proof. destruct a, b, c. intros H1 H2. dt_bool. lia. Qed.

Lemma datetime_ltb_leb (a b : datetime) :
  datetime_ltb a b = true -> datetime_leb a b = true.
Proof. intros H. unfold datetime_leb. rewrite (datetime_ltb_asym _ _ H). reflexivity. Qed.

Lemma insert_desc_perm (x : note) (l : list note) :
  Permutation (insert_desc x l) (x :: l).
Proof.
  induction l as [| y l IH]; cbn [insert_desc].
  - reflexivity.
  - destruct (datetime_ltb (sort_key x) (sort_key y)).
    + rewrite IH. apply perm_swap.
    + reflexivity.
Qed.

Lemma sort_desc_perm (l : list note) : Permutation (sort_desc l) l.
Proof.
  induction l as [| x l IH]; cbn [sort_desc List.fold_right].
  - reflexivity.
  - fold (sort_desc l). rewrite insert_desc_perm. now apply perm_skip.
Qed.

Lemma insert_desc_sorted (x : note) (l : list note) :
  sorted_desc l -> sorted_desc (insert_desc x l).
Proof.
  unfold sorted_desc.
  induction l as [| y l IH]; cbn [insert_desc]; intros Hs.
  - constructor; [constructor | constructor].
  - inversion Hs as [| ? ? Hs' Hy]; subst.
    destruct (datetime_ltb (sort_key x) (sort_key y)) eqn:Hlt.
    + constructor; [exact (IH Hs') |].
      apply List.Forall_forall. intros z Hz.
      apply (Permutation_in _ (insert_desc_perm x l)) in Hz.
      destruct Hz as [<- | Hz].
      * unfold key_geb. apply datetime_ltb_leb. exact Hlt.
      * rewrite List.Forall_forall in Hy. exact (Hy z Hz).
    + constructor; [exact Hs |].
      assert (Hxy : key_geb x y) by (unfold key_geb, datetime_leb; rewrite Hlt; reflexivity).
      constructor; [exact Hxy |].
      eapply List.Forall_impl; [| exact Hy].
      intros z Hz. unfold key_geb in *.
      exact (datetime_leb_trans _ _ _ Hz Hxy).
Qed.

Lemma sort_desc_sorted (l : list note) : sorted_desc (sort_desc l).
Proof.
  induction l as [| x l IH]; cbn [sort_desc List.fold_right].
  - constructor.
  - apply insert_desc_sorted. exact IH.
Qed.

(** Stability: a class of elements no two of which are ordered by the key
    keeps its order. *)
Lemma insert_desc_filter (P : note -> bool) (x : note) (l : list note) :
  (forall a b, P a = true -> P b = true ->
               datetime_ltb (sort_key a) (sort_key b) = false) ->
  List.filter P (insert_desc x l) = List.filter P (x :: l).
Proof.
  intros HP. induction l as [| y l IH]; cbn [insert_desc]; [reflexivity |].
  destruct (datetime_ltb (sort_key x) (sort_key y)) eqn:Hlt; [| reflexivity].
  cbn [List.filter] in *. rewrite IH.
  destruct (P x) eqn:Px, (P y) eqn:Py; try reflexivity.
  rewrite (HP x y Px Py) in Hlt. discriminate.
Qed.

Lemma sort_desc_filter (P : note -> bool) (l : list note) :
  (forall a b, P a = true -> P b = true ->
               datetime_ltb (sort_key a) (sort_key b) = false) ->
  List.filter P (sort_desc l) = List.filter P l.
Proof.
  intros HP. induction l as [| x l IH]; [reflexivity |].
  cbn [sort_desc List.fold_right]. fold (sort_desc l).
  rewrite (insert_desc_filter P x _ HP). cbn [List.filter]. rewrite IH.
  reflexivity.
Qed.

Lemma StronglySorted_lookup {A : Type} (R : A -> A -> Prop) (l : list A)
  (i j : nat) (a b : A) :
  StronglySorted R l -> l !! i = Some a -> l !! j = Some b -> (i < j)%nat ->
  R a b.
Proof.
  intros Hs. revert i j. induction Hs as [| x l Hs IH Hx]; intros i j Hi Hj Hlt.
  - rewrite lookup_nil in Hi. discriminate.
  - destruct j as [| j]; [lia |]. cbn in Hj.
    destruct i as [| i].
    + cbn in Hi. injection Hi as <-.
      rewrite List.Forall_forall in Hx. apply Hx.
      apply list_elem_of_In. eapply list_elem_of_lookup_2. exact Hj.
    + cbn in Hi. apply (IH i j Hi Hj). lia.
Qed.

(** ** The merge dictionary *)

Lemma dict_has_app (k : pystr) (d1 d2 : notes_dict) :
  dict_has k (d1 ++ d2) = dict_has k d1 || dict_has k d2.
Proof. unfold dict_has. apply List.existsb_app. Qed.

Lemma dict_get_app (k : pystr) (d1 d2 : notes_dict) :
  dict_get k (d1 ++ d2)
  = match dict_get k d1 with Some v => Some v | None => dict_get k d2 end.
Proof.
  unfold dict_get. induction d1 as [| kv d1 IH]; cbn [app List.find]; [reflexivity |].
  destruct (bool_decide (fst kv = k)); [reflexivity | exact IH].
Qed.

Lemma dict_has_get (k : pystr) (d : notes_dict) :
  dict_has k d = false <-> dict_get k d = None.
Proof.
  unfold dict_has, dict_get. induction d as [| kv d IH]; cbn [List.existsb List.find].
  - split; reflexivity.
  - destruct (bool_decide (fst kv = k)); cbn [orb].
    + split; discriminate.
    + exact IH.
Qed.

Lemma filter_key_none (k : pystr) (d : notes_dict) :
  dict_has k d = false -> List.filter (has_key k) d = [].
Proof.
  unfold dict_has, has_key. induction d as [| kv d IH]; cbn [List.existsb List.filter];
    [reflexivity |].
  destruct (bool_decide (fst kv = k)); cbn [orb]; [discriminate | exact IH].
Qed.

(** The dictionary only grows at its end, by candidates of the list, under
    keys that were not there and that differ from each other. *)
Lemma merge_all_grows (cands : list (pystr * note)) (d : notes_dict) :
  exists added,
    merge_all cands d = d ++ added
    /\ List.Forall (fun kv => In kv cands /\ dict_has (fst kv) d = false) added
    /\ List.NoDup (List.map fst added).
Proof.
  revert d. induction cands as [| kv cands IH]; intros d; cbn [merge_all List.fold_left].
  - exists []. rewrite List.app_nil_r. repeat split; constructor.
  - fold (merge_all cands (insert_if_absent kv d)).
    destruct (IH (insert_if_absent kv d)) as (added & Heq & Hall & Hnd).
    unfold insert_if_absent in *.
    destruct (dict_has (fst kv) d) eqn:Hk.
    + exists added. split; [exact Heq |]. split; [| exact Hnd].
      eapply List.Forall_impl; [| exact Hall].
      intros x [Hin Hx]. split; [right; exact Hin | exact Hx].
    + exists (kv :: added). split; [rewrite Heq, <- List.app_assoc; reflexivity |].
      split.
      * constructor; [split; [left; reflexivity | exact Hk] |].
        eapply List.Forall_impl; [| exact Hall].
        intros x [Hin Hx]. split; [right; exact Hin |].
        rewrite dict_has_app in Hx. apply orb_false_elim in Hx. tauto.
      * cbn [List.map]. constructor; [| exact Hnd].
        intros Hin. apply List.in_map_iff in Hin. destruct Hin as (x & Hfx & Hx).
        rewrite List.Forall_forall in Hall. destruct (Hall x Hx) as [_ Hh].
        rewrite dict_has_app in Hh. apply orb_false_elim in Hh.
        destruct Hh as [_ Hh]. cbn [dict_has List.existsb] in Hh.
        rewrite orb_false_r in Hh. apply bool_decide_eq_false in Hh.
        congruence.
Qed.

(** First seen wins: a key that is present keeps its value. *)
Lemma merge_all_keeps (cands : list (pystr * note)) (d : notes_dict)
  (k : pystr) (v : note) :
  dict_get k d = Some v -> dict_get k (merge_all cands d) = Some v.
Proof.
  intros H. destruct (merge_all_grows cands d) as (added & -> & _).
  rewrite dict_get_app, H. reflexivity.
Qed.

(** A key that is absent takes the value of the first candidate with it. *)
Lemma merge_all_first (cands : list (pystr * note)) (d : notes_dict)
  (k : pystr) (kv : pystr * note) :
  dict_has k d = false -> List.find (has_key k) cands = Some kv ->
  dict_get k (merge_all cands d) = Some (snd kv).
Proof.
  revert d. induction cands as [| c cands IH]; intros d Hd Hf; [discriminate |].
  cbn [List.find] in Hf. cbn [merge_all List.fold_left].
  fold (merge_all cands (insert_if_absent c d)).
  unfold has_key in Hf at 1. destruct (bool_decide (fst c = k)) eqn:Hc.
  - injection Hf as <-. apply bool_decide_eq_true in Hc.
    apply merge_all_keeps. unfold insert_if_absent. rewrite Hc, Hd.
    rewrite dict_get_app. apply dict_has_get in Hd. rewrite Hd.
    unfold dict_get. cbn [List.find]. rewrite bool_decide_eq_true_2 by exact Hc.
    reflexivity.
  - apply IH; [| exact Hf]. unfold insert_if_absent.
    destruct (dict_has (fst c) d); [exact Hd |].
    rewrite dict_has_app, Hd. cbn [dict_has List.existsb orb]. rewrite Hc.
    reflexivity.
Qed.

(** A key of some candidate is in the dictionary afterwards. *)
Lemma merge_all_has (cands : list (pystr * note)) (d : notes_dict)
  (kv : pystr * note) :
  In kv cands -> dict_has (fst kv) (merge_all cands d) = true.
Proof.
  revert d. induction cands as [| c cands IH]; intros d Hin; [destruct Hin |].
  cbn [merge_all List.fold_left]. fold (merge_all cands (insert_if_absent c d)).
  destruct Hin as [-> | Hin]; [| exact (IH _ Hin)].
  destruct (merge_all_grows cands (insert_if_absent kv d)) as (added & -> & _).
  rewrite dict_has_app. apply orb_true_intro. left.
  unfold insert_if_absent. destruct (dict_has (fst kv) d) eqn:Hk; [exact Hk |].
  rewrite dict_has_app. cbn [dict_has List.existsb].
  rewrite bool_decide_eq_true_2 by reflexivity. apply orb_true_r.
Qed.

(** A loop that inserts what a partial function builds is the merge of the
    candidates it builds. *)
Lemma fold_left_omap {A : Type} (f : A -> option (pystr * note)) (l : list A)
  (d : notes_dict) :
  List.fold_left
    (fun d x => match f x with Some kv => insert_if_absent kv d | None => d end)
    l d
  = merge_all (omap f l) d.
Proof.
  revert d. induction l as [| x l IH]; intros d; [reflexivity |].
  cbn [List.fold_left omap list_omap]. rewrite IH.
  destruct (f x); reflexivity.
Qed.

Lemma merge_all_app (c1 c2 : list (pystr * note)) (d : notes_dict) :
  merge_all (c1 ++ c2) d = merge_all c2 (merge_all c1 d).
Proof. unfold merge_all. apply List.fold_left_app. Qed.

Lemma find_some_in (k : pystr) (cands : list (pystr * note)) (kv : pystr * note) :
  In kv cands -> fst kv = k ->
  exists kv0, List.find (has_key k) cands = Some kv0 /\ In kv0 cands /\ fst kv0 = k.
Proof.
  intros Hin Hk. destruct (List.find (has_key k) cands) as [kv0 |] eqn:Hf.
  - exists kv0. apply List.find_some in Hf. destruct Hf as [Hi Hh].
    apply bool_decide_eq_true in Hh. auto.
  - exfalso. pose proof (List.find_none _ _ Hf kv Hin) as Hn.
    apply bool_decide_eq_false in Hn. contradiction.
Qed.

(** ** The matches of the aggressive pattern *)

Lemma prefix_ci_split (p s : pystr) :
  prefix_ci p s = true ->
  exists x rest, s = x ++ rest /\ List.length x = List.length p
                 /\ List.skipn (List.length p) s = rest.
Proof.
  revert s. induction p as [| c p IH]; intros s H.
  - exists [], s. repeat split.
  - destruct s as [| c' s]; [discriminate |]. cbn [prefix_ci] in H.
    apply andb_prop in H. destruct H as [_ H].
    destruct (IH s H) as (x & rest & -> & Hl & Hs).
    exists (c' :: x), rest. cbn [List.length List.skipn app]. rewrite Hl.
    repeat split. exact Hs.
Qed.

Lemma marker_at_Some (s d : pystr) :
  marker_at s = Some d ->
  exists mk post, s = mk ++ d ++ post
                  /\ List.length mk = List.length PUBLICADA_EM /\ date_shaped d.
Proof.
  unfold marker_at. destruct (prefix_ci PUBLICADA_EM s) eqn:Hp; [| discriminate].
  intros Hd. destruct (prefix_ci_split _ _ Hp) as (mk & rest & -> & Hl & Hs).
  rewrite Hs in Hd. apply date_at_Some in Hd. destruct Hd as [Hsh [post ->]].
  exists mk, post. repeat split; assumption.
Qed.

Lemma find_marker_Some (s d : pystr) (j : nat) :
  find_marker s = Some (j, d) ->
  exists pre mk post, s = pre ++ mk ++ d ++ post /\ List.length pre = j
                      /\ List.length mk = List.length PUBLICADA_EM
                      /\ date_shaped d.
Proof.
  revert j. induction s as [| c s IH]; intros j; cbn [find_marker].
  - destruct (marker_at []) as [d' |] eqn:Hm; [| discriminate].
    intros [= <- <-]. destruct (marker_at_Some _ _ Hm) as (mk & post & Heq & Hl & Hs).
    exists [], mk, post. repeat split; assumption.
  - destruct (marker_at (c :: s)) as [d' |] eqn:Hm.
    + intros [= <- <-]. destruct (marker_at_Some _ _ Hm) as (mk & post & Heq & Hl & Hs).
      exists [], mk, post. repeat split; assumption.
    + destruct (find_marker s) as [[j' d'] |] eqn:Hf; [| discriminate].
      intros [= <- <-]. destruct (IH j' eq_refl) as (pre & mk & post & -> & Hl & Hm' & Hs).
      exists (c :: pre), mk, post. cbn [List.length app]. rewrite Hl.
      repeat split; assumption.
Qed.

Lemma date_shaped_last (d : pystr) :
  date_shaped d ->
  exists body c, d = body ++ [c] /\ is_digit c = true /\ List.length d = 10%nat.
Proof.
  intros (d1 & d2 & m1 & m2 & y1 & y2 & y3 & y4 & -> & H).
  exists [d1; d2; 0x2F; m1; m2; 0x2F; y1; y2; y3], y4.
  repeat split. tauto.
Qed.

Lemma keyword_initial_not_space (p0 c : char) :
  In p0 [0x4E; 0x49; 0x4D] -> lit_ci p0 c = true -> isspace c = false.
Proof.
  intros Hp Hc. destruct (isspace c) eqn:Hs; [| reflexivity].
  apply isspace_cases in Hs. cbn [In] in Hp, Hs.
  destruct Hp as [<- | [<- | [<- | []]]];
    repeat (destruct Hs as [Hs | Hs]; [subst c; vm_compute in Hc; discriminate |]);
    destruct Hs.
Qed.

Lemma AGRESSIVO_alts_initial (p : pystr) :
  In p AGRESSIVO_alts -> exists p0 p', p = p0 :: p' /\ In p0 [0x4E; 0x49; 0x4D].
Proof.
  intros H. vm_compute in H.
  repeat (destruct H as [<- | H]; [eexists _, _; split; [reflexivity | cbn [In]; tauto] |]).
  destruct H.
Qed.

(** A match starts with a character that is not white space and ends with
    the date of group 2. *)
Lemma agressivo_alts_at_Some (alts : list pystr) (s : pystr) (m : re_match) :
  agressivo_alts_at alts s = Some m ->
  exists p x pre mk,
    In p alts /\ prefix_ci p s = true /\ List.length x = List.length p
    /\ group0 m = x ++ pre ++ mk ++ group2 m /\ date_shaped (group2 m)
    /\ List.length mk = List.length PUBLICADA_EM
    /\ exists post, s = group0 m ++ post.
Proof.
  induction alts as [| p alts IH]; cbn [agressivo_alts_at]; [discriminate |].
  destruct (prefix_ci p s) eqn:Hp.
  - destruct (find_marker (List.skipn (List.length p) s)) as [[j d] |] eqn:Hf.
    + intros [= <-]. cbn [group0 group2].
      destruct (prefix_ci_split _ _ Hp) as (x & rest & Hs & Hl & Hsk).
      rewrite Hsk in Hf.
      destruct (find_marker_Some _ _ _ Hf) as (pre & mk & post & Hr & Hj & Hm & Hsh).
      destruct (date_shaped_last _ Hsh) as (_ & _ & _ & _ & Hd10).
      exists p, x, pre, mk.
      assert (H13 : List.length PUBLICADA_EM = 13%nat) by reflexivity.
      rewrite ?H13. pose proof Hm as Hm'. rewrite H13 in Hm'.
      assert (Hg : List.firstn (List.length p + j + 13 + 10) s
                   = x ++ pre ++ mk ++ d).
      { rewrite Hs, Hr.
        replace (x ++ pre ++ mk ++ d ++ post) with ((x ++ pre ++ mk ++ d) ++ post)
          by (rewrite <- !List.app_assoc; reflexivity).
        apply take_app_length'. rewrite !List.length_app. lia. }
      rewrite Hg. repeat split; try assumption; [left; reflexivity |].
      exists post. rewrite Hs, Hr, <- !List.app_assoc. reflexivity.
    + intros H. destruct (IH H) as (p' & x & pre & mk & Hin & Hrest).
      exists p', x, pre, mk. split; [right; exact Hin | exact Hrest].
  - intros H. destruct (IH H) as (p' & x & pre & mk & Hin & Hrest).
    exists p', x, pre, mk. split; [right; exact Hin | exact Hrest].
Qed.

Lemma lstrip_cons (c : char) (s : pystr) :
  isspace c = false -> lstrip (c :: s) = c :: s.
Proof. intros H. cbn [lstrip]. rewrite H. reflexivity. Qed.

Lemma rstrip_snoc (s : pystr) (c : char) :
  isspace c = false -> rstrip (s ++ [c]) = s ++ [c].
Proof.
  intros H. unfold rstrip. rewrite List.rev_app_distr. cbn [List.rev app].
  rewrite (lstrip_cons _ _ H). cbn [List.rev]. rewrite List.rev_involutive.
  reflexivity.
Qed.

(** [strip] leaves the text of a match as it is. *)
Lemma agressivo_at_strip (s : pystr) (m : re_match) :
  agressivo_at s = Some m -> strip (group0 m) = group0 m.
Proof.
  unfold agressivo_at. intros H.
  destruct (agressivo_alts_at_Some _ _ _ H)
    as (p & x & pre & mk & Hin & Hp & Hl & Hg & Hsh & _ & _).
  destruct (AGRESSIVO_alts_initial _ Hin) as (p0 & p' & -> & Hp0).
  destruct x as [| c0 x]; [discriminate |].
  destruct (prefix_ci_split _ _ Hp) as (x' & rest & Hs & _ & _).
  assert (Hc0 : isspace c0 = false).
  { destruct (agressivo_alts_at_Some _ _ _ H) as (_ & _ & _ & _ & _ & _ & _ & _ & _ & _ & post & Hpost).
    rewrite Hg in Hpost. rewrite Hpost in Hp. cbn [app prefix_ci] in Hp.
    apply andb_prop in Hp. destruct Hp as [Hp _].
    exact (keyword_initial_not_space _ _ Hp0 Hp). }
  destruct (date_shaped_last _ Hsh) as (body & c & Hd & Hc & _).
  rewrite Hg, Hd. unfold strip. cbn [app]. rewrite (lstrip_cons _ _ Hc0).
  replace (c0 :: x ++ pre ++ mk ++ body ++ [c])
    with ((c0 :: x ++ pre ++ mk ++ body) ++ [c])
    by (cbn [app]; rewrite <- !List.app_assoc; reflexivity).
  apply rstrip_snoc. exact (digit_not_space _ Hc).
Qed.

Lemma finditer_go_in (skip : nat) (s : pystr) (m : re_match) :
  In m (finditer_go skip s) -> exists s', agressivo_at s' = Some m.
Proof.
  revert skip. induction s as [| c s IH]; intros skip; cbn [finditer_go]; [intros [] |].
  destruct skip as [| k]; [| apply IH].
  destruct (agressivo_at (c :: s)) as [m' |] eqn:Ha; [| apply IH].
  intros [<- | Hin]; [exists (c :: s); exact Ha | exact (IH _ Hin)].
Qed.

Lemma finditer_strip (text : pystr) (m : re_match) :
  In m (AGRESSIVO_finditer text) -> strip (group0 m) = group0 m.
Proof.
  intros H. destruct (finditer_go_in _ _ _ H) as [s' Hs'].
  exact (agressivo_at_strip _ _ Hs').
Qed.

(** ** [find_notes]: the two passes, the merge and the order *)

Lemma find_notes_soup_eq (u : pystr -> pystr -> pystr) (soup : node)
  (base_url : pystr) :
  find_notes_soup u soup base_url = List.map to_item (final_list u soup base_url).
Proof. reflexivity. Qed.

Lemma final_list_eq (u : pystr -> pystr -> pystr) (soup : node)
  (base_url : pystr) :
  final_list u soup base_url = sort_desc (List.map snd (merged u soup base_url)).
Proof. reflexivity. Qed.

Lemma structural_candidate_Some (u : pystr -> pystr -> pystr)
  (base_url : pystr) (ap : node * list node) (kv : pystr * note) :
  structural_candidate u base_url ap = Some kv ->
  PATTERN_search (get_text [] (fst ap)) = true
  /\ title (snd kv) = get_text [] (fst ap)
  /\ url (snd kv) = urljoin u base_url (get_href (fst ap))
  /\ fst kv = sha256_text (title (snd kv) ++ BARS ++ url (snd kv)).
Proof.
  destruct ap as [a parents]. unfold structural_candidate. cbn [fst].
  destruct (PATTERN_search (get_text [] a)); [| discriminate].
  intros [= <-]. cbn [fst snd title url]. repeat split.
Qed.

Lemma structural_candidate_None (u : pystr -> pystr -> pystr)
  (base_url : pystr) (ap : node * list node) :
  structural_candidate u base_url ap = None ->
  PATTERN_search (get_text [] (fst ap)) = false.
Proof.
  destruct ap as [a parents]. unfold structural_candidate. cbn [fst].
  destruct (PATTERN_search (get_text [] a)); [discriminate | reflexivity].
Qed.

Lemma aggressive_candidate_Some (base_url : pystr) (m : re_match)
  (kv : pystr * note) :
  aggressive_candidate base_url m = Some kv ->
  (50 < List.length (strip (group0 m)) < 1000)%nat
  /\ kv = (sha256_text (List.firstn 150 (strip (group0 m)) ++ BARS ++ base_url),
           {| title := strip (group0 m); url := base_url;
              date := extract_date_from_text (group2 m) |}).
Proof.
  unfold aggressive_candidate.
  destruct (_ && _) eqn:Hc; [| discriminate].
  intros [= <-]. split; [| reflexivity].
  apply andb_prop in Hc. destruct Hc as [H1 H2].
  apply Nat.ltb_lt in H1. apply Nat.ltb_lt in H2. lia.
Qed.

Lemma aggressive_candidate_None (base_url : pystr) (m : re_match) :
  aggressive_candidate base_url m = None ->
  ~ (50 < List.length (strip (group0 m)) < 1000)%nat.
Proof.
  unfold aggressive_candidate.
  destruct (_ && _) eqn:Hc; [discriminate |]. intros _ [H1 H2].
  apply Nat.ltb_lt in H1. apply Nat.ltb_lt in H2. rewrite H1, H2 in Hc.
  discriminate.
Qed.

Section ExtractionFacts.

Variable urljoin_nonempty : pystr -> pystr -> pystr.

Local Abbreviation urljoin := (urljoin urljoin_nonempty).
Local Abbreviation structural_candidate := (structural_candidate urljoin_nonempty).
Local Abbreviation structural_pass := (structural_pass urljoin_nonempty).
Local Abbreviation merged := (merged urljoin_nonempty).
Local Abbreviation final_list := (final_list urljoin_nonempty).
Local Abbreviation find_notes_soup := (find_notes_soup urljoin_nonempty).
Local Abbreviation structural_candidates := (structural_candidates urljoin_nonempty).

Lemma structural_pass_merge (soup : node) (base_url : pystr) :
  structural_pass soup base_url
  = merge_all (structural_candidates soup base_url) [].
Proof. apply fold_left_omap. Qed.

Lemma merged_merge (soup : node) (base_url : pystr) :
  merged soup base_url
  = merge_all (aggressive_candidates soup base_url) (structural_pass soup base_url).
Proof. apply fold_left_omap. Qed.

Lemma structural_pass_keys (soup : node) (base_url : pystr) :
  List.NoDup (List.map fst (structural_pass soup base_url)).
Proof.
  rewrite structural_pass_merge.
  destruct (merge_all_grows (structural_candidates soup base_url) [])
    as (added & -> & _ & Hnd). exact Hnd.
Qed.

Lemma filter_key_one (k : pystr) (d : notes_dict) (v : note) :
  List.NoDup (List.map fst d) -> dict_get k d = Some v ->
  List.filter (has_key k) d = [(k, v)].
Proof.
  unfold dict_get. induction d as [| [k' v'] d IH]; cbn [List.find List.filter List.map];
    [discriminate |].
  intros Hnd. inversion Hnd as [| ? ? Hnotin Hnd']; subst.
  unfold has_key at 1. cbn [fst].
  destruct (bool_decide (k' = k)) eqn:Hk.
  - intros [= <-]. apply bool_decide_eq_true in Hk. subst k'.
    f_equal. apply filter_key_none.
    destruct (dict_has k d) eqn:Hh; [| reflexivity].
    exfalso. apply Hnotin. unfold dict_has in Hh.
    apply List.existsb_exists in Hh. destruct Hh as (x & Hx & Hxk).
    apply bool_decide_eq_true in Hxk. subst k.
    apply List.in_map. exact Hx.
  - intros H. exact (IH Hnd' H).
Qed.

(** C1. The merge dictionary is the result of offering every Structural
    candidate and then every Aggressive candidate, each inserted only
    under a key that is not yet present. When a Structural and an
    Aggressive candidate have the same key, the dictionary holds exactly
    one entry under it: the first Structural candidate with that key,
    inserted by the first pass; the second pass adds nothing under it, and
    the entry is in the list that [find_notes] returns. *)
Theorem structural_wins_on_collision (soup : node) (base_url : pystr)
  (s a : pystr * note) :
  In s (structural_candidates soup base_url) ->
  In a (aggressive_candidates soup base_url) ->
  fst s = fst a ->
  merged soup base_url
  = merge_all (structural_candidates soup base_url
               ++ aggressive_candidates soup base_url) []
  /\ (forall kv d, dict_has (fst kv) d = true -> insert_if_absent kv d = d)
  /\ (forall kv d, dict_has (fst kv) d = false -> insert_if_absent kv d = d ++ [kv])
  /\ exists s0 added,
      List.find (has_key (fst s)) (structural_candidates soup base_url) = Some s0
      /\ In s0 (structural_candidates soup base_url)
      /\ dict_get (fst s) (structural_pass soup base_url) = Some (snd s0)
      /\ merged soup base_url = structural_pass soup base_url ++ added
      /\ dict_has (fst a) added = false
      /\ List.filter (has_key (fst s)) (merged soup base_url) = [(fst s, snd s0)]
      /\ In (to_item (snd s0)) (find_notes_soup soup base_url).
Proof.
  intros Hs Ha Hk.
  split; [rewrite merge_all_app, <- structural_pass_merge; apply merged_merge |].
  split; [intros kv d H; unfold insert_if_absent; rewrite H; reflexivity |].
  split; [intros kv d H; unfold insert_if_absent; rewrite H; reflexivity |].
  destruct (find_some_in (fst s) _ s Hs eq_refl) as (s0 & Hf & Hin0 & Hk0).
  assert (Hget : dict_get (fst s) (structural_pass soup base_url) = Some (snd s0)).
  { rewrite structural_pass_merge. apply merge_all_first; [reflexivity | exact Hf]. }
  destruct (merge_all_grows (aggressive_candidates soup base_url)
              (structural_pass soup base_url)) as (added & Heq & Hall & Hnd).
  rewrite <- merged_merge in Heq.
  assert (Hadded : dict_has (fst a) added = false).
  { destruct (dict_has (fst a) added) eqn:Hh; [| reflexivity]. exfalso.
    unfold dict_has in Hh. apply List.existsb_exists in Hh.
    destruct Hh as (x & Hx & Hxk). apply bool_decide_eq_true in Hxk.
    rewrite List.Forall_forall in Hall. destruct (Hall x Hx) as [_ Hno].
    rewrite Hxk, <- Hk in Hno. apply dict_has_get in Hno. congruence. }
  exists s0, added.
  split; [exact Hf |]. split; [exact Hin0 |]. split; [exact Hget |].
  split; [exact Heq |]. split; [exact Hadded |].
  assert (Hfil : List.filter (has_key (fst s)) (merged soup base_url)
                 = [(fst s, snd s0)]).
  { rewrite Heq, List.filter_app.
    rewrite (filter_key_one _ _ _ (structural_pass_keys soup base_url) Hget).
    rewrite Hk, (filter_key_none _ _ Hadded). reflexivity. }
  split; [exact Hfil |].
  rewrite find_notes_soup_eq, final_list_eq. apply List.in_map.
  apply (Permutation_in _ (Permutation_sym (sort_desc_perm _))).
  change (snd s0) with (snd (fst s, snd s0)). apply List.in_map.
  assert (Hin : In (fst s, snd s0) (List.filter (has_key (fst s)) (merged soup base_url)))
    by (rewrite Hfil; left; reflexivity).
  apply List.filter_In in Hin. exact (proj1 Hin).
Qed.

(** C2, as amended. The list behind the result of [find_notes] is the
    stable sort of the values of the merge dictionary into non-increasing
    order of the sort key, which is the resolved date, or 1 January 1900
    for a candidate without one: it is a permutation of the values, every
    element's key is at least the key of each later element, candidates
    of equal key (among them all candidates without date) keep the order
    in which the dictionary holds them (the entries of the Structural
    pass, then those added by the Aggressive pass), and a candidate
    without date comes after every candidate dated later than 1 January
    1900. *)
Theorem final_list_order (soup : node) (base_url : pystr) :
  Permutation (final_list soup base_url) (List.map snd (merged soup base_url))
  /\ sorted_desc (final_list soup base_url)
  /\ (forall k,
        List.filter (fun n => bool_decide (sort_key n = k)) (final_list soup base_url)
        = List.filter (fun n => bool_decide (sort_key n = k))
                      (List.map snd (merged soup base_url)))
  /\ List.filter (fun n => bool_decide (date n = None)) (final_list soup base_url)
     = List.filter (fun n => bool_decide (date n = None))
                   (List.map snd (merged soup base_url))
  /\ (forall i j u d dt,
        final_list soup base_url !! i = Some u ->
        final_list soup base_url !! j = Some d ->
        date u = None -> date d = Some dt -> datetime_ltb SENTINEL dt = true ->
        (j < i)%nat)
  /\ (exists added,
        merged soup base_url = structural_pass soup base_url ++ added
        /\ List.Forall (fun kv => In kv (aggressive_candidates soup base_url)) added)
  /\ find_notes_soup soup base_url
     = List.map to_item (final_list soup base_url).
Proof.
  rewrite final_list_eq.
  split; [apply sort_desc_perm |].
  split; [apply sort_desc_sorted |].
  split.
  { intros k. apply sort_desc_filter. intros a b Ha Hb.
    apply bool_decide_eq_true in Ha. apply bool_decide_eq_true in Hb.
    rewrite Ha, Hb. apply datetime_ltb_irrefl. }
  split.
  { apply sort_desc_filter. intros a b Ha Hb.
    apply bool_decide_eq_true in Ha. apply bool_decide_eq_true in Hb.
    unfold sort_key. rewrite Ha, Hb. apply datetime_ltb_irrefl. }
  split.
  { intros i j u d dt Hi Hj Hu Hd Hlt.
    destruct (Nat.lt_trichotomy i j) as [Hij | [-> | Hji]]; [| | exact Hji].
    - exfalso.
      pose proof (StronglySorted_lookup _ _ _ _ _ _ (sort_desc_sorted _) Hi Hj Hij) as Hge.
      unfold key_geb, sort_key, datetime_leb in Hge. rewrite Hu, Hd, Hlt in Hge.
      discriminate.
    - rewrite Hi in Hj. injection Hj as ->. congruence. }
  split; [| reflexivity].
  destruct (merge_all_grows (aggressive_candidates soup base_url)
              (structural_pass soup base_url)) as (added & Heq & Hall & _).
  rewrite <- merged_merge in Heq. exists added. split; [exact Heq |].
  eapply List.Forall_impl; [| exact Hall]. intros kv [H _]. exact H.
Qed.

Lemma structural_candidates_key (soup : node) (base_url : pystr)
  (kv : pystr * note) :
  In kv (structural_candidates soup base_url) ->
  PATTERN_search (title (snd kv)) = true
  /\ fst kv = sha256_text (title (snd kv) ++ BARS ++ url (snd kv)).
Proof.
  intros Hin. unfold structural_candidates in Hin.
  apply list_elem_of_In, list_elem_of_omap in Hin.
  destruct Hin as (ap & _ & Hc).
  destruct (structural_candidate_Some _ _ _ _ Hc) as (Hp & Ht & _ & Hk).
  rewrite Ht. split; [exact Hp | rewrite <- Ht; exact Hk].
Qed.



End ExtractionFacts.

(** *** The examples *)

Import Fixtures.

(** The scenario of the specification: one candidate, with the target of
    the link resolved and the date of the row. *)
Example final_list_page_row :
  final_list resolve_reference (BeautifulSoup page_row) base_test
  = [{| title := lit "Nota Técnica 2024.001";
        url := lit "https://portal.test/docs/doc1.pdf";
        date := Some {| year := 2024; month := 9; day := 29 |} |}].
Proof. vm_compute. reflexivity. Qed.

Example urljoin_relative :
  urljoin resolve_reference (lit "https://x/y/") (lit "z.pdf")
  = lit "https://x/y/z.pdf".
Proof. vm_compute. reflexivity. Qed.

Lemma structural_wins_on_collision_witness :
  In cand_both (structural_candidates resolve_reference (BeautifulSoup page_both) base_test)
  /\ In cand_both (aggressive_candidates (BeautifulSoup page_both) base_test)
  /\ exists (s0 : pystr * note) added,
      merged resolve_reference (BeautifulSoup page_both) base_test
      = structural_pass resolve_reference (BeautifulSoup page_both) base_test ++ added
      /\ dict_has (fst cand_both) added = false
      /\ In (to_item (snd s0))
            (find_notes_soup resolve_reference (BeautifulSoup page_both) base_test).
Proof.
  assert (Hs : In cand_both (structural_candidates resolve_reference
                               (BeautifulSoup page_both) base_test))
    by (vm_compute; left; reflexivity).
  assert (Ha : In cand_both (aggressive_candidates (BeautifulSoup page_both) base_test))
    by (vm_compute; left; reflexivity).
  split; [exact Hs |]. split; [exact Ha |].
  destruct (structural_wins_on_collision resolve_reference
              (BeautifulSoup page_both) base_test cand_both cand_both Hs Ha eq_refl)
    as (_ & _ & _ & s0 & added & _ & _ & _ & Heq & Hadd & _ & Hin).
  exists s0, added. split; [exact Heq |]. split; [exact Hadd | exact Hin].
Defined.

(** C2, as stated, fails: in [page_1899] the first link has no date and
    the second is dated 31 December 1899; the candidate without date is
    sorted before the dated one. *)
Lemma undated_before_dated :
  (exists u d,
      final_list resolve_reference (BeautifulSoup page_1899) base_test !! 0%nat = Some u
      /\ final_list resolve_reference (BeautifulSoup page_1899) base_test !! 1%nat = Some d
      /\ date u = None
      /\ date d = Some {| year := 1899; month := 12; day := 31 |})
  /\ ~ undated_last (final_list resolve_reference (BeautifulSoup page_1899) base_test).
Proof.
  split.
  - eexists _, _. split; [vm_compute; reflexivity |].
    split; [vm_compute; reflexivity |]. split; reflexivity.
  - intros H.
    refine (Nat.nlt_0_r 1 (H 0%nat 1%nat _ _ _ _ _ _)).
    + vm_compute. reflexivity.
    + vm_compute. reflexivity.
    + reflexivity.
    + eexists. reflexivity.
Qed.


(** ** The run *)

Lemma portal_step_eq (u : pystr -> pystr -> pystr) (hp : pystr -> list node)
  (w : world) (seen : gmap pystr seen_record) (st : run_state)
  (portal url_ : pystr) :
  portal_step u hp w seen st (portal, url_)
  = let out := stdout st ++ [LogChecking portal url_] ++ snd (fetch_url w url_) in
    match fst (fetch_url w url_) with
    | Some (c :: html) =>
        let '(upd, portal_new_items, reads) :=
          List.fold_left (note_step w seen portal)
                         (find_notes u hp (c :: html) url_)
                         (updated_seen st, [], clock_reads st) in
        match portal_new_items with
        | [] =>
            {| updated_seen := upd;
               new_found_by_portal := new_found_by_portal st;
               stdout := out;
               clock_reads := reads |}
        | _ =>
            {| updated_seen := upd;
               new_found_by_portal :=
                 dict_set portal portal_new_items (new_found_by_portal st);
               stdout := out ++ [LogNewItems (List.length portal_new_items) portal];
               clock_reads := reads |}
        end
    | _ =>
        {| updated_seen := updated_seen st;
           new_found_by_portal := new_found_by_portal st;
           stdout := out;
           clock_reads := clock_reads st |}
    end.
Proof.
  unfold portal_step. destruct (fetch_url w url_) as [[[| c html] |] warn];
    reflexivity.
Qed.

Lemma run_portals_cons (u : pystr -> pystr -> pystr) (hp : pystr -> list node)
  (w : world) (seen : gmap pystr seen_record) (pu : pystr * pystr)
  (portals : list (pystr * pystr)) (st : run_state) :
  run_portals u hp w seen (pu :: portals) st
  = run_portals u hp w seen portals (portal_step u hp w seen st pu).
Proof. reflexivity. Qed.

Lemma run_portals_nil (u : pystr -> pystr -> pystr) (hp : pystr -> list node)
  (w : world) (seen : gmap pystr seen_record) (st : run_state) :
  run_portals u hp w seen [] st = st.
Proof. reflexivity. Qed.

Lemma main_on_eq (u : pystr -> pystr -> pystr) (hp : pystr -> list node)
  (w : world) (portals : list (pystr * pystr)) :
  let st := run_portals u hp w (load_seen w) portals (initial_state w) in
  saved (main_on u hp w portals) = updated_seen st
  /\ emailed (main_on u hp w portals)
     = (if (0 <? total_new (new_found_by_portal st))%nat
        then Some (new_found_by_portal st) else None)
  /\ printed (main_on u hp w portals)
     = stdout st ++
       [if (0 <? total_new (new_found_by_portal st))%nat
        then LogSending (total_new (new_found_by_portal st)) else LogNothingNew].
Proof. repeat split. Qed.

Lemma main_eq (u : pystr -> pystr -> pystr) (hp : pystr -> list node) (w : world) :
  main u hp w = main_on u hp w URLS_PORTAIS.
Proof. reflexivity. Qed.

Section RunFacts.

Variable urljoin_nonempty : pystr -> pystr -> pystr.
Variable html_parser : pystr -> list node.

Local Abbreviation find_notes := (find_notes urljoin_nonempty html_parser).
Local Abbreviation portal_step := (portal_step urljoin_nonempty html_parser).
Local Abbreviation run_portals := (run_portals urljoin_nonempty html_parser).
Local Abbreviation main_on := (main_on urljoin_nonempty html_parser).
Local Abbreviation main := (main urljoin_nonempty html_parser).
Local Abbreviation portal_notes := (portal_notes urljoin_nonempty html_parser).
Local Abbreviation news := (news urljoin_nonempty html_parser).
Local Abbreviation observations := (observations urljoin_nonempty html_parser).
Local Abbreviation found_step := (found_step urljoin_nonempty html_parser).
Local Abbreviation found_entry := (found_entry urljoin_nonempty html_parser).

Lemma note_step_new (w : world) (seen : gmap pystr seen_record)
  (portal : pystr) (upd : gmap pystr seen_record) (acc : list item) (r : nat)
  (n : item) :
  is_new seen n = true ->
  note_step w seen portal (upd, acc, r) n
  = (fst (record_obs w (upd, r) (portal, n)), acc ++ [n], S r).
Proof.
  unfold is_new. intros H. apply bool_decide_eq_true in H.
  unfold note_step. rewrite H. reflexivity.
Qed.

Lemma note_step_old (w : world) (seen : gmap pystr seen_record)
  (portal : pystr) (st : gmap pystr seen_record * list item * nat) (n : item) :
  is_new seen n = false -> note_step w seen portal st n = st.
Proof.
  unfold is_new. intros H. apply bool_decide_eq_false in H.
  unfold note_step. destruct st as [[upd acc] r].
  destruct (seen !! seen_key n); [reflexivity | contradiction].
Qed.

Lemma note_fold (w : world) (seen : gmap pystr seen_record) (portal : pystr)
  (notes : list item) (upd : gmap pystr seen_record) (acc : list item) (r : nat) :
  List.fold_left (note_step w seen portal) notes (upd, acc, r)
  = (fst (List.fold_left (record_obs w)
            (List.map (pair portal) (List.filter (is_new seen) notes)) (upd, r)),
     acc ++ List.filter (is_new seen) notes,
     snd (List.fold_left (record_obs w)
            (List.map (pair portal) (List.filter (is_new seen) notes)) (upd, r))).
Proof.
  revert upd acc r. induction notes as [| n notes IH]; intros upd acc r.
  - cbn. rewrite List.app_nil_r. reflexivity.
  - cbn [List.fold_left List.filter].
    destruct (is_new seen n) eqn:Hn.
    + rewrite (note_step_new _ _ _ _ _ _ _ Hn), IH.
      cbn [List.map List.fold_left]. rewrite <- List.app_assoc. reflexivity.
    + rewrite (note_step_old _ _ _ _ _ Hn). apply IH.
Qed.

Lemma portal_step_core (w : world) (seen : gmap pystr seen_record)
  (st : run_state) (pu : pystr * pystr) :
  (updated_seen (portal_step w seen st pu), clock_reads (portal_step w seen st pu))
  = List.fold_left (record_obs w) (List.map (pair (fst pu)) (news w seen pu))
                   (updated_seen st, clock_reads st)
  /\ new_found_by_portal (portal_step w seen st pu)
     = match news w seen pu with
       | [] => new_found_by_portal st
       | l => dict_set (fst pu) l (new_found_by_portal st)
       end.
Proof.
  destruct pu as [portal url_]. unfold news, portal_notes. cbn [fst snd].
  rewrite !portal_step_eq.
  destruct (fetch_url w url_) as [[[| c html] |] warn]; cbn [fst];
    try (split; reflexivity).
  rewrite note_fold. cbn [app].
  destruct (List.filter (is_new seen) (find_notes (c :: html) url_)) as [| n l];
    cbn [updated_seen clock_reads new_found_by_portal]; split;
    try reflexivity; symmetry; apply surjective_pairing.
Qed.

(** The dictionary and the clock after the loop are those of recording the
    observations in order; the table of new items is folded over the
    portals. The printed lines do not influence them. *)
Lemma run_portals_core (w : world) (seen : gmap pystr seen_record)
  (portals : list (pystr * pystr)) (st : run_state) :
  (updated_seen (run_portals w seen portals st),
   clock_reads (run_portals w seen portals st))
  = List.fold_left (record_obs w) (observations w seen portals)
                   (updated_seen st, clock_reads st)
  /\ new_found_by_portal (run_portals w seen portals st)
     = List.fold_left (found_step w seen) portals (new_found_by_portal st).
Proof.
  revert st. induction portals as [| pu portals IH]; intros st.
  - rewrite run_portals_nil. split; reflexivity.
  - rewrite run_portals_cons. destruct (IH (portal_step w seen st pu)) as [H1 H2].
    destruct (portal_step_core w seen st pu) as [C1 C2].
    split.
    + rewrite H1, C1. unfold observations. cbn [List.flat_map].
      rewrite List.fold_left_app. reflexivity.
    + rewrite H2, C2. reflexivity.
Qed.

Lemma record_fold_clock (w : world) (obs : list (pystr * item))
  (m : gmap pystr seen_record) (r : nat) :
  snd (List.fold_left (record_obs w) obs (m, r)) = (r + List.length obs)%nat.
Proof.
  revert m r. induction obs as [| pn obs IH]; intros m r; cbn [List.fold_left List.length].
  - cbn. lia.
  - unfold record_obs at 2. cbn [fst snd]. rewrite IH. lia.
Qed.

(** A key that no observation has keeps what it had. *)
Lemma record_fold_other (w : world) (obs : list (pystr * item))
  (m : gmap pystr seen_record) (r : nat) (k : pystr) :
  (forall pn, In pn obs -> seen_key (snd pn) <> k) ->
  fst (List.fold_left (record_obs w) obs (m, r)) !! k = m !! k.
Proof.
  revert m r. induction obs as [| pn obs IH]; intros m r H; cbn [List.fold_left].
  - reflexivity.
  - unfold record_obs at 2. cbn [fst snd]. rewrite IH.
    + apply lookup_insert_ne. apply H. left. reflexivity.
    + intros pn' Hin. apply H. right. exact Hin.
Qed.

(** A key holds the record of the last observation that has it. *)
Lemma record_fold_last (w : world) (o1 o2 : list (pystr * item))
  (p : pystr) (n : item) (m : gmap pystr seen_record) (r : nat) :
  (forall pn, In pn o2 -> seen_key (snd pn) <> seen_key n) ->
  fst (List.fold_left (record_obs w) (o1 ++ (p, n) :: o2) (m, r)) !! seen_key n
  = Some (record_of w p n (r + List.length o1)).
Proof.
  intros H. rewrite List.fold_left_app. cbn [List.fold_left].
  destruct (List.fold_left (record_obs w) o1 (m, r)) as [m1 r1] eqn:E.
  assert (Hr : r1 = (r + List.length o1)%nat).
  { pose proof (record_fold_clock w o1 m r) as Hc. rewrite E in Hc. exact Hc. }
  unfold record_obs at 2. cbn [fst snd].
  rewrite (record_fold_other w o2 _ _ _ H). rewrite lookup_insert_eq, Hr.
  reflexivity.
Qed.

Lemma observations_new (w : world) (seen : gmap pystr seen_record)
  (portals : list (pystr * pystr)) (pn : pystr * item) :
  In pn (observations w seen portals) -> seen !! seen_key (snd pn) = None.
Proof.
  unfold observations. intros H. apply List.in_flat_map in H.
  destruct H as (pu & _ & H). apply List.in_map_iff in H.
  destruct H as (n & <- & Hn). unfold news in Hn. apply List.filter_In in Hn.
  destruct Hn as [_ Hn]. apply bool_decide_eq_true in Hn. exact Hn.
Qed.

Lemma saved_eq (w : world) (portals : list (pystr * pystr)) :
  saved (main_on w portals)
  = fst (List.fold_left (record_obs w)
           (observations w (load_seen w) portals) (load_seen w, O)).
Proof.
  destruct (main_on_eq urljoin_nonempty html_parser w portals) as (Hs & _).
  rewrite Hs.
  destruct (run_portals_core w (load_seen w) portals (initial_state w)) as [H _].
  cbn [initial_state updated_seen clock_reads] in H. rewrite <- H. reflexivity.
Qed.

Lemma observations_app (w : world) (seen : gmap pystr seen_record)
  (l1 l2 : list (pystr * pystr)) :
  observations w seen (l1 ++ l2) = observations w seen l1 ++ observations w seen l2.
Proof. unfold observations. apply List.flat_map_app. Qed.

Lemma observations_skip (w : world) (seen : gmap pystr seen_record)
  (l1 l2 : list (pystr * pystr)) (pu : pystr * pystr) :
  news w seen pu = [] ->
  observations w seen (l1 ++ pu :: l2) = observations w seen (l1 ++ l2).
Proof.
  intros H. rewrite !observations_app. f_equal.
  unfold observations. cbn [List.flat_map]. rewrite H. reflexivity.
Qed.

Lemma found_fold_skip (w : world) (seen : gmap pystr seen_record)
  (l1 l2 : list (pystr * pystr)) (pu : pystr * pystr)
  (d : list (pystr * list item)) :
  news w seen pu = [] ->
  List.fold_left (found_step w seen) (l1 ++ pu :: l2) d
  = List.fold_left (found_step w seen) (l1 ++ l2) d.
Proof.
  intros H. rewrite !List.fold_left_app. cbn [List.fold_left].
  unfold found_step at 2. rewrite H. reflexivity.
Qed.

(** A portal without new notes can be left out of the registry: the
    dictionary that is saved and the table that is sent are the same. *)
Lemma main_on_skip (w : world) (l1 l2 : list (pystr * pystr)) (pu : pystr * pystr) :
  news w (load_seen w) pu = [] ->
  saved (main_on w (l1 ++ pu :: l2)) = saved (main_on w (l1 ++ l2))
  /\ emailed (main_on w (l1 ++ pu :: l2)) = emailed (main_on w (l1 ++ l2)).
Proof.
  intros H. split.
  - rewrite !saved_eq, (observations_skip _ _ _ _ _ H). reflexivity.
  - destruct (main_on_eq urljoin_nonempty html_parser w (l1 ++ pu :: l2)) as (_ & -> & _).
    destruct (main_on_eq urljoin_nonempty html_parser w (l1 ++ l2)) as (_ & -> & _).
    destruct (run_portals_core w (load_seen w) (l1 ++ pu :: l2) (initial_state w))
      as [_ ->].
    destruct (run_portals_core w (load_seen w) (l1 ++ l2) (initial_state w))
      as [_ ->].
    rewrite (found_fold_skip _ _ _ _ _ _ H). reflexivity.
Qed.

Lemma fetch_raises_None (w : world) (url_ : pystr) :
  fetch_raises w url_ = true ->
  exists e, fetch_url w url_ = (None, [LogWarn url_ e]).
Proof.
  unfold fetch_raises, fetch_url. destruct (requests_get w url_) as [e | sc text].
  - intros _. exists e. reflexivity.
  - intros ->. eexists. reflexivity.
Qed.

(** C8, as amended. Every key of the dictionary loaded at the start is
    saved with the record it had: no record of an earlier run is changed
    or deleted. A key that is not in the loaded dictionary and that no
    note of the run has is not saved. A key that is not in the loaded
    dictionary is saved with the title and url of the last note of the run
    that has this key, the portal at which that note is found and the
    clock value read for it; these are the values set when the record was
    created exactly when no earlier note of the run has the key. *)
Theorem seen_records_kept (w : world) :
  (forall k rec, load_seen w !! k = Some rec -> saved (main w) !! k = Some rec)
  /\ (forall k,
        load_seen w !! k = None ->
        (forall pn, In pn (observations w (load_seen w) URLS_PORTAIS) ->
                    seen_key (snd pn) <> k) ->
        saved (main w) !! k = None)
  /\ (forall o1 p n o2,
        observations w (load_seen w) URLS_PORTAIS = o1 ++ (p, n) :: o2 ->
        (forall pn, In pn o2 -> seen_key (snd pn) <> seen_key n) ->
        load_seen w !! seen_key n = None
        /\ saved (main w) !! seen_key n
           = Some {| sr_title := item_title n; sr_url := item_url n;
                     sr_portal := p;
                     sr_first_seen := now_isoformat w (List.length o1) |}).
Proof.
  rewrite main_eq, saved_eq.
  split; [| split].
  - intros k rec Hk. rewrite record_fold_other; [exact Hk |].
    intros pn Hin Heq. apply observations_new in Hin. congruence.
  - intros k Hk Hno. rewrite record_fold_other; [exact Hk | exact Hno].
  - intros o1 p n o2 Hobs Hlast. split.
    + apply (observations_new w (load_seen w) URLS_PORTAIS (p, n)).
      rewrite Hobs. apply List.in_or_app. right. left. reflexivity.
    + rewrite Hobs, (record_fold_last w o1 o2 p n _ _ Hlast). reflexivity.
Qed.

Lemma news_of_failure (w : world) (seen : gmap pystr seen_record)
  (pu : pystr * pystr) :
  fst (fetch_url w (snd pu)) = None \/ fst (fetch_url w (snd pu)) = Some [] ->
  news w seen pu = [].
Proof.
  unfold news, portal_notes. intros [-> | ->]; reflexivity.
Qed.

(** C9, as amended. When the request for a portal raises (time-out,
    transport error) or answers with a status from 400 to 599,
    [fetch_url] prints a warning and returns no value; [main] then leaves
    the dictionary, the table of new items and the clock as they are and
    goes on: what it saves and sends is what a run over the registry
    without this portal saves and sends. *)
Theorem fetch_failure_isolated (w : world) (l1 l2 : list (pystr * pystr))
  (pu : pystr * pystr) :
  URLS_PORTAIS = l1 ++ pu :: l2 ->
  fetch_raises w (snd pu) = true ->
  (exists e, fetch_url w (snd pu) = (None, [LogWarn (snd pu) e]))
  /\ (forall seen st,
        updated_seen (portal_step w seen st pu) = updated_seen st
        /\ new_found_by_portal (portal_step w seen st pu) = new_found_by_portal st
        /\ clock_reads (portal_step w seen st pu) = clock_reads st
        /\ exists e,
            stdout (portal_step w seen st pu)
            = stdout st ++ [LogChecking (fst pu) (snd pu); LogWarn (snd pu) e])
  /\ saved (main w) = saved (main_on w (l1 ++ l2))
  /\ emailed (main w) = emailed (main_on w (l1 ++ l2)).
Proof.
  intros Hreg Hfail. destruct (fetch_raises_None _ _ Hfail) as [e He].
  split; [exists e; exact He |]. split.
  - intros seen st. destruct pu as [portal url_]. cbn [fst snd] in *.
    rewrite portal_step_eq, He. cbn [fst snd].
    repeat split. exists e. reflexivity.
  - rewrite main_eq, Hreg. apply main_on_skip. apply news_of_failure.
    left. rewrite He. reflexivity.
Qed.

(** C10. When the request for a portal succeeds with an empty text,
    [main] treats the portal as it treats a failed fetch: whatever the
    parser would make of the page, the dictionary, the table of new items
    and the clock stay as they are, only the line that announces the
    portal is printed, and what the run saves and sends is what a run over
    the registry without this portal saves and sends. *)
Theorem empty_page_skipped (w : world) (l1 l2 : list (pystr * pystr))
  (pu : pystr * pystr) (status_code : N) :
  URLS_PORTAIS = l1 ++ pu :: l2 ->
  requests_get w (snd pu) = Response status_code [] ->
  raises_for_status status_code = false ->
  fetch_url w (snd pu) = (Some [], [])
  /\ portal_notes w pu = []
  /\ (forall seen st,
        updated_seen (portal_step w seen st pu) = updated_seen st
        /\ new_found_by_portal (portal_step w seen st pu) = new_found_by_portal st
        /\ clock_reads (portal_step w seen st pu) = clock_reads st
        /\ stdout (portal_step w seen st pu)
           = stdout st ++ [LogChecking (fst pu) (snd pu)])
  /\ saved (main w) = saved (main_on w (l1 ++ l2))
  /\ emailed (main w) = emailed (main_on w (l1 ++ l2)).
Proof.
  intros Hreg Hget Hok.
  assert (He : fetch_url w (snd pu) = (Some [], [])).
  { unfold fetch_url. rewrite Hget, Hok. reflexivity. }
  split; [exact He |]. split; [unfold portal_notes; rewrite He; reflexivity |].
  split.
  - intros seen st. destruct pu as [portal url_]. cbn [fst snd] in *.
    rewrite portal_step_eq, He. cbn [fst snd]. repeat split.
  - rewrite main_eq, Hreg. apply main_on_skip. apply news_of_failure.
    right. rewrite He. reflexivity.
Qed.

(** *** The table of new items *)

Lemma dict_set_fresh {V : Type} (k : pystr) (v : V) (d : list (pystr * V)) :
  (forall kv, In kv d -> fst kv <> k) -> dict_set k v d = d ++ [(k, v)].
Proof.
  induction d as [| [k' v'] d IH]; intros H; cbn [dict_set app]; [reflexivity |].
  rewrite bool_decide_eq_false_2 by (apply (H (k', v')); left; reflexivity).
  rewrite IH; [reflexivity |]. intros kv Hin. apply H. right. exact Hin.
Qed.

Lemma found_fold_distinct (w : world) (seen : gmap pystr seen_record)
  (portals : list (pystr * pystr)) (d : list (pystr * list item)) :
  List.NoDup (List.map fst portals) ->
  (forall pu kv, In pu portals -> In kv d -> fst kv <> fst pu) ->
  List.fold_left (found_step w seen) portals d
  = d ++ omap (found_entry w seen) portals.
Proof.
  revert d. induction portals as [| pu portals IH]; intros d Hnd Hd.
  - cbn. rewrite List.app_nil_r. reflexivity.
  - cbn [List.map] in Hnd. inversion Hnd as [| ? ? Hnotin Hnd']; subst.
    cbn [List.fold_left omap list_omap]. fold (omap (found_entry w seen) portals).
    unfold found_step at 2, found_entry at 1.
    destruct (news w seen pu) as [| n l] eqn:Hn.
    + apply IH; [exact Hnd' |]. intros pu' kv Hp Hk. apply Hd; [right |]; assumption.
    + rewrite dict_set_fresh by (intros kv Hk; apply Hd; [left; reflexivity | exact Hk]).
      rewrite IH; [rewrite <- List.app_assoc; reflexivity | exact Hnd' |].
      intros pu' kv Hp Hk. apply List.in_app_or in Hk. destruct Hk as [Hk | [<- | []]].
      * apply Hd; [right |]; assumption.
      * cbn [fst]. intros Heq. apply Hnotin. rewrite Heq.
        apply List.in_map. exact Hp.
Qed.

Lemma URLS_PORTAIS_names : List.NoDup (List.map fst URLS_PORTAIS).
Proof. apply NoDup_ListNoDup. apply (bool_decide_unpack _). vm_compute. exact I. Qed.

Lemma found_eq (w : world) :
  new_found_by_portal (run_portals w (load_seen w) URLS_PORTAIS (initial_state w))
  = omap (found_entry w (load_seen w)) URLS_PORTAIS.
Proof.
  destruct (run_portals_core w (load_seen w) URLS_PORTAIS (initial_state w)) as [_ ->].
  rewrite found_fold_distinct; [reflexivity | exact URLS_PORTAIS_names |].
  intros pu kv _ [].
Qed.

Lemma same_name_same_portal (portals : list (pystr * pystr)) (a b : pystr * pystr) :
  List.NoDup (List.map fst portals) -> In a portals -> In b portals ->
  fst a = fst b -> a = b.
Proof.
  induction portals as [| c portals IH]; intros Hnd Ha Hb Heq; [destruct Ha |].
  cbn [List.map] in Hnd. inversion Hnd as [| ? ? Hnotin Hnd']; subst.
  destruct Ha as [-> | Ha], Hb as [-> | Hb].
  - reflexivity.
  - exfalso. apply Hnotin. rewrite Heq. apply List.in_map. exact Hb.
  - exfalso. apply Hnotin. rewrite <- Heq. apply List.in_map. exact Ha.
  - exact (IH Hnd' Ha Hb Heq).
Qed.

Lemma total_new_pos (found : list (pystr * list item)) (k : pystr)
  (n : item) (l : list item) :
  In (k, n :: l) found -> (0 < total_new found)%nat.
Proof.
  induction found as [| kv found IH]; intros H; [destruct H |].
  cbn [total_new List.fold_right]. destruct H as [-> | H].
  - cbn [snd List.length]. lia.
  - specialize (IH H). unfold total_new in IH. lia.
Qed.

Lemma found_entry_Some (w : world) (seen : gmap pystr seen_record)
  (pu : pystr * pystr) (kv : pystr * list item) :
  found_entry w seen pu = Some kv ->
  kv = (fst pu, news w seen pu) /\ news w seen pu <> [].
Proof.
  unfold found_entry. destruct (news w seen pu) as [| n l]; [discriminate |].
  intros [= <-]. split; [reflexivity | discriminate].
Qed.

(** What a run reports for a portal of the registry is the list of its
    new notes. *)
Lemma reported_news (w : world) (pu : pystr * pystr) :
  In pu URLS_PORTAIS ->
  reported (main w) (fst pu) = news w (load_seen w) pu.
Proof.
  intros Hin. unfold reported. rewrite main_eq.
  destruct (main_on_eq urljoin_nonempty html_parser w URLS_PORTAIS) as (_ & -> & _).
  cbv zeta. rewrite found_eq.
  set (found := omap (found_entry w (load_seen w)) URLS_PORTAIS).
  assert (Hfound : forall kv, In kv found ->
             exists pu', In pu' URLS_PORTAIS /\ kv = (fst pu', news w (load_seen w) pu')
                         /\ news w (load_seen w) pu' <> []).
  { intros kv Hkv. apply list_elem_of_In, list_elem_of_omap in Hkv.
    destruct Hkv as (pu' & Hpu' & He). apply list_elem_of_In in Hpu'.
    destruct (found_entry_Some _ _ _ _ He) as [-> Hne]. exists pu'. auto. }
  destruct (news w (load_seen w) pu) as [| n l] eqn:Hn.
  - (* nothing new at this portal: no entry has its name *)
    destruct (0 <? total_new found)%nat; [| reflexivity].
    destruct (List.find _ found) as [kv |] eqn:Hf; [| reflexivity].
    apply List.find_some in Hf. destruct Hf as [Hkv Hname].
    apply bool_decide_eq_true in Hname.
    destruct (Hfound kv Hkv) as (pu' & Hpu' & -> & Hne). cbn [fst snd] in *.
    rewrite (same_name_same_portal _ _ _ URLS_PORTAIS_names Hpu' Hin Hname) in Hne.
    contradiction.
  - assert (Hentry : In (fst pu, n :: l) found).
    { apply list_elem_of_In, list_elem_of_omap. exists pu.
      split; [apply list_elem_of_In; exact Hin |].
      unfold found_entry. rewrite Hn. reflexivity. }
    pose proof (total_new_pos _ _ _ _ Hentry) as Hpos.
    apply Nat.ltb_lt in Hpos. rewrite Hpos.
    destruct (List.find _ found) as [kv |] eqn:Hf.
    + apply List.find_some in Hf. destruct Hf as [Hkv Hname].
      apply bool_decide_eq_true in Hname.
      destruct (Hfound kv Hkv) as (pu' & Hpu' & -> & Hne). cbn [fst snd] in *.
      rewrite (same_name_same_portal _ _ _ URLS_PORTAIS_names Hpu' Hin Hname).
      exact Hn.
    + exfalso. pose proof (List.find_none _ _ Hf _ Hentry) as Hno.
      cbn [fst] in Hno. apply bool_decide_eq_false in Hno. contradiction.
Qed.

Lemma record_fold_is_Some (w : world) (obs : list (pystr * item))
  (m : gmap pystr seen_record) (r : nat) (k : pystr) :
  is_Some (m !! k) \/ (exists pn, In pn obs /\ seen_key (snd pn) = k) ->
  is_Some (fst (List.fold_left (record_obs w) obs (m, r)) !! k).
Proof.
  revert m r. induction obs as [| pn obs IH]; intros m r H; cbn [List.fold_left].
  - destruct H as [H | (pn & [] & _)]. exact H.
  - unfold record_obs at 2. cbn [fst snd]. apply IH.
    destruct (decide (seen_key (snd pn) = k)) as [<- | Hne].
    + left. rewrite lookup_insert_eq. eexists. reflexivity.
    + destruct H as [H | (pn' & [<- | Hin] & Hk)].
      * left. rewrite lookup_insert_ne by exact Hne. exact H.
      * contradiction.
      * right. exists pn'. auto.
Qed.


(** *** Two runs *)

Lemma flat_map_singleton {A B : Type} (f : A -> list B) (l : list A) (x : B) :
  List.flat_map f l = [x] ->
  exists l1 y l2,
    l = l1 ++ y :: l2 /\ f y = [x]
    /\ List.Forall (fun z => f z = []) l1 /\ List.Forall (fun z => f z = []) l2.
Proof.
  induction l as [| a l IH]; cbn [List.flat_map]; [discriminate |].
  intros H. destruct (f a) as [| b [| b' fa]] eqn:Ha.
  - cbn [app] in H. destruct (IH H) as (l1 & y & l2 & -> & Hy & H1 & H2).
    exists (a :: l1), y, l2. repeat split; [exact Hy | | exact H2].
    constructor; assumption.
  - cbn [app] in H. injection H as -> Hl.
    exists [], a, l. repeat split; [exact Ha | constructor |].
    clear -Hl. induction l as [| c l IH]; [constructor |].
    cbn [List.flat_map] in Hl. apply List.app_eq_nil in Hl. destruct Hl as [Hc Hl].
    constructor; [exact Hc | exact (IH Hl)].
  - cbn [app] in H. discriminate.
Qed.

Lemma is_new_empty (n : item) : is_new ∅ n = true.
Proof. unfold is_new. apply bool_decide_eq_true. apply lookup_empty. Qed.

Lemma news_empty (w : world) (pu : pystr * pystr) :
  news w ∅ pu = portal_notes w pu.
Proof.
  unfold news. induction (portal_notes w pu) as [| n l IH]; [reflexivity |].
  cbn [List.filter]. rewrite is_new_empty, IH. reflexivity.
Qed.

Lemma portal_notes_ext (w w2 : world) (pu : pystr * pystr) :
  (forall u, requests_get w2 u = requests_get w u) ->
  portal_notes w2 pu = portal_notes w pu.
Proof.
  intros H. unfold portal_notes, fetch_url. rewrite H. reflexivity.
Qed.

(** A run in which no portal has a new note saves what it loaded and
    sends nothing. *)
Lemma main_on_quiet (w : world) (portals : list (pystr * pystr)) :
  List.Forall (fun pu => news w (load_seen w) pu = []) portals ->
  saved (main_on w portals) = load_seen w /\ emailed (main_on w portals) = None.
Proof.
  intros H.
  assert (Hobs : observations w (load_seen w) portals = []).
  { unfold observations. induction H as [| pu l Hpu _ IH]; [reflexivity |].
    cbn [List.flat_map]. rewrite Hpu, IH. reflexivity. }
  split.
  - rewrite saved_eq, Hobs. reflexivity.
  - clear Hobs.
    destruct (main_on_eq urljoin_nonempty html_parser w portals) as (_ & -> & _).
    destruct (run_portals_core w (load_seen w) portals (initial_state w)) as [_ ->].
    assert (Hf : forall d, List.fold_left (found_step w (load_seen w)) portals d = d).
    { induction H as [| pu l Hpu _ IH]; intros d; [reflexivity |].
      cbn [List.fold_left]. unfold found_step at 2. rewrite Hpu. apply IH. }
    rewrite Hf. reflexivity.
Qed.


End RunFacts.

(** *** Runs of the examples *)

Import Fixtures Worlds.



(** An Aggressive candidate with a title of more than 150 characters: the
    key of the merge dictionary is not the key of the seen-state check. *)
Example aggressive_key_differs :
  let t := lit "Nota Técnica 2024.002 " ++ List.repeat 0x78 140
           ++ lit " Publicada em 29/09/2024" in
  List.map (fun kv => (title (snd kv),
                       bool_decide (fst kv = seen_key (to_item (snd kv)))))
           (aggressive_candidates (BeautifulSoup [NavigableString t]) base_test)
  = [(t, false)].
Proof. vm_compute. reflexivity. Qed.

(** C8, as stated, fails: in [world_shared] the first two portals list the
    same document. Its key is not in the loaded dictionary; the record is
    created at the first portal, with that portal and the first reading of
    the clock, and the run saves it with the second portal and the second
    reading. *)
Lemma record_overwritten_in_run :
  load_seen world_shared !! seen_key note_abs = None
  /\ updated_seen
       (run_portals resolve_reference parser world_shared (load_seen world_shared)
                    [portal_1] (initial_state world_shared))
       !! seen_key note_abs
     = Some {| sr_title := item_title note_abs; sr_url := item_url note_abs;
               sr_portal := fst portal_1; sr_first_seen := clock 0 |}
  /\ saved (main resolve_reference parser world_shared) !! seen_key note_abs
     = Some {| sr_title := item_title note_abs; sr_url := item_url note_abs;
               sr_portal := fst portal_2; sr_first_seen := clock 1 |}
  /\ fst portal_1 <> fst portal_2
  /\ clock 0 <> clock 1.
Proof.
  split; [vm_compute; reflexivity |].
  split; [vm_compute; reflexivity |].
  split; [vm_compute; reflexivity |].
  split; vm_compute; discriminate.
Qed.

(** C9, as stated, fails for a status that is neither 2xx nor an error
    code of [raise_for_status]: in [world_300] the first portal answers
    with status 300; [fetch_url] prints no warning and returns the text,
    and the run reports the note of that page. *)
Lemma status_300_not_caught :
  requests_get world_300 (snd portal_1) = Response 300 html_row
  /\ fetch_url world_300 (snd portal_1) = (Some html_row, [])
  /\ emailed (main resolve_reference parser world_300)
     = Some [(fst portal_1, [note_row])].
Proof.
  split; [vm_compute; reflexivity |].
  split; vm_compute; reflexivity.
Qed.

Example fetch_url_404 (w : world) (url_ text : pystr) :
  requests_get w url_ = Response 404 text ->
  fetch_url w url_ = (None, [LogWarn url_ (lit "HTTPError")]).
Proof. unfold fetch_url. intros ->. reflexivity. Qed.

Lemma fetch_failure_isolated_witness :
  URLS_PORTAIS = [portal_1] ++ portal_2 :: List.skipn 2 URLS_PORTAIS
  /\ fetch_raises world_first (snd portal_2) = true
  /\ (exists e, fetch_url world_first (snd portal_2) = (None, [LogWarn (snd portal_2) e]))
  /\ saved (main resolve_reference parser world_first)
     = saved (main_on resolve_reference parser world_first
                      ([portal_1] ++ List.skipn 2 URLS_PORTAIS))
  /\ emailed (main resolve_reference parser world_first)
     = emailed (main_on resolve_reference parser world_first
                        ([portal_1] ++ List.skipn 2 URLS_PORTAIS)).
Proof.
  assert (H1 : URLS_PORTAIS = [portal_1] ++ portal_2 :: List.skipn 2 URLS_PORTAIS)
    by reflexivity.
  assert (H2 : fetch_raises world_first (snd portal_2) = true)
    by (vm_compute; reflexivity).
  destruct (fetch_failure_isolated resolve_reference parser world_first
              [portal_1] (List.skipn 2 URLS_PORTAIS) portal_2 H1 H2)
    as (Ha & _ & Hb & Hc).
  split; [exact H1 |]. split; [exact H2 |]. split; [exact Ha |].
  split; [exact Hb | exact Hc].
Defined.

Lemma empty_page_skipped_witness :
  URLS_PORTAIS = [] ++ portal_1 :: List.skipn 1 URLS_PORTAIS
  /\ requests_get world_blank (snd portal_1) = Response 200 []
  /\ raises_for_status 200 = false
  /\ portal_notes resolve_reference parser world_blank portal_1 = []
  /\ saved (main resolve_reference parser world_blank)
     = saved (main_on resolve_reference parser world_blank
                      ([] ++ List.skipn 1 URLS_PORTAIS))
  /\ emailed (main resolve_reference parser world_blank)
     = emailed (main_on resolve_reference parser world_blank
                        ([] ++ List.skipn 1 URLS_PORTAIS)).
Proof.
  assert (H1 : URLS_PORTAIS = [] ++ portal_1 :: List.skipn 1 URLS_PORTAIS)
    by reflexivity.
  assert (H2 : requests_get world_blank (snd portal_1) = Response 200 [])
    by (vm_compute; reflexivity).
  assert (H3 : raises_for_status 200 = false) by reflexivity.
  destruct (empty_page_skipped resolve_reference parser world_blank
              [] (List.skipn 1 URLS_PORTAIS) portal_1 200 H1 H2 H3)
    as (_ & Ha & _ & Hb & Hc).
  split; [exact H1 |]. split; [exact H2 |]. split; [exact H3 |].
  split; [exact Ha |]. split; [exact Hb | exact Hc].
Defined.

(** * Further properties *)

(** ** [sha256_text] *)

Lemma hex_digit_lower (x : N) : x < 16 -> is_lower_hex (SHA256.hex_digit x) = true.
Proof.
  intros H. unfold SHA256.hex_digit, is_lower_hex.
  destruct (x <? 10) eqn:Hx.
  - apply N.ltb_lt in Hx. apply orb_true_intro. left.
    apply andb_true_intro. split; apply N.leb_le; lia.
  - apply N.ltb_ge in Hx. apply orb_true_intro. right.
    apply andb_true_intro. split; apply N.leb_le; lia.
Qed.

Lemma hex_word_lower (w : N) :
  List.length (SHA256.hex_word w) = 8%nat
  /\ List.Forall (fun c => is_lower_hex c = true) (SHA256.hex_word w).
Proof.
  unfold SHA256.hex_word. split; [reflexivity |].
  apply List.Forall_forall. intros c Hc. apply List.in_map_iff in Hc.
  destruct Hc as (i & <- & _). apply hex_digit_lower.
  change 0xF with (N.ones 4). rewrite N.land_ones.
  apply N.mod_lt. discriminate.
Qed.

Lemma hexdigest_shape (msg : list N) :
  List.length (SHA256.hexdigest msg) = 64%nat
  /\ List.Forall (fun c => is_lower_hex c = true) (SHA256.hexdigest msg).
Proof.
  unfold SHA256.hexdigest, SHA256.digest_words.
  destruct (List.fold_left SHA256.compress _ SHA256.init)
    as [[[[[[[a b] c] d] e] f] g] h].
  cbn [List.flat_map]. split.
  - rewrite !List.length_app.
    repeat rewrite (proj1 (hex_word_lower _)). reflexivity.
  - repeat (apply List.Forall_app; split; [apply hex_word_lower |]).
    constructor.
Qed.


(** ** More on [find_notes] *)

Lemma merge_all_length (cands : list (pystr * note)) (d : notes_dict) :
  (List.length (merge_all cands d) <= List.length d + List.length cands)%nat.
Proof.
  revert d. induction cands as [| kv cands IH]; intros d; cbn [merge_all List.fold_left].
  - cbn. lia.
  - fold (merge_all cands (insert_if_absent kv d)).
    specialize (IH (insert_if_absent kv d)). unfold insert_if_absent in *.
    destruct (dict_has (fst kv) d); cbn [List.length] in *;
      rewrite ?List.length_app in IH; cbn [List.length] in IH; lia.
Qed.

Lemma merge_all_nil (cands : list (pystr * note)) :
  merge_all cands [] = [] <-> cands = [].
Proof.
  split; [| intros ->; reflexivity].
  destruct cands as [| kv cands]; [reflexivity |]. intros H.
  pose proof (merge_all_has (kv :: cands) [] kv (or_introl eq_refl)) as Hh.
  rewrite H in Hh. discriminate.
Qed.

Lemma merge_all_in (cands : list (pystr * note)) (d : notes_dict)
  (kv : pystr * note) :
  In kv (merge_all cands d) -> In kv d \/ In kv cands.
Proof.
  destruct (merge_all_grows cands d) as (added & -> & Hall & _).
  intros H. apply List.in_app_or in H. destruct H as [H | H]; [left; exact H |].
  right. rewrite List.Forall_forall in Hall. exact (proj1 (Hall kv H)).
Qed.

Lemma omap_nil_iff {A B : Type} (f : A -> option B) (l : list A) :
  omap f l = [] <-> List.Forall (fun x => f x = None) l.
Proof.
  induction l as [| x l IH]; cbn [omap list_omap].
  - split; [constructor | reflexivity].
  - fold (omap f l). destruct (f x) eqn:Hx.
    + split; [discriminate |]. intros H. inversion H; congruence.
    + rewrite IH. split; [intros H; constructor; assumption |].
      intros H. inversion H; assumption.
Qed.

Lemma aggressive_candidate_filter (base_url : pystr) (m : re_match) :
  strip (group0 m) = group0 m ->
  aggressive_candidate base_url m
  = if length_ok m
    then Some (sha256_text (List.firstn 150 (group0 m) ++ BARS ++ base_url),
               {| title := group0 m; url := base_url;
                  date := extract_date_from_text (group2 m) |})
    else None.
Proof.
  intros Hs. unfold aggressive_candidate, length_ok. rewrite Hs. reflexivity.
Qed.

Section ExtractionMore.

Variable urljoin_nonempty : pystr -> pystr -> pystr.

Local Abbreviation structural_pass := (structural_pass urljoin_nonempty).
Local Abbreviation merged := (merged urljoin_nonempty).
Local Abbreviation final_list := (final_list urljoin_nonempty).
Local Abbreviation find_notes_soup := (find_notes_soup urljoin_nonempty).
Local Abbreviation structural_candidates := (structural_candidates urljoin_nonempty).

Lemma merged_all (soup : node) (base_url : pystr) :
  merged soup base_url
  = merge_all (structural_candidates soup base_url
               ++ aggressive_candidates soup base_url) [].
Proof.
  rewrite merge_all_app, <- structural_pass_merge. apply merged_merge.
Qed.

Lemma find_notes_soup_length (soup : node) (base_url : pystr) :
  List.length (find_notes_soup soup base_url)
  = List.length (merged soup base_url).
Proof.
  rewrite find_notes_soup_eq, final_list_eq, List.length_map.
  rewrite (Permutation_length (sort_desc_perm _)). apply List.length_map.
Qed.

(** X2. [find_notes] returns the empty list exactly when neither loop has
    a candidate: no link returned by [find_all] has a text that matches
    the keyword pattern, and no match of the aggressive pattern has a
    length between 51 and 999. *)
Theorem find_notes_empty (soup : node) (base_url : pystr) :
  find_notes_soup soup base_url = []
  <-> (List.Forall (fun ap => PATTERN_search (get_text [] (fst ap)) = false)
                   (find_all_a soup)
       /\ List.Forall (fun m => length_ok m = false)
                      (AGRESSIVO_finditer (texto_simples soup))).
Proof.
  assert (H1 : find_notes_soup soup base_url = []
               <-> structural_candidates soup base_url = []
                   /\ aggressive_candidates soup base_url = []).
  { rewrite <- List.length_zero_iff_nil, find_notes_soup_length,
      List.length_zero_iff_nil, merged_all, merge_all_nil.
    split; [apply List.app_eq_nil | intros [-> ->]; reflexivity]. }
  rewrite H1. unfold structural_candidates, aggressive_candidates.
  rewrite !omap_nil_iff. split; intros [Hs Ha]; split.
  - eapply List.Forall_impl; [| exact Hs]. intros ap H.
    exact (structural_candidate_None _ _ _ H).
  - apply List.Forall_forall. intros m Hm.
    rewrite List.Forall_forall in Ha. specialize (Ha m Hm).
    rewrite (aggressive_candidate_filter _ _ (finditer_strip _ _ Hm)) in Ha.
    destruct (length_ok m); [discriminate | reflexivity].
  - eapply List.Forall_impl; [| exact Hs]. intros [a parents] H. cbn [fst] in H.
    unfold structural_candidate. rewrite H. reflexivity.
  - apply List.Forall_forall. intros m Hm.
    rewrite List.Forall_forall in Ha. specialize (Ha m Hm).
    rewrite (aggressive_candidate_filter _ _ (finditer_strip _ _ Hm)), Ha.
    reflexivity.
Qed.

(** X3. The merge dictionary never holds a key twice, loses no key and
    invents no entry: the keys of its entries are pairwise different,
    every candidate of either loop has its key in it, every entry is a
    candidate of one of the loops, and [find_notes] returns one element
    per entry, so at most as many as there are candidates. *)
Theorem merged_dedup (soup : node) (base_url : pystr) :
  List.NoDup (List.map fst (merged soup base_url))
  /\ (forall kv,
        In kv (structural_candidates soup base_url
               ++ aggressive_candidates soup base_url) ->
        dict_has (fst kv) (merged soup base_url) = true)
  /\ (forall kv,
        In kv (merged soup base_url) ->
        In kv (structural_candidates soup base_url
               ++ aggressive_candidates soup base_url))
  /\ List.length (find_notes_soup soup base_url)
     = List.length (merged soup base_url)
  /\ (List.length (find_notes_soup soup base_url)
      <= List.length (structural_candidates soup base_url)
         + List.length (aggressive_candidates soup base_url))%nat.
Proof.
  split; [| split; [| split; [| split]]].
  - rewrite merged_all.
    destruct (merge_all_grows (structural_candidates soup base_url
                               ++ aggressive_candidates soup base_url) [])
      as (added & -> & _ & Hnd). exact Hnd.
  - intros kv Hin. rewrite merged_all. apply merge_all_has. exact Hin.
  - intros kv Hin. rewrite merged_all in Hin.
    destruct (merge_all_in _ _ _ Hin) as [[] | H]. exact H.
  - apply find_notes_soup_length.
  - rewrite find_notes_soup_length, merged_all, <- List.length_app.
    apply (merge_all_length _ []).
Qed.

End ExtractionMore.

(** ** The matches of the aggressive pattern, again *)

Lemma prefix_ci_app_inv (p g post : pystr) :
  prefix_ci p (g ++ post) = true -> (List.length p <= List.length g)%nat ->
  prefix_ci p g = true.
Proof.
  revert g. induction p as [| c p IH]; intros g H Hl; [reflexivity |].
  destruct g as [| c' g]; [cbn in Hl; lia |].
  cbn [app prefix_ci] in *. apply andb_prop in H. destruct H as [H1 H2].
  rewrite H1. cbn [andb]. apply IH; [exact H2 | cbn in Hl; lia].
Qed.

Lemma marker_at_ci (s d : pystr) :
  marker_at s = Some d ->
  exists mk post, s = mk ++ d ++ post
                  /\ prefix_ci PUBLICADA_EM mk = true
                  /\ List.length mk = 13%nat /\ date_shaped d.
Proof.
  unfold marker_at. destruct (prefix_ci PUBLICADA_EM s) eqn:Hp; [| discriminate].
  intros Hd. destruct (prefix_ci_split _ _ Hp) as (mk & rest & -> & Hl & Hs).
  rewrite Hs in Hd. apply date_at_Some in Hd. destruct Hd as [Hsh [post ->]].
  exists mk, post. split; [reflexivity |]. split; [| split; [exact Hl | exact Hsh]].
  apply (prefix_ci_app_inv _ _ _ Hp). rewrite Hl. lia.
Qed.

(** The lazy repetition stops at the first place where the marker
    follows. *)
Lemma find_marker_first (s d : pystr) (j : nat) :
  find_marker s = Some (j, d) ->
  marker_at (List.skipn j s) = Some d
  /\ forall i, (i < j)%nat -> marker_at (List.skipn i s) = None.
Proof.
  revert j. induction s as [| c s IH]; intros j; cbn [find_marker].
  - destruct (marker_at []) as [d' |] eqn:Hm; [| discriminate].
    intros [= <- <-]. split; [exact Hm | intros i Hi; lia].
  - destruct (marker_at (c :: s)) as [d' |] eqn:Hm.
    + intros [= <- <-]. split; [exact Hm | intros i Hi; lia].
    + destruct (find_marker s) as [[j' d'] |] eqn:Hf; [| discriminate].
      intros [= <- <-]. destruct (IH j' eq_refl) as [H1 H2].
      split; [exact H1 |]. intros [| i] Hi; [exact Hm |].
      cbn [List.skipn]. apply H2. lia.
Qed.

(** The shape of a match at the start of [s]: a keyword, a body in which
    the marker starts nowhere, "Publicada em " and the date of group 2. *)
Lemma agressivo_alts_at_shape (alts : list pystr) (s : pystr) (m : re_match) :
  agressivo_alts_at alts s = Some m ->
  exists p kw body mk post,
    In p alts
    /\ prefix_ci p kw = true /\ List.length kw = List.length p
    /\ group0 m = kw ++ body ++ mk ++ group2 m
    /\ prefix_ci PUBLICADA_EM mk = true /\ List.length mk = 13%nat
    /\ date_shaped (group2 m)
    /\ s = group0 m ++ post
    /\ forall i, (i < List.length body)%nat ->
                 marker_at (List.skipn i (body ++ mk ++ group2 m ++ post)) = None.
Proof.
  induction alts as [| p alts IH]; cbn [agressivo_alts_at]; [discriminate |].
  assert (Hrec : agressivo_alts_at alts s = Some m ->
            exists p0 kw body mk post,
              In p0 (p :: alts)
              /\ prefix_ci p0 kw = true /\ List.length kw = List.length p0
              /\ group0 m = kw ++ body ++ mk ++ group2 m
              /\ prefix_ci PUBLICADA_EM mk = true /\ List.length mk = 13%nat
              /\ date_shaped (group2 m)
              /\ s = group0 m ++ post
              /\ forall i, (i < List.length body)%nat ->
                   marker_at (List.skipn i (body ++ mk ++ group2 m ++ post)) = None).
  { intros H. destruct (IH H) as (p0 & kw & body & mk & post & Hin & Hrest).
    exists p0, kw, body, mk, post. split; [right; exact Hin | exact Hrest]. }
  destruct (prefix_ci p s) eqn:Hp; [| exact Hrec].
  destruct (find_marker (List.skipn (List.length p) s)) as [[j d] |] eqn:Hf;
    [| exact Hrec].
  intros [= <-]. cbn [group0 group2].
  destruct (prefix_ci_split _ _ Hp) as (kw & rest & Hs & Hl & Hsk).
  rewrite Hsk in Hf. destruct (find_marker_first _ _ _ Hf) as [Hat Hfirst].
  destruct (marker_at_ci _ _ Hat) as (mk & post & Hr & Hmk & Hml & Hsh).
  destruct (date_shaped_last _ Hsh) as (_ & _ & _ & _ & Hd10).
  assert (Hj : (j <= List.length rest)%nat).
  { destruct (Nat.le_gt_cases j (List.length rest)) as [H | H]; [exact H |].
    rewrite List.skipn_all2 in Hr by lia. destruct mk; discriminate. }
  set (body := List.firstn j rest).
  assert (Hbody : List.length body = j) by (unfold body; rewrite List.length_firstn; lia).
  assert (Hrest : rest = body ++ mk ++ d ++ post).
  { rewrite <- Hr. unfold body. symmetry. apply List.firstn_skipn. }
  assert (H13 : List.length PUBLICADA_EM = 13%nat) by reflexivity.
  rewrite ?H13.
  assert (Hg : List.firstn (List.length p + j + 13 + 10) s = kw ++ body ++ mk ++ d).
  { rewrite Hs, Hrest.
    replace (kw ++ body ++ mk ++ d ++ post) with ((kw ++ body ++ mk ++ d) ++ post)
      by (rewrite <- !List.app_assoc; reflexivity).
    apply take_app_length'. rewrite !List.length_app. lia. }
  rewrite Hg. exists p, kw, body, mk, post.
  split; [left; reflexivity |].
  split; [apply (prefix_ci_app_inv p kw rest); [rewrite <- Hs; exact Hp | lia] |].
  split; [exact Hl |]. split; [reflexivity |]. split; [exact Hmk |].
  split; [exact Hml |]. split; [exact Hsh |].
  split; [rewrite Hs, Hrest, <- !List.app_assoc; reflexivity |].
  intros i Hi. rewrite <- Hrest. apply Hfirst. lia.
Qed.

Lemma DATE_PATTERN_search_shaped (d : pystr) :
  date_shaped d -> DATE_PATTERN_search d = Some d.
Proof.
  intros H. pose proof (date_at_shaped d [] H) as Hd. rewrite List.app_nil_r in Hd.
  destruct d as [| c d]; cbn [DATE_PATTERN_search]; rewrite Hd; reflexivity.
Qed.

Lemma PATTERN_search_nonempty (t : pystr) : PATTERN_search t = true -> t <> [].
Proof. intros H ->. vm_compute in H. discriminate. Qed.

Section AggressiveMore.

Variable urljoin_nonempty : pystr -> pystr -> pystr.

Local Abbreviation merged := (merged urljoin_nonempty).
Local Abbreviation find_notes_soup := (find_notes_soup urljoin_nonempty).
Local Abbreviation structural_candidates := (structural_candidates urljoin_nonempty).

Lemma aggressive_candidates_in (soup : node) (base_url : pystr)
  (kv : pystr * note) :
  In kv (aggressive_candidates soup base_url) ->
  exists m s,
    agressivo_at s = Some m /\ length_ok m = true
    /\ kv = (sha256_text (List.firstn 150 (group0 m) ++ BARS ++ base_url),
             {| title := group0 m; url := base_url;
                date := extract_date_from_text (group2 m) |}).
Proof.
  unfold aggressive_candidates. intros Hin.
  apply list_elem_of_In, list_elem_of_omap in Hin. destruct Hin as (m & Hm & Hc).
  apply list_elem_of_In in Hm.
  rewrite (aggressive_candidate_filter _ _ (finditer_strip _ _ Hm)) in Hc.
  destruct (finditer_go_in _ _ _ Hm) as [s Hs].
  exists m, s. destruct (length_ok m); [| discriminate].
  injection Hc as <-. repeat split. exact Hs.
Qed.

(** An element of the result comes from a candidate of one of the two
    passes. *)
Lemma find_notes_soup_origin (soup : node) (base_url : pystr) (it : item) :
  In it (find_notes_soup soup base_url) ->
  exists kv, it = to_item (snd kv)
             /\ (In kv (structural_candidates soup base_url)
                 \/ In kv (aggressive_candidates soup base_url)).
Proof.
  intros Hin. rewrite find_notes_soup_eq, final_list_eq in Hin.
  apply List.in_map_iff in Hin. destruct Hin as (n & <- & Hn).
  apply (Permutation_in _ (sort_desc_perm _)) in Hn.
  apply List.in_map_iff in Hn. destruct Hn as (kv & <- & Hkv).
  rewrite merged_merge, structural_pass_merge in Hkv.
  apply merge_all_in in Hkv. exists kv. split; [reflexivity |].
  destruct Hkv as [Hkv | Hkv]; [| right; exact Hkv].
  apply merge_all_in in Hkv. destruct Hkv as [[] | Hkv]. left. exact Hkv.
Qed.

Lemma find_notes_soup_title (soup : node) (base_url : pystr) (it : item) :
  In it (find_notes_soup soup base_url) -> item_title it <> [].
Proof.
  intros Hin. destruct (find_notes_soup_origin _ _ _ Hin) as (kv & -> & [Hkv | Hkv]);
    cbn [to_item item_title].
  - destruct (structural_candidates_key _ _ _ _ Hkv) as [Hp _].
    exact (PATTERN_search_nonempty _ Hp).
  - destruct (aggressive_candidates_in _ _ _ Hkv) as (m & s & _ & Hok & ->).
    cbn [snd title]. unfold length_ok in Hok. apply andb_prop in Hok.
    destruct Hok as [H1 _]. apply Nat.ltb_lt in H1.
    intros H0. rewrite H0 in H1. cbn in H1. lia.
Qed.

(** X4. Every element of the list that [find_notes] returns has a title
    that is not empty: the title matches the keyword pattern, or the url
    is the page URL and the title has between 51 and 999 characters and
    starts with one of the keywords of the aggressive pattern. *)
Theorem find_notes_titles (soup : node) (base_url : pystr) (it : item) :
  In it (find_notes_soup soup base_url) ->
  item_title it <> []
  /\ (PATTERN_search (item_title it) = true
      \/ (item_url it = base_url
          /\ (50 < List.length (item_title it) < 1000)%nat
          /\ exists p, In p AGRESSIVO_alts /\ prefix_ci p (item_title it) = true)).
Proof.
  intros Hin. destruct (find_notes_soup_origin _ _ _ Hin) as (kv & -> & Hkv).
  cbn [to_item item_title item_url].
  destruct Hkv as [Hkv | Hkv].
  - destruct (structural_candidates_key _ _ _ _ Hkv) as [Hp _].
    split; [exact (PATTERN_search_nonempty _ Hp) | left; exact Hp].
  - destruct (aggressive_candidates_in _ _ _ Hkv) as (m & s & Hs & Hok & ->).
    cbn [snd title url].
    unfold length_ok in Hok. apply andb_prop in Hok. destruct Hok as [H1 H2].
    apply Nat.ltb_lt in H1. apply Nat.ltb_lt in H2.
    split; [intros H0; rewrite H0 in H1; cbn in H1; lia |].
    right. split; [reflexivity |]. split; [lia |].
    destruct (agressivo_alts_at_shape _ _ _ Hs)
      as (p & kw & body & mk & post & Hp & Hkw & Hl & Hg & _).
    exists p. split; [exact Hp |]. rewrite Hg.
    clear -Hkw Hl. revert kw Hkw Hl. induction p as [| c p IH]; intros kw Hkw Hl;
      [reflexivity |].
    destruct kw as [| c' kw]; [discriminate |]. cbn [app prefix_ci] in *.
    apply andb_prop in Hkw. destruct Hkw as [Hc Hkw]. rewrite Hc. cbn [andb].
    apply IH; [exact Hkw | cbn in Hl; lia].
Qed.

Lemma prefix_ci_app (p x post : pystr) :
  (List.length p <= List.length x)%nat ->
  prefix_ci p (x ++ post) = prefix_ci p x.
Proof.
  revert x. induction p as [| c p IH]; intros x Hl; [reflexivity |].
  destruct x as [| c' x]; [cbn in Hl; lia |].
  cbn [app prefix_ci]. rewrite IH by (cbn in Hl; lia). reflexivity.
Qed.

Lemma date_at_app (y post : pystr) :
  (10 <= List.length y)%nat -> date_at (y ++ post) = date_at y.
Proof.
  intros Hl.
  do 10 (destruct y as [| ? y]; [cbn in Hl; lia |]). reflexivity.
Qed.

(** Whether the marker starts a text is decided by its first 23
    characters. *)
Lemma marker_at_app (x post : pystr) :
  (23 <= List.length x)%nat -> marker_at (x ++ post) = marker_at x.
Proof.
  intros Hl. unfold marker_at.
  assert (H13 : List.length PUBLICADA_EM = 13%nat) by reflexivity.
  rewrite prefix_ci_app by (rewrite H13; lia).
  rewrite H13, List.skipn_app.
  replace (13 - List.length x)%nat with 0%nat by lia. cbn [List.skipn].
  rewrite date_at_app by (rewrite List.length_skipn; lia). reflexivity.
Qed.


End AggressiveMore.

(** ** The matches in the text *)

Lemma finditer_go_skip (skip : nat) (s : pystr) :
  finditer_go skip s = finditer_go O (List.skipn skip s).
Proof.
  revert skip. induction s as [| c s IH]; intros skip.
  - destruct skip; reflexivity.
  - destruct skip as [| k]; [reflexivity |].
    cbn [finditer_go List.skipn]. apply IH.
Qed.

Lemma agressivo_at_nonempty (s : pystr) (m : re_match) :
  agressivo_at s = Some m -> group0 m <> [].
Proof.
  intros H. destruct (agressivo_alts_at_shape _ _ _ H)
    as (p & kw & body & mk & post & Hp & _ & Hl & Hg & _).
  pose proof (AGRESSIVO_alts_initial p Hp) as (p0 & p' & -> & _).
  rewrite Hg. destruct kw; [discriminate | discriminate].
Qed.

Lemma finditer_decomposition (n : nat) (s : pystr) :
  (List.length s <= n)%nat ->
  exists gaps tail,
    List.length gaps = List.length (finditer_go O s)
    /\ s = interleave gaps (List.map group0 (finditer_go O s)) tail.
Proof.
  revert s. induction n as [| n IH]; intros s Hl.
  - destruct s; [| cbn in Hl; lia]. exists [], []. split; reflexivity.
  - destruct s as [| c rest]; [exists [], []; split; reflexivity |].
    cbn [finditer_go]. destruct (agressivo_at (c :: rest)) as [m |] eqn:Ha.
    + destruct (agressivo_alts_at_shape _ _ _ Ha)
        as (_ & _ & _ & _ & post & _ & _ & _ & _ & _ & _ & _ & Hs & _).
      pose proof (agressivo_at_nonempty _ _ Ha) as Hne.
      destruct (group0 m) as [| c0 g0] eqn:Hg; [contradiction |].
      cbn [app] in Hs. injection Hs as <- Hrest.
      replace (List.length (c :: g0) - 1)%nat with (List.length g0)
        by (cbn [List.length]; lia).
      rewrite finditer_go_skip.
      rewrite Hrest, List.skipn_app, List.skipn_all, Nat.sub_diag.
      change (List.skipn 0 post) with post. cbn [app].
      destruct (IH post) as (gaps & tail & Hlen & Heq).
      { cbn in Hl. rewrite Hrest, List.length_app in Hl. lia. }
      exists ([] :: gaps), tail. cbn [List.length List.map interleave app].
      split; [rewrite Hlen; reflexivity |].
      rewrite Hg, <- Heq. reflexivity.
    + destruct (IH rest) as (gaps & tail & Hlen & Heq); [cbn in Hl; lia |].
      destruct gaps as [| g gaps].
      * exists [], (c :: rest). split; [exact Hlen |].
        destruct (finditer_go O rest); [reflexivity | discriminate].
      * destruct (finditer_go O rest) as [| m ms] eqn:Hm; [discriminate |].
        exists ((c :: g) :: gaps), tail. split; [exact Hlen |].
        cbn [List.map interleave app] in *. rewrite Heq at 1. reflexivity.
Qed.

(** X6. The matches of the aggressive pattern are pieces of the text that
    follow each other without overlap, in the order in which
    [finditer] yields them: the text is a gap, the first match, a gap, the
    second match and so on, then a tail; no match is empty, each ends with
    its date and "Publicada em " precedes the date. *)
Theorem finditer_disjoint (text : pystr) :
  (exists gaps tail,
      List.length gaps = List.length (AGRESSIVO_finditer text)
      /\ text = interleave gaps (List.map group0 (AGRESSIVO_finditer text)) tail)
  /\ List.Forall
       (fun m => group0 m <> []
                 /\ exists kw_body mk,
                      group0 m = kw_body ++ mk ++ group2 m
                      /\ prefix_ci PUBLICADA_EM mk = true
                      /\ date_shaped (group2 m))
       (AGRESSIVO_finditer text).
Proof.
  split; [exact (finditer_decomposition (List.length text) text (le_n _)) |].
  apply List.Forall_forall. intros m Hm.
  destruct (finditer_go_in _ _ _ Hm) as [s Hs].
  split; [exact (agressivo_at_nonempty _ _ Hs) |].
  destruct (agressivo_alts_at_shape _ _ _ Hs)
    as (p & kw & body & mk & post & _ & _ & _ & Hg & Hmk & _ & Hsh & _).
  exists (kw ++ body), mk. rewrite <- List.app_assoc.
  split; [exact Hg |]. split; [exact Hmk | exact Hsh].
Qed.

(** ** The flattened text *)

Lemma space_is_space : isspace 0x20 = true.
Proof. reflexivity. Qed.

Lemma spaced_word (w rest : pystr) (b : bool) :
  w <> [] -> List.Forall (fun c => isspace c = false) w ->
  spaced b (w ++ rest) = spaced false rest.
Proof.
  revert b. induction w as [| c w IH]; intros b Hne Hw; [contradiction |].
  inversion Hw as [| ? ? Hc Hw']; subst. cbn [app spaced].
  assert (Hc20 : (c =? 0x20) = false).
  { apply N.eqb_neq. intros ->. rewrite space_is_space in Hc. discriminate. }
  rewrite Hc20, Hc. cbn [negb andb].
  destruct w as [| c' w]; [reflexivity |].
  apply IH; [discriminate | exact Hw'].
Qed.

Lemma spaced_join (ws : list pystr) :
  List.Forall (fun w => w <> [] /\ List.Forall (fun c => isspace c = false) w) ws ->
  ws <> [] ->
  forall b, spaced b (join [0x20] ws) = true.
Proof.
  intros Hws. induction Hws as [| w ws [Hne Hw] Hrest IH]; intros Hnil b;
    [contradiction |].
  cbn [join]. destruct ws as [| w' ws].
  - rewrite <- (List.app_nil_r w), (spaced_word w [] b Hne Hw). reflexivity.
  - rewrite (spaced_word w _ b Hne Hw). cbn [app spaced N.eqb Pos.eqb negb andb].
    apply IH. discriminate.
Qed.

Lemma split_go_words (cur s : pystr) :
  List.Forall (fun c => isspace c = false) cur ->
  List.Forall (fun w => w <> [] /\ List.Forall (fun c => isspace c = false) w)
              (split_go cur s).
Proof.
  revert cur. induction s as [| c s IH]; intros cur Hcur; cbn [split_go].
  - destruct cur as [| c0 cur]; [constructor |].
    constructor; [| constructor]. split.
    + intros H. apply (f_equal (@List.length N)) in H.
      rewrite List.length_rev in H. discriminate.
    + apply List.Forall_rev. exact Hcur.
  - destruct (isspace c) eqn:Hc.
    + destruct cur as [| c0 cur]; [apply IH; constructor |].
      constructor; [| apply IH; constructor]. split.
      * intros H. apply (f_equal (@List.length N)) in H.
        rewrite List.length_rev in H. discriminate.
      * apply List.Forall_rev. exact Hcur.
    + apply IH. constructor; assumption.
Qed.

Lemma spaced_chars (b : bool) (t : pystr) :
  spaced b t = true ->
  forall c, In c t -> isspace c = true -> c = 0x20.
Proof.
  revert b. induction t as [| c0 t IH]; intros b H c Hin Hc; [destruct Hin |].
  cbn [spaced] in H. destruct (c0 =? 0x20) eqn:H20.
  - apply andb_prop in H. destruct H as [_ H]. destruct Hin as [<- | Hin].
    + apply N.eqb_eq. exact H20.
    + exact (IH _ H c Hin Hc).
  - apply andb_prop in H. destruct H as [Hn H]. destruct Hin as [<- | Hin].
    + rewrite Hc in Hn. discriminate.
    + exact (IH _ H c Hin Hc).
Qed.

Lemma spaced_no_double (b : bool) (pre post : pystr) :
  spaced b (pre ++ 0x20 :: 0x20 :: post) = false.
Proof.
  revert b. induction pre as [| c pre IH]; intros b.
  - cbn [app spaced N.eqb Pos.eqb negb andb]. apply andb_false_r.
  - cbn [app spaced]. destruct (c =? 0x20); rewrite IH; apply andb_false_r.
Qed.

Lemma spaced_no_trailing (b : bool) (pre : pystr) :
  spaced b (pre ++ [0x20]) = false.
Proof.
  revert b. induction pre as [| c pre IH]; intros b.
  - cbn [app spaced N.eqb Pos.eqb negb andb]. apply andb_false_r.
  - cbn [app spaced]. destruct (c =? 0x20); rewrite IH; apply andb_false_r.
Qed.

(** X7. The text on which the aggressive pattern runs is collapsed: its
    only white-space character is the space, it has no two spaces in a
    row, and it neither starts nor ends with a space. *)
Theorem texto_simples_collapsed (soup : node) :
  (forall c, In c (texto_simples soup) -> isspace c = true -> c = 0x20)
  /\ (forall pre post, texto_simples soup <> pre ++ 0x20 :: 0x20 :: post)
  /\ (forall post, texto_simples soup <> 0x20 :: post)
  /\ (forall pre, texto_simples soup <> pre ++ [0x20]).
Proof.
  unfold texto_simples.
  set (ws := split (get_text (lit " ") soup)).
  assert (Hws : List.Forall
                  (fun w => w <> [] /\ List.Forall (fun c => isspace c = false) w) ws)
    by (apply split_go_words; constructor).
  change (lit " ") with [0x20] at 1 2 3 4.
  destruct ws as [| w ws'] eqn:Hw.
  - cbn [join]. repeat split.
    + intros c [].
    + intros pre post H. destruct pre; discriminate.
    + intros post H. discriminate.
    + intros pre H. destruct pre; discriminate.
  - pose proof (spaced_join (w :: ws') Hws ltac:(discriminate) true) as Hsp.
    repeat split.
    + exact (spaced_chars _ _ Hsp).
    + intros pre post H. rewrite H, spaced_no_double in Hsp. discriminate.
    + intros post H. rewrite H in Hsp. cbn in Hsp. discriminate.
    + intros pre H. rewrite H, spaced_no_trailing in Hsp. discriminate.
Qed.

(** ** More on the run *)

Lemma record_fold_is_Some_inv (w : world) (obs : list (pystr * item))
  (m : gmap pystr seen_record) (r : nat) (k : pystr) :
  is_Some (fst (List.fold_left (record_obs w) obs (m, r)) !! k) ->
  is_Some (m !! k) \/ (exists pn, In pn obs /\ seen_key (snd pn) = k).
Proof.
  revert m r. induction obs as [| pn obs IH]; intros m r H; cbn [List.fold_left] in H.
  - left. exact H.
  - unfold record_obs at 2 in H. cbn [fst snd] in H.
    destruct (IH _ _ H) as [Hm | (pn' & Hin & Hk)].
    + destruct (decide (seen_key (snd pn) = k)) as [Heq | Hne].
      * right. exists pn. split; [left; reflexivity | exact Heq].
      * left. rewrite lookup_insert_ne in Hm by exact Hne. exact Hm.
    + right. exists pn'. split; [right; exact Hin | exact Hk].
Qed.

Lemma record_fold_size (w : world) (obs : list (pystr * item))
  (m : gmap pystr seen_record) (r : nat) :
  (size m <= size (fst (List.fold_left (record_obs w) obs (m, r)))
   <= size m + List.length obs)%nat.
Proof.
  revert m r. induction obs as [| pn obs IH]; intros m r; cbn [List.fold_left List.length].
  - cbn [fst]. lia.
  - change (record_obs w (m, r) pn)
      with (<[seen_key (snd pn) := record_of w (fst pn) (snd pn) r]> m, S r).
    specialize (IH (<[seen_key (snd pn) := record_of w (fst pn) (snd pn) r]> m) (S r)).
    rewrite map_size_insert in IH.
    destruct (m !! seen_key (snd pn)); unfold id in IH; lia.
Qed.

Section RunMore.

Variable urljoin_nonempty : pystr -> pystr -> pystr.
Variable html_parser : pystr -> list node.

Local Abbreviation main_on := (main_on urljoin_nonempty html_parser).
Local Abbreviation main := (main urljoin_nonempty html_parser).
Local Abbreviation run_portals := (run_portals urljoin_nonempty html_parser).
Local Abbreviation portal_notes := (portal_notes urljoin_nonempty html_parser).
Local Abbreviation news := (news urljoin_nonempty html_parser).
Local Abbreviation observations := (observations urljoin_nonempty html_parser).
Local Abbreviation found_entry := (found_entry urljoin_nonempty html_parser).

Lemma saved_main (w : world) :
  saved (main w)
  = fst (List.fold_left (record_obs w)
           (observations w (load_seen w) URLS_PORTAIS) (load_seen w, O)).
Proof. rewrite main_eq. apply saved_eq. Qed.

Lemma emailed_main (w : world) :
  emailed (main w)
  = (if (0 <? total_new (omap (found_entry w (load_seen w)) URLS_PORTAIS))%nat
     then Some (omap (found_entry w (load_seen w)) URLS_PORTAIS) else None).
Proof.
  rewrite main_eq.
  destruct (main_on_eq urljoin_nonempty html_parser w URLS_PORTAIS) as (_ & -> & _).
  cbv zeta. rewrite found_eq. reflexivity.
Qed.

Lemma in_observations (w : world) (seen : gmap pystr seen_record)
  (portals : list (pystr * pystr)) (pu : pystr * pystr) (n : item) :
  In pu portals -> In n (portal_notes w pu) -> seen !! seen_key n = None ->
  In (fst pu, n) (observations w seen portals).
Proof.
  intros Hpu Hn Hs. unfold observations. apply List.in_flat_map. exists pu.
  split; [exact Hpu |]. apply List.in_map. unfold news.
  apply List.filter_In. split; [exact Hn |].
  unfold is_new. apply bool_decide_eq_true. exact Hs.
Qed.

(** Every note found in a run has its key in what the run saves. *)
Lemma saved_has_note (w : world) (pu : pystr * pystr) (n : item) :
  In pu URLS_PORTAIS -> In n (portal_notes w pu) ->
  is_Some (saved (main w) !! seen_key n).
Proof.
  intros Hpu Hn. rewrite saved_main. apply record_fold_is_Some.
  destruct (load_seen w !! seen_key n) as [rec |] eqn:Hs.
  - left. eexists. reflexivity.
  - right. exists (fst pu, n). split; [| reflexivity].
    exact (in_observations w _ _ pu n Hpu Hn Hs).
Qed.

Lemma total_new_found (w : world) (seen : gmap pystr seen_record)
  (portals : list (pystr * pystr)) :
  total_new (omap (found_entry w seen) portals)
  = List.length (observations w seen portals).
Proof.
  induction portals as [| pu portals IH]; [reflexivity |].
  cbn [omap list_omap]. fold (omap (found_entry w seen) portals).
  unfold observations. cbn [List.flat_map]. rewrite List.length_app, List.length_map.
  fold (observations w seen portals). rewrite <- IH.
  unfold found_entry at 1. destruct (news w seen pu) as [| n l]; reflexivity.
Qed.

(** X8. A run that receives the same pages as the run before it and starts
    from the dictionary which that run saved reports nothing, for no
    portal, and saves the dictionary unchanged, however many notes the
    pages hold. *)
Theorem second_run_reports_nothing (w w2 : world) :
  (forall u, requests_get w2 u = requests_get w u) ->
  seen_file w2 = Some (saved (main w)) ->
  emailed (main w2) = None
  /\ saved (main w2) = saved (main w)
  /\ forall pu, In pu URLS_PORTAIS -> reported (main w2) (fst pu) = [].
Proof.
  intros Hreq Hfile.
  assert (Hload : load_seen w2 = saved (main w)).
  { unfold load_seen. rewrite Hfile. reflexivity. }
  assert (Hquiet : List.Forall (fun pu => news w2 (load_seen w2) pu = [])
                               URLS_PORTAIS).
  { apply List.Forall_forall. intros pu Hpu. unfold news.
    rewrite (portal_notes_ext urljoin_nonempty html_parser w w2 pu Hreq), Hload.
    pose proof (fun n => saved_has_note w pu n Hpu) as Hhas.
    induction (portal_notes w pu) as [| n l IH]; [reflexivity |].
    cbn [List.filter]. unfold is_new at 1.
    rewrite bool_decide_eq_false_2.
    - apply IH. intros n' Hn'. apply Hhas. right. exact Hn'.
    - destruct (Hhas n (or_introl eq_refl)) as [rec Hrec]. rewrite Hrec.
      discriminate. }
  rewrite (main_eq _ _ w2).
  destruct (main_on_quiet urljoin_nonempty html_parser w2 URLS_PORTAIS Hquiet)
    as [Hs He].
  split; [exact He |]. split; [rewrite Hs; exact Hload |].
  intros pu Hpu. unfold reported. rewrite He. reflexivity.
Qed.

Lemma omap_names_sublist (w : world) (seen : gmap pystr seen_record)
  (portals : list (pystr * pystr)) :
  sublist (List.map fst (omap (found_entry w seen) portals)) (List.map fst portals).
Proof.
  induction portals as [| pu portals IH]; [constructor |].
  cbn [omap list_omap List.map]. fold (omap (found_entry w seen) portals).
  unfold found_entry at 1. destruct (news w seen pu) as [| n l].
  - apply sublist_cons. exact IH.
  - cbn [List.map fst]. apply sublist_skip. exact IH.
Qed.

(** X9. [send_email] is called exactly when the run has a new note. The
    table it receives has one entry for each portal that has new notes,
    in the order of the registry and under pairwise different names, each
    with the new notes of that portal and never with an empty list, and
    the total of its lists is the number of new notes of the run. *)
Theorem new_items_table (w : world) :
  (emailed (main w) = None <-> observations w (load_seen w) URLS_PORTAIS = [])
  /\ forall table,
      emailed (main w) = Some table ->
      total_new table = List.length (observations w (load_seen w) URLS_PORTAIS)
      /\ sublist (List.map fst table) (List.map fst URLS_PORTAIS)
      /\ List.NoDup (List.map fst table)
      /\ List.Forall
           (fun kv => snd kv <> []
                      /\ exists pu, In pu URLS_PORTAIS /\ fst kv = fst pu
                                    /\ snd kv = news w (load_seen w) pu)
           table.
Proof.
  rewrite emailed_main, total_new_found.
  pose proof (total_new_found w (load_seen w) URLS_PORTAIS) as Htotal.
  pose proof (omap_names_sublist w (load_seen w) URLS_PORTAIS) as Hsub.
  assert (Hin : forall kv, In kv (omap (found_entry w (load_seen w)) URLS_PORTAIS) ->
                           exists pu, In pu URLS_PORTAIS
                                      /\ found_entry w (load_seen w) pu = Some kv).
  { intros kv Hkv. apply list_elem_of_In, list_elem_of_omap in Hkv.
    destruct Hkv as (pu & Hpu & He). apply list_elem_of_In in Hpu.
    exists pu. split; assumption. }
  remember (omap (found_entry w (load_seen w)) URLS_PORTAIS) as tbl eqn:Htbl.
  clear Htbl.
  split.
  - rewrite <- List.length_zero_iff_nil.
    destruct (List.length (observations w (load_seen w) URLS_PORTAIS)) as [| k];
      cbn [Nat.ltb Nat.leb]; split; intros H; try reflexivity; discriminate.
  - intros table H.
    destruct (0 <? _)%nat; [| discriminate].
    assert (Heq : tbl = table) by congruence. subst table. clear H.
    split; [exact Htotal |].
    split; [exact Hsub |].
    split.
    + apply NoDup_ListNoDup. eapply sublist_NoDup; [| exact Hsub].
      apply NoDup_ListNoDup. exact URLS_PORTAIS_names.
    + apply List.Forall_forall. intros kv Hkv.
      destruct (Hin kv Hkv) as (pu & Hpu & He).
      destruct (found_entry_Some _ _ _ _ _ _ He) as [-> Hne].
      split; [exact Hne |]. exists pu. repeat split. exact Hpu.
Qed.

(** X10. The run only adds keys: a key is in the saved dictionary exactly
    when it is in the loaded one or is the key of a new note of the run.
    The keys that the run adds are strings of 64 lower-case hexadecimal
    digits, and the saved dictionary has at least as many entries as the
    loaded one and at most as many more as the run has new notes. *)
Theorem saved_keys (w : world) :
  (forall k,
      is_Some (saved (main w) !! k)
      <-> is_Some (load_seen w !! k)
          \/ exists pn, In pn (observations w (load_seen w) URLS_PORTAIS)
                        /\ seen_key (snd pn) = k)
  /\ (forall k,
        is_Some (saved (main w) !! k) -> load_seen w !! k = None ->
        List.length k = 64%nat /\ List.Forall (fun c => is_lower_hex c = true) k)
  /\ (size (load_seen w) <= size (saved (main w))
      <= size (load_seen w)
         + List.length (observations w (load_seen w) URLS_PORTAIS))%nat.
Proof.
  rewrite saved_main. split; [| split].
  - intros k. split; [apply record_fold_is_Some_inv | apply record_fold_is_Some].
  - intros k Hk Hnone. apply record_fold_is_Some_inv in Hk.
    destruct Hk as [[rec Hrec] | (pn & _ & <-)]; [congruence |].
    unfold seen_key, sha256_text. apply hexdigest_shape.
  - apply record_fold_size.
Qed.

End RunMore.

(** ** The message *)

Lemma clean_title_cases (portal raw_title : pystr) :
  ((List.length (clean_title portal raw_title) <= 80)%nat
   \/ clean_title portal raw_title = raw_title)
  /\ (clean_title portal raw_title = [] -> raw_title = []).
Proof.
  assert (Hcases : forall t : pystr,
            (List.length t <= 80)%nat ->
            ((List.length (match t with [] => raw_title | _ :: _ => t end) <= 80)%nat
             \/ match t with [] => raw_title | _ :: _ => t end = raw_title)
            /\ (match t with [] => raw_title | _ :: _ => t end = [] -> raw_title = [])).
  { intros [| c t] Hl.
    - split; [right; reflexivity | intros H; exact H].
    - split; [left; exact Hl | discriminate]. }
  unfold clean_title. cbv zeta.
  destruct (80 <? List.length (strip (CLEANUP_sub raw_title)))%nat eqn:H0.
  - match goal with
    | |- context [(80 <? List.length ?t)%nat] =>
        destruct (80 <? List.length t)%nat eqn:H1;
        [ apply Hcases; apply Nat.ltb_lt in H1;
          rewrite List.length_app, List.length_firstn;
          change (List.length (lit "...")) with 3%nat; lia
        | apply Hcases; apply Nat.ltb_ge in H1; exact H1 ]
    end.
  - apply Hcases. apply Nat.ltb_ge in H0. exact H0.
Qed.

(** X11. The title that a row of the message shows has at most 80
    characters, unless the clean-up left nothing and the row falls back to
    the raw title, which is then shown unchanged whatever its length. The
    title shown is empty only when the raw title is. *)
Theorem clean_title_bounded (portal raw_title : pystr) :
  ((List.length (clean_title portal raw_title) <= 80)%nat
   \/ clean_title portal raw_title = raw_title)
  /\ (clean_title portal raw_title = [] <-> raw_title = []).
Proof.
  destruct (clean_title_cases portal raw_title) as [Ha Hb].
  split; [exact Ha |]. split; [exact Hb |]. intros ->. reflexivity.
Qed.

Lemma registry_get_In (pu : pystr * pystr) :
  In pu URLS_PORTAIS -> registry_get (fst pu) = Some (snd pu).
Proof.
  intros Hin. unfold registry_get.
  destruct (List.find (fun pu' => bool_decide (fst pu' = fst pu)) URLS_PORTAIS)
    as [pu' |] eqn:Hf.
  - apply List.find_some in Hf. destruct Hf as [Hin' Heq].
    apply bool_decide_eq_true in Heq.
    rewrite (same_name_same_portal URLS_PORTAIS pu' pu URLS_PORTAIS_names Hin' Hin Heq).
    reflexivity.
  - exfalso. pose proof (List.find_none _ _ Hf pu Hin) as Hn. cbv beta in Hn.
    apply bool_decide_eq_false in Hn. apply Hn. reflexivity.
Qed.

Lemma registry_get_Some (portal origin : pystr) :
  registry_get portal = Some origin -> In (portal, origin) URLS_PORTAIS.
Proof.
  unfold registry_get.
  destruct (List.find (fun pu' => bool_decide (fst pu' = portal)) URLS_PORTAIS)
    as [pu' |] eqn:Hf; [| discriminate].
  intros [= <-]. apply List.find_some in Hf. destruct Hf as [Hin Heq].
  apply bool_decide_eq_true in Heq. rewrite <- Heq. destruct pu'. exact Hin.
Qed.

Lemma rows_items_cons (portal : pystr) (i : nat) (it : item) (rest : list item) :
  rows_items portal i (it :: rest)
  = match registry_get portal with
      | None => None
      | Some origin =>
          match rows_items portal (S i) rest with
          | Some (rows, i') =>
              Some ({| row_portal := portal;
                       row_title := clean_title portal (item_title it);
                       row_href := item_url it;
                       row_origin := origin;
                       row_light := Nat.even i |} :: rows, i')
          | None => None
          end
      end.
Proof. reflexivity. Qed.

Lemma rows_items_None (portal : pystr) (items : list item) (i : nat) :
  rows_items portal i items = None
  <-> items <> [] /\ registry_get portal = None.
Proof.
  revert i. induction items as [| it items IH]; intros i.
  - split; [discriminate | intros [H _]; contradiction].
  - rewrite rows_items_cons. destruct (registry_get portal) as [origin |] eqn:Hr.
    + specialize (IH (S i)).
      destruct (rows_items portal (S i) items) as [[rows i'] |].
      * split; [discriminate | intros [_ H]; discriminate].
      * destruct (proj1 IH eq_refl) as [_ H]. discriminate.
    + split; [intros _; split; [discriminate | reflexivity] | reflexivity].
Qed.

Lemma rows_items_Some (portal : pystr) (items : list item) (i : nat)
  (rows : list email_row) (i' : nat) :
  rows_items portal i items = Some (rows, i') ->
  i' = (i + List.length items)%nat
  /\ List.length rows = List.length items
  /\ forall j row,
      rows !! j = Some row ->
      row_light row = Nat.even (i + j)
      /\ row_portal row = portal
      /\ registry_get portal = Some (row_origin row)
      /\ exists it, items !! j = Some it
                    /\ row_href row = item_url it
                    /\ row_title row = clean_title portal (item_title it).
Proof.
  revert i rows i'. induction items as [| it items IH]; intros i rows i' H.
  - cbn [rows_items] in H. injection H as <- <-. split; [cbn [List.length]; lia |].
    split; [reflexivity |]. intros j row Hj. destruct j; discriminate.
  - rewrite rows_items_cons in H.
    destruct (registry_get portal) as [origin |] eqn:Hr; [| discriminate].
    destruct (rows_items portal (S i) items) as [[rows0 i0] |] eqn:Hrest;
      [| discriminate].
    injection H as <- <-. destruct (IH _ _ _ Hrest) as (Hi & Hl & Hrows).
    split; [cbn [List.length]; lia |].
    split; [cbn [List.length]; rewrite Hl; reflexivity |].
    intros [| j] row Hj.
    + injection Hj as <-. cbn [row_light row_portal row_origin row_href row_title].
      rewrite Nat.add_0_r. repeat split. exists it. repeat split.
    + change (rows0 !! j = Some row) in Hj.
      destruct (Hrows j row Hj) as (Ha & Hb & Hc & it' & Hd & He & Hf).
      replace (i + S j)%nat with (S i + j)%nat by lia.
      split; [exact Ha |]. split; [exact Hb |]. split; [exact Hc |].
      exists it'. repeat split; assumption.
Qed.

Lemma rows_table_None (table : list (pystr * list item)) (i : nat) :
  rows_table i table = None
  <-> exists kv, In kv table /\ snd kv <> [] /\ registry_get (fst kv) = None.
Proof.
  revert i. induction table as [| [portal items] table IH]; intros i;
    cbn [rows_table].
  - split; [discriminate | intros (kv & [] & _)].
  - destruct (rows_items portal i (List.firstn 3 items)) as [[rows i'] |] eqn:Hr.
    + assert (Hok : ~ (items <> [] /\ registry_get portal = None)).
      { intros [Hne Hnone].
        assert (Hn : rows_items portal i (List.firstn 3 items) = None).
        { apply rows_items_None. split; [| exact Hnone].
          destruct items; [contradiction | discriminate]. }
        congruence. }
      specialize (IH i'). destruct (rows_table i' table) as [more |].
      * split; [discriminate |]. intros (kv & [<- | Hin] & Hne & Hnone).
        -- exfalso. apply Hok. split; assumption.
        -- assert (Hbad : Some more = None)
             by (apply IH; exists kv; repeat split; assumption).
           discriminate.
      * split; [| reflexivity]. intros _.
        destruct (proj1 IH eq_refl) as (kv & Hin & Hne & Hnone).
        exists kv. split; [right; exact Hin |]. split; assumption.
    + split; [| reflexivity]. intros _. apply rows_items_None in Hr.
      destruct Hr as [Hne Hnone]. exists (portal, items).
      split; [left; reflexivity |]. split; [| exact Hnone].
      cbn [snd]. intros ->. apply Hne. reflexivity.
Qed.

Lemma rows_table_Some (table : list (pystr * list item)) (i : nat)
  (rows : list email_row) :
  rows_table i table = Some rows ->
  List.length rows = rows_count table
  /\ forall j row,
      rows !! j = Some row ->
      row_light row = Nat.even (i + j)
      /\ exists kv it,
          In kv table /\ In it (List.firstn 3 (snd kv))
          /\ row_portal row = fst kv
          /\ registry_get (fst kv) = Some (row_origin row)
          /\ row_href row = item_url it
          /\ row_title row = clean_title (fst kv) (item_title it).
Proof.
  revert i rows. induction table as [| [portal items] table IH]; intros i rows H;
    cbn [rows_table] in H.
  - injection H as <-. split; [reflexivity |]. intros j row Hj.
    destruct j; discriminate.
  - destruct (rows_items portal i (List.firstn 3 items)) as [[rows0 i'] |] eqn:Hr;
      [| discriminate].
    destruct (rows_table i' table) as [more |] eqn:Ht; [| discriminate].
    injection H as <-.
    destruct (rows_items_Some _ _ _ _ _ Hr) as (Hi & Hl & Hrows).
    destruct (IH _ _ Ht) as (Hl' & Hmore).
    split.
    + rewrite List.length_app, Hl, Hl'. cbn [rows_count List.fold_right snd].
      rewrite List.length_firstn. reflexivity.
    + intros j row Hj. destruct (decide (j < List.length rows0)%nat) as [Hlt | Hge].
      * rewrite lookup_app_l in Hj by exact Hlt.
        destruct (Hrows j row Hj) as (Ha & Hb & Hc & it & Hd & He & Hf).
        split; [exact Ha |]. exists (portal, items), it. cbn [fst snd].
        split; [left; reflexivity |].
        split; [apply list_elem_of_In; eapply list_elem_of_lookup_2; exact Hd |].
        repeat split; assumption.
      * rewrite lookup_app_r in Hj by lia.
        destruct (Hmore _ row Hj) as (Ha & kv & it & Hb & Hc).
        split; [rewrite Ha; f_equal; lia |].
        exists kv, it. split; [right; exact Hb | exact Hc].
Qed.

Lemma rows_items_map (portal : pystr) (items : list item) (i : nat)
  (rows : list email_row) (i' : nat) :
  rows_items portal i items = Some (rows, i') ->
  List.map (fun row => (row_portal row, row_href row, row_title row)) rows
  = List.map (fun it => (portal, item_url it, clean_title portal (item_title it)))
             items.
Proof.
  revert i rows i'. induction items as [| it items IH]; intros i rows i' H.
  - cbn [rows_items] in H. injection H as <- <-. reflexivity.
  - rewrite rows_items_cons in H.
    destruct (registry_get portal) as [origin |]; [| discriminate].
    destruct (rows_items portal (S i) items) as [[rows0 i0] |] eqn:Hrest;
      [| discriminate].
    injection H as <- <-. cbn [List.map row_portal row_href row_title].
    rewrite (IH _ _ _ Hrest). reflexivity.
Qed.

Lemma rows_table_map (table : list (pystr * list item)) (i : nat)
  (rows : list email_row) :
  rows_table i table = Some rows ->
  List.map (fun row => (row_portal row, row_href row, row_title row)) rows
  = List.flat_map
      (fun kv => List.map (fun it => (fst kv, item_url it,
                                      clean_title (fst kv) (item_title it)))
                          (List.firstn 3 (snd kv)))
      table.
Proof.
  revert i rows. induction table as [| [portal items] table IH]; intros i rows H;
    cbn [rows_table] in H.
  - injection H as <-. reflexivity.
  - destruct (rows_items portal i (List.firstn 3 items)) as [[rows0 i'] |] eqn:Hr;
      [| discriminate].
    destruct (rows_table i' table) as [more |] eqn:Ht; [| discriminate].
    injection H as <-. cbn [List.flat_map fst snd].
    rewrite List.map_app, (rows_items_map _ _ _ _ _ Hr), (IH _ _ Ht). reflexivity.
Qed.

Lemma rows_count_le (table : list (pystr * list item)) :
  (rows_count table <= total_new table)%nat.
Proof.
  induction table as [| kv table IH]; [reflexivity |].
  cbn [rows_count total_new List.fold_right] in *.
  unfold rows_count, total_new in IH. lia.
Qed.

(** X12. [send_email] raises [KeyError] exactly when the table has a portal
    with items that is not a name of the registry. Otherwise the subject
    gives the total of the table, and the rows are, in the order of the
    table, the first three items at most of each portal, each with the
    portal, the item's url and the item's cleaned title; there are no more
    rows than the total. The rows have the light and the white background
    in turn from the first row of the message on, across portals, and each
    links the registry page of its portal. *)
Theorem send_email_rows (table : list (pystr * list item)) :
  (compose_email table = None
   <-> exists kv, In kv table /\ snd kv <> [] /\ registry_get (fst kv) = None)
  /\ forall msg,
      compose_email table = Some msg ->
      msg_total msg = total_new table
      /\ List.length (msg_rows msg) = rows_count table
      /\ (List.length (msg_rows msg) <= msg_total msg)%nat
      /\ List.map (fun row => (row_portal row, row_href row, row_title row))
                  (msg_rows msg)
         = List.flat_map
             (fun kv => List.map (fun it => (fst kv, item_url it,
                                             clean_title (fst kv) (item_title it)))
                                 (List.firstn 3 (snd kv)))
             table
      /\ forall j row,
          msg_rows msg !! j = Some row ->
          row_light row = Nat.even j
          /\ registry_get (row_portal row) = Some (row_origin row).
Proof.
  unfold compose_email. split.
  - rewrite <- (rows_table_None table O).
    destruct (rows_table O table); split; intros H; try reflexivity; discriminate.
  - intros msg H. destruct (rows_table O table) as [rows |] eqn:Hr; [| discriminate].
    injection H as <-. cbn [msg_total msg_rows].
    destruct (rows_table_Some _ _ _ Hr) as [Hl Hrows].
    split; [reflexivity |]. split; [exact Hl |].
    split; [rewrite Hl; apply rows_count_le |].
    split; [exact (rows_table_map _ _ _ Hr) |].
    intros j row Hj.
    destruct (Hrows j row Hj) as (Ha & kv & it & _ & _ & Hp & Ho & _).
    split; [exact Ha |]. rewrite Hp. exact Ho.
Qed.

Lemma rows_count_pos (table : list (pystr * list item)) :
  (0 < total_new table)%nat -> (0 < rows_count table)%nat.
Proof.
  induction table as [| kv table IH]; cbn [rows_count total_new List.fold_right];
    [intros H; exact H |].
  intros H. unfold rows_count, total_new in IH.
  destruct (snd kv) as [| n l]; cbn [List.length] in *; [apply IH in H |]; lia.
Qed.

Section RunMessage.

Variable urljoin_nonempty : pystr -> pystr -> pystr.
Variable html_parser : pystr -> list node.

Local Abbreviation main := (main urljoin_nonempty html_parser).
Local Abbreviation portal_notes := (portal_notes urljoin_nonempty html_parser).
Local Abbreviation news := (news urljoin_nonempty html_parser).
Local Abbreviation observations := (observations urljoin_nonempty html_parser).
Local Abbreviation found_entry := (found_entry urljoin_nonempty html_parser).

Lemma portal_notes_title (w : world) (pu : pystr * pystr) (n : item) :
  In n (portal_notes w pu) -> item_title n <> [].
Proof.
  unfold portal_notes, find_notes.
  destruct (fst (fetch_url w (snd pu))) as [[| c html] |]; intros H;
    try (destruct H).
  exact (find_notes_soup_title urljoin_nonempty _ _ _ H).
Qed.

(** The table that [main] hands to [send_email]. *)
Lemma emailed_Some (w : world) (table : list (pystr * list item)) :
  emailed (main w) = Some table ->
  (0 < total_new table)%nat
  /\ total_new table = List.length (observations w (load_seen w) URLS_PORTAIS)
  /\ forall kv, In kv table ->
                exists pu, In pu URLS_PORTAIS /\ kv = (fst pu, news w (load_seen w) pu).
Proof.
  rewrite emailed_main.
  pose proof (total_new_found urljoin_nonempty html_parser w (load_seen w)
                URLS_PORTAIS) as Htotal.
  assert (Hin : forall kv, In kv (omap (found_entry w (load_seen w)) URLS_PORTAIS) ->
                           exists pu, In pu URLS_PORTAIS
                                      /\ kv = (fst pu, news w (load_seen w) pu)).
  { intros kv Hkv. apply list_elem_of_In, list_elem_of_omap in Hkv.
    destruct Hkv as (pu & Hpu & He). apply list_elem_of_In in Hpu.
    exists pu. split; [exact Hpu |].
    exact (proj1 (found_entry_Some _ _ _ _ _ _ He)). }
  remember (omap (found_entry w (load_seen w)) URLS_PORTAIS) as tbl eqn:Htbl.
  clear Htbl. intros H.
  destruct (0 <? total_new tbl)%nat eqn:Hpos; [| discriminate].
  assert (Heq : tbl = table) by congruence. subst table.
  apply Nat.ltb_lt in Hpos. split; [exact Hpos |]. split; [exact Htotal | exact Hin].
Qed.

(** X13. When a run has new notes, [send_email] does not raise [KeyError]
    on the table that [main] hands to it. The subject gives the number of
    new notes of the run, the message has at least one row, and every row
    is for a portal of the registry and one of its new notes: it links the
    page of that portal and the url of the note, under a title that is not
    empty. *)
Theorem run_message_rows (w : world) (table : list (pystr * list item)) :
  emailed (main w) = Some table ->
  exists msg,
    compose_email table = Some msg
    /\ msg_total msg = List.length (observations w (load_seen w) URLS_PORTAIS)
    /\ (0 < List.length (msg_rows msg) <= msg_total msg)%nat
    /\ forall row,
        In row (msg_rows msg) ->
        row_title row <> []
        /\ exists pu n,
            In pu URLS_PORTAIS /\ In n (news w (load_seen w) pu)
            /\ row_portal row = fst pu /\ row_origin row = snd pu
            /\ row_href row = item_url n
            /\ row_title row = clean_title (fst pu) (item_title n).
Proof.
  intros He. destruct (emailed_Some w table He) as (Hpos & Htotal & Htable).
  unfold compose_email.
  destruct (rows_table O table) as [rows |] eqn:Hr.
  - eexists. split; [reflexivity |]. cbn [msg_total msg_rows].
    destruct (rows_table_Some _ _ _ Hr) as [Hl Hrows].
    split; [exact Htotal |].
    split; [rewrite Hl; split; [exact (rows_count_pos _ Hpos) | apply rows_count_le] |].
    intros row Hrow. apply list_elem_of_In, list_elem_of_lookup_1 in Hrow.
    destruct Hrow as [j Hj].
    destruct (Hrows j row Hj) as (_ & kv & it & Hkv & Hit & Hp & Ho & Hh & Ht).
    destruct (Htable kv Hkv) as (pu & Hpu & ->). cbn [fst snd] in *.
    assert (Hnews : In it (news w (load_seen w) pu)).
    { apply list_elem_of_In. apply (subseteq_take 3). apply list_elem_of_In.
      exact Hit. }
    split.
    + rewrite Ht. intros H0.
      apply (proj2 (clean_title_cases _ _)) in H0. revert H0.
      apply (portal_notes_title w pu). unfold news in Hnews.
      apply List.filter_In in Hnews. exact (proj1 Hnews).
    + exists pu, it. split; [exact Hpu |]. split; [exact Hnews |].
      split; [exact Hp |]. split; [| split; assumption].
      rewrite (registry_get_In pu Hpu) in Ho. congruence.
  - exfalso. apply rows_table_None in Hr.
    destruct Hr as (kv & Hkv & _ & Hnone).
    destruct (Htable kv Hkv) as (pu & Hpu & ->). cbn [fst] in Hnone.
    rewrite (registry_get_In pu Hpu) in Hnone. discriminate.
Qed.

End RunMessage.

(** ** The printed lines and the password *)

Section RunLog.

Variable urljoin_nonempty : pystr -> pystr -> pystr.
Variable html_parser : pystr -> list node.

Local Abbreviation main := (main urljoin_nonempty html_parser).
Local Abbreviation portal_step := (portal_step urljoin_nonempty html_parser).
Local Abbreviation run_portals := (run_portals urljoin_nonempty html_parser).
Local Abbreviation portal_notes := (portal_notes urljoin_nonempty html_parser).
Local Abbreviation news := (news urljoin_nonempty html_parser).
Local Abbreviation observations := (observations urljoin_nonempty html_parser).
Local Abbreviation found_entry := (found_entry urljoin_nonempty html_parser).
Local Abbreviation portal_log := (portal_log urljoin_nonempty html_parser).

Lemma portal_step_stdout (w : world) (seen : gmap pystr seen_record)
  (st : run_state) (pu : pystr * pystr) :
  stdout (portal_step w seen st pu) = stdout st ++ portal_log w seen pu.
Proof.
  destruct pu as [portal url_]. unfold portal_log, news, portal_notes.
  cbn [fst snd]. rewrite portal_step_eq.
  destruct (fetch_url w url_) as [[[| c html] |] warn]; cbn [fst snd];
    try (cbn [List.filter stdout]; rewrite List.app_nil_r; reflexivity).
  rewrite note_fold. cbn [app].
  destruct (List.filter (is_new seen) (find_notes _ _ (c :: html) url_)) as [| n l];
    cbn [stdout].
  - rewrite List.app_nil_r. reflexivity.
  - rewrite <- !List.app_assoc. reflexivity.
Qed.

Lemma run_portals_stdout (w : world) (seen : gmap pystr seen_record)
  (portals : list (pystr * pystr)) (st : run_state) :
  stdout (run_portals w seen portals st)
  = stdout st ++ List.flat_map (portal_log w seen) portals.
Proof.
  revert st. induction portals as [| pu portals IH]; intros st.
  - rewrite run_portals_nil. cbn [List.flat_map]. rewrite List.app_nil_r. reflexivity.
  - rewrite run_portals_cons, IH, portal_step_stdout. cbn [List.flat_map].
    rewrite List.app_assoc. reflexivity.
Qed.


Lemma with_password_notes (w : world) (pw : option pystr) (pu : pystr * pystr) :
  portal_notes (with_password w pw) pu = portal_notes w pu.
Proof. reflexivity. Qed.

Lemma with_password_observations (w : world) (pw : option pystr)
  (seen : gmap pystr seen_record) (portals : list (pystr * pystr)) :
  observations (with_password w pw) seen portals = observations w seen portals.
Proof.
  induction portals as [| pu portals IH]; [reflexivity |].
  unfold observations in *. cbn [List.flat_map]. rewrite IH.
  unfold news. rewrite with_password_notes. reflexivity.
Qed.

Lemma with_password_found (w : world) (pw : option pystr)
  (seen : gmap pystr seen_record) (portals : list (pystr * pystr)) :
  omap (found_entry (with_password w pw) seen) portals
  = omap (found_entry w seen) portals.
Proof.
  induction portals as [| pu portals IH]; [reflexivity |].
  cbn [omap list_omap]. fold (omap (found_entry (with_password w pw) seen) portals).
  fold (omap (found_entry w seen) portals). rewrite IH.
  unfold found_entry, news. rewrite with_password_notes. reflexivity.
Qed.

(** X15. [main] does not look at the password beyond printing a line: with
    any other value of SENHA_APP, set or not, the run saves the same
    dictionary and calls [send_email] in the same cases with the same
    table. *)
Theorem password_only_printed (w : world) (pw : option pystr) :
  saved (main (with_password w pw)) = saved (main w)
  /\ emailed (main (with_password w pw)) = emailed (main w).
Proof.
  split.
  - rewrite !saved_main.
    change (load_seen (with_password w pw)) with (load_seen w).
    rewrite with_password_observations. reflexivity.
  - rewrite !emailed_main.
    change (load_seen (with_password w pw)) with (load_seen w).
    rewrite with_password_found. reflexivity.
Qed.

End RunLog.

(** *** Examples for the further properties *)

Lemma find_notes_titles_witness :
  In {| item_title := lit "Nota Técnica 2024.001";
        item_url := lit "https://portal.test/docs/doc1.pdf" |}
     (find_notes_soup resolve_reference (BeautifulSoup page_row) base_test)
  /\ lit "Nota Técnica 2024.001" <> []
  /\ PATTERN_search (lit "Nota Técnica 2024.001") = true.
Proof.
  assert (H : In {| item_title := lit "Nota Técnica 2024.001";
                    item_url := lit "https://portal.test/docs/doc1.pdf" |}
                 (find_notes_soup resolve_reference (BeautifulSoup page_row) base_test))
    by (vm_compute; left; reflexivity).
  split; [exact H |].
  destruct (find_notes_titles resolve_reference _ _ _ H) as [Ha _].
  split; [exact Ha | vm_compute; reflexivity].
Defined.


Lemma second_run_reports_nothing_witness :
  emailed (main resolve_reference parser
             (world_second (saved (main resolve_reference parser world_first))))
  = None
  /\ saved (main resolve_reference parser
              (world_second (saved (main resolve_reference parser world_first))))
     = saved (main resolve_reference parser world_first).
Proof.
  destruct (second_run_reports_nothing resolve_reference parser world_first
              (world_second (saved (main resolve_reference parser world_first)))
              (fun u => eq_refl) eq_refl)
    as (Ha & Hb & _).
  split; [exact Ha | exact Hb].
Defined.

Lemma run_message_rows_witness :
  emailed (main resolve_reference parser world_first)
  = Some [(fst portal_1, [note_row])]
  /\ exists msg,
      compose_email [(fst portal_1, [note_row])] = Some msg
      /\ (0 < List.length (msg_rows msg) <= msg_total msg)%nat.
Proof.
  assert (H : emailed (main resolve_reference parser world_first)
              = Some [(fst portal_1, [note_row])])
    by (vm_compute; reflexivity).
  split; [exact H |].
  destruct (run_message_rows resolve_reference parser world_first _ H)
    as (msg & Hc & _ & Hl & _).
  exists msg. split; [exact Hc | exact Hl].
Defined.
